(** * kd3: a balanced static 3-D k-d tree with box range queries

    A shallow embedding of [src/kd3/kdtree.c] and [src/kd3/kdtree.h].

    - A C [double] is a primitive binary64 [float]: comparisons are the IEEE
      ones (every comparison with a NaN is false, the infinities lie beyond
      [DBL_MAX]).
    - A [size_t] is an [N].  Every [size_t] the builder and the search compute
      is an index into, or a size of, an array that is resident in memory
      (at most [2 * count]), or the depth of a level of the tree, which
      starts at 0 in [kdtree_build] and in [kdtree_search_space] and grows
      by one per level, so none of these operations wraps; a statement
      about a routine at an arbitrary depth carries the bound that keeps
      the depths below it within [SIZE_MAX].  The one constant that depends
      on the width, [SIZE_MAX], is written for the 64-bit [size_t] of an
      LP64 target.
    - A pointer into the node arena is the index of the slot it points to,
      [NULL] is [None].
    - A function returns [None] where the C code stops on a failed [assert]
      or reads or writes outside an array.
    - Recursion that follows the index range or the pointers of the arena
      takes a [fuel] argument; the public entry points supply enough of it. *)

From Stdlib Require Import ZArith NArith Lia ZifyNat Floats.
From stdpp Require Import base option list sorting.

Ltac Zify.zify_post_hook ::= Z.to_euclidean_division_equations.

#[local] Open Scope N_scope.

(** ** Scalars *)

Definition double := float.
Bind Scope float_scope with double.

(** [DBL_MAX] of <float.h>: the largest finite binary64 value. *)
Definition DBL_MAX : double := 0x1.fffffffffffffp+1023%float.

(** C's relational operators on doubles. *)
Definition dlt (a b : double) : bool := PrimFloat.ltb a b.
Definition dgt (a b : double) : bool := PrimFloat.ltb b a.
Definition dle (a b : double) : bool := PrimFloat.leb a b.
Definition dge (a b : double) : bool := PrimFloat.leb b a.

(** A double that is neither a NaN nor an infinity. *)
Definition finite_double (a : double) : bool :=
  dle (- DBL_MAX)%float a && dle a DBL_MAX.

(** [ordered a]: [a] is not a NaN, so it compares with itself. *)
Definition ordered (a : double) : Prop := dle a a = true.

Definition size_t := N.
Definition SIZE_MAX : size_t := 18446744073709551615.

(** kdtree.h *)
Definition KDTREE_ITERATOR_INITIAL_SIZE : size_t := 50.
Definition KDTREE_ITERATOR_GROWTH_RATIO : size_t := 2.
Definition KDTREE_END : size_t := SIZE_MAX.

(** [enum DIMENSIONS { DIM_X = 0, DIM_Y, DIM_Z, NDIMS }] *)
Inductive DIMENSIONS := DIM_X | DIM_Y | DIM_Z.
#[global] Instance DIMENSIONS_eq_dec : EqDecision DIMENSIONS.
Proof. solve_decision. Defined.
Definition NDIMS : size_t := 3.

(** [depth % NDIMS], as a dimension. *)
Definition axis_of (depth : size_t) : DIMENSIONS :=
  match depth mod NDIMS with
  | 0 => DIM_X
  | 1 => DIM_Y
  | _ => DIM_Z
  end.

(** ** Data model (kdtree.h) *)

Record data_point := {
  pt_x : double;
  pt_y : double;
  pt_z : double;
  pt_idx : size_t   (* index of original data point *)
}.

Definition ptr := option N.
Definition NULL : ptr := None.

Record tree_node := {
  nd_left : ptr;
  nd_right : ptr;
  nd_split : double;
  nd_idx : size_t
}.

Record boundaries := { b_min : double; b_max : double }.

(** [struct space { struct boundaries dim[3]; }] *)
Record space := { dim_X : boundaries; dim_Y : boundaries; dim_Z : boundaries }.

Definition dim (s : space) (axis : DIMENSIONS) : boundaries :=
  match axis with DIM_X => dim_X s | DIM_Y => dim_Y s | DIM_Z => dim_Z s end.

Definition set_dim (s : space) (axis : DIMENSIONS) (b : boundaries) : space :=
  match axis with
  | DIM_X => {| dim_X := b; dim_Y := dim_Y s; dim_Z := dim_Z s |}
  | DIM_Y => {| dim_X := dim_X s; dim_Y := b; dim_Z := dim_Z s |}
  | DIM_Z => {| dim_X := dim_X s; dim_Y := dim_Y s; dim_Z := b |}
  end.

Definition set_min (s : space) (axis : DIMENSIONS) (v : double) : space :=
  set_dim s axis {| b_min := v; b_max := b_max (dim s axis) |}.
Definition set_max (s : space) (axis : DIMENSIONS) (v : double) : space :=
  set_dim s axis {| b_min := b_min (dim s axis); b_max := v |}.

Record kdtree := {
  count : size_t;
  max_nodes : size_t;
  next_node : size_t;
  points : list data_point;
  node_data : list tree_node;
  root : ptr
}.

Record kdtree_iterator := {
  it_data : list size_t;
  it_capacity : size_t;
  it_size : size_t;
  it_current : size_t
}.

(** Field updates. *)
Definition set_next_node (t : kdtree) (v : size_t) : kdtree :=
  {| count := count t; max_nodes := max_nodes t; next_node := v;
     points := points t; node_data := node_data t; root := root t |}.
Definition set_points (t : kdtree) (v : list data_point) : kdtree :=
  {| count := count t; max_nodes := max_nodes t; next_node := next_node t;
     points := v; node_data := node_data t; root := root t |}.
Definition set_node_data (t : kdtree) (v : list tree_node) : kdtree :=
  {| count := count t; max_nodes := max_nodes t; next_node := next_node t;
     points := points t; node_data := v; root := root t |}.
Definition set_root (t : kdtree) (v : ptr) : kdtree :=
  {| count := count t; max_nodes := max_nodes t; next_node := next_node t;
     points := points t; node_data := node_data t; root := v |}.

Definition set_split (nd : tree_node) (v : double) : tree_node :=
  {| nd_left := nd_left nd; nd_right := nd_right nd; nd_split := v; nd_idx := nd_idx nd |}.
Definition set_left (nd : tree_node) (v : ptr) : tree_node :=
  {| nd_left := v; nd_right := nd_right nd; nd_split := nd_split nd; nd_idx := nd_idx nd |}.
Definition set_right (nd : tree_node) (v : ptr) : tree_node :=
  {| nd_left := nd_left nd; nd_right := v; nd_split := nd_split nd; nd_idx := nd_idx nd |}.

(** Array cells addressed by a [size_t]. *)
Definition cell {A} (l : list A) (i : size_t) : option A := l !! N.to_nat i.

(** [l[i] = f (l[i])]; [None] outside the array. *)
Definition store {A} (l : list A) (i : size_t) (f : A -> A) : option (list A) :=
  match cell l i with
  | Some a => Some (<[N.to_nat i := f a]> l)
  | None => None
  end.

(** The [count] cells of [l] from [from] on, and [l] with these cells replaced. *)
Definition slice {A} (l : list A) (from count : size_t) : list A :=
  take (N.to_nat count) (drop (N.to_nat from) l).
Definition splice {A} (l : list A) (from count : size_t) (seg : list A) : list A :=
  take (N.to_nat from) l ++ seg ++ drop (N.to_nat (from + count)) l.

(** ** Comparison routines *)

(** [#define CMP(v1,v2) ((v1 > v2) ? 1 : ((v1 < v2) ? -1 : 0))] *)
Definition CMP {A} (lt : A -> A -> bool) (v1 v2 : A) : Z :=
  if lt v2 v1 then 1%Z else if lt v1 v2 then (-1)%Z else 0%Z.

Definition cmp_x (A1 A2 : data_point) : Z := CMP dlt (pt_x A1) (pt_x A2).
Definition cmp_y (A1 A2 : data_point) : Z := CMP dlt (pt_y A1) (pt_y A2).
Definition cmp_z (A1 A2 : data_point) : Z := CMP dlt (pt_z A1) (pt_z A2).
Definition cmp_size_t (A1 A2 : size_t) : Z := CMP N.ltb A1 A2.

(** [const cmp_func func_select[] = { cmp_x, cmp_y, cmp_z }] *)
Definition func_select (axis : DIMENSIONS) : data_point -> data_point -> Z :=
  match axis with DIM_X => cmp_x | DIM_Y => cmp_y | DIM_Z => cmp_z end.

(** ** The C library

    [qsort], [malloc] and [realloc] are not code of this repository: they are
    taken with their contracts.  A comparison function is consistent on an
    array when it orders its elements totally; [qsort] rearranges the array,
    and leaves it in ascending order when the comparison function is
    consistent.  Fresh memory has arbitrary contents; allocation succeeds
    (the source stops on a failed allocation). *)

Definition cmp_consistent {A} (cmp : A -> A -> Z) (l : list A) : Prop :=
  (forall a b, a ∈ l -> b ∈ l -> (cmp a b <= 0)%Z \/ (cmp b a <= 0)%Z) /\
  (forall a b c, a ∈ l -> b ∈ l -> c ∈ l ->
     (cmp a b <= 0)%Z -> (cmp b c <= 0)%Z -> (cmp a c <= 0)%Z).

Class Libc := {
  qsort : forall {A}, (A -> A -> Z) -> list A -> list A;
  qsort_perm : forall A (cmp : A -> A -> Z) l, qsort cmp l ≡ₚ l;
  qsort_sorted : forall A (cmp : A -> A -> Z) l,
    cmp_consistent cmp l ->
    StronglySorted (fun a b => (cmp a b <= 0)%Z) (qsort cmp l);
  malloc_kdtree : kdtree;
  malloc_points : size_t -> list data_point;
  malloc_points_length : forall n, length (malloc_points n) = N.to_nat n;
  malloc_nodes : size_t -> list tree_node;
  malloc_nodes_length : forall n, length (malloc_nodes n) = N.to_nat n;
  malloc_data : size_t -> list size_t;
  malloc_data_length : forall n, length (malloc_data n) = N.to_nat n
}.

Section Program.
Context {libc : Libc}.

(** [realloc] to [n] cells: the old cells, then fresh ones. *)
Definition realloc_data (old : list size_t) (n : size_t) : list size_t :=
  take (N.to_nat n) old ++ malloc_data (n - N.of_nat (length old)).

(** ** Node arena *)

(** get pointer to the next available node within the node data cache *)
Definition _next_node (t : kdtree) : option (N * kdtree) :=
  if next_node t <? max_nodes t
  then Some (next_node t, set_next_node t (next_node t + 1))
  else None.

(** A write through a node pointer. *)
Definition node_store (t : kdtree) (node : N) (f : tree_node -> tree_node) : option kdtree :=
  nodes ← store (node_data t) node f;
  Some (set_node_data t nodes).

(** return a branch node *)
Definition _get_branch_node (t : kdtree) (split : double) : option (N * kdtree) :=
  '(node, t) ← _next_node t;
  t ← node_store t node (fun nd => set_split nd split);
  Some (node, t).

(** return a leaf node. Holds the index of the actual data point *)
Definition _get_leaf_node (t : kdtree) (offset : size_t) : option (N * kdtree) :=
  '(node, t) ← _next_node t;
  t ← node_store t node (fun nd =>
        {| nd_left := NULL; nd_right := NULL; nd_split := nd_split nd; nd_idx := offset |});
  Some (node, t).

(** determine if a node is a leaf node *)
Definition _is_leaf_node (node : tree_node) : bool :=
  match nd_left node, nd_right node with
  | None, None => true
  | _, _ => false
  end.

(** ** Tree builder *)

(** [qsort(tree->points + idx_from, count, sizeof(struct data_point), cmp)] *)
Definition sort_range (cmp : data_point -> data_point -> Z) (idx_from n : size_t)
    (pts : list data_point) : option (list data_point) :=
  if idx_from + n <=? N.of_nat (length pts)
  then Some (splice pts idx_from n (qsort cmp (slice pts idx_from n)))
  else None.

Definition coord (axis : DIMENSIONS) (point : data_point) : double :=
  match axis with DIM_X => pt_x point | DIM_Y => pt_y point | DIM_Z => pt_z point end.

(** internal routine to recursively build the kdtree; [depth + 1] is the
    sum in [N], which is the [size_t] sum while the depth is below
    [SIZE_MAX] *)
Fixpoint _build_kdtree (fuel : nat) (idx_from idx_to depth : size_t) (t : kdtree)
    : option (N * kdtree) :=
  match fuel with
  | O => None
  | S fuel =>
    let n := idx_to - idx_from + 1 in
    let mid := idx_from + (idx_to - idx_from) / 2 in
    let axis := axis_of depth in
    (* if there is only one point, return a leaf node *)
    if n =? 1 then _get_leaf_node t idx_from
    else
      (* sort the points within this group to determine the median point *)
      pts ← sort_range (func_select axis) idx_from n (points t);
      let t := set_points t pts in
      (* determine point where axis will be split *)
      point ← cell (points t) mid;
      let split := coord axis point in
      (* recursively build a tree for the left and right planes *)
      '(node, t) ← _get_branch_node t split;
      '(l, t) ← _build_kdtree fuel idx_from mid (depth + 1) t;
      t ← node_store t node (fun nd => set_left nd (Some l));
      '(r, t) ← _build_kdtree fuel (mid + 1) idx_to (depth + 1) t;
      t ← node_store t node (fun nd => set_right nd (Some r));
      Some (node, t)
  end.

(** allocate new object; initialise values and memory (the fields that
    [malloc] leaves unset are those of [malloc_kdtree]) *)
Definition kdtree_new (n : size_t) : kdtree :=
  let tree := malloc_kdtree in
  let max := ((n - 1) * 2) + 1 in
  {| count := n; max_nodes := max; next_node := next_node tree;
     points := malloc_points n; node_data := malloc_nodes max; root := root tree |}.

(** Reallocate object if ptr == NULL or if count does not match (lines
    145-160 of [kdtree_build]); the previous object is deleted. *)
Definition kdtree_alloc (n : size_t) (tree_ptr : option kdtree) : kdtree :=
  match tree_ptr with
  | Some tree => if count tree =? n then tree else kdtree_new n
  | None => kdtree_new n
  end.

(** The body of the caching loop of [kdtree_build], for one [i]. *)
Definition cache_point (x y z : list double) (i : size_t) (t : kdtree) : option kdtree :=
  xi ← cell x i;
  yi ← cell y i;
  zi ← cell z i;
  pts ← store (points t) i (fun _ => {| pt_x := xi; pt_y := yi; pt_z := zi; pt_idx := i |});
  Some (set_points t pts).

(** [for (i = ...; i < count; i++)], with [k] iterations left. *)
Fixpoint cache_loop (k : nat) (x y z : list double) (i : size_t) (t : kdtree) : option kdtree :=
  match k with
  | O => Some t
  | S k => t ← cache_point x y z i t; cache_loop k x y z (i + 1) t
  end.

(** cache coordinates of each point and map to the idx of the point *)
Definition cache_points (x y z : list double) (n : size_t) (t : kdtree) : option kdtree :=
  cache_loop (N.to_nat n) x y z 0 t.

(** Build a 3D k-d tree based on the points stored in x, y, z arrays (with
    count specifying the number of points). *)
Definition kdtree_build (x y z : list double) (n : size_t) (tree_ptr : option kdtree)
    : option kdtree :=
  (* sanity check *)
  if negb (1 <? n) then None
  else
    (* Reallocate object if ptr == NULL or if count does not match *)
    let tree := kdtree_alloc n tree_ptr in
    (* reset control values *)
    let tree := set_next_node tree 0 in
    tree ← cache_points x y z n tree;
    (* build tree and store ptr to root node *)
    '(node, tree) ← _build_kdtree (N.to_nat n) 0 (n - 1) 0 tree;
    Some (set_root tree (Some node)).

(** ** Result iterator *)

(** allocate and initialise a new iterator object *)
Definition _iterator_new : kdtree_iterator :=
  {| it_current := 0; it_size := 0;
     it_capacity := KDTREE_ITERATOR_INITIAL_SIZE;
     it_data := malloc_data KDTREE_ITERATOR_INITIAL_SIZE |}.

(** resets and iterator so its memory can be reused *)
Definition _iterator_reset (iter : kdtree_iterator) : kdtree_iterator :=
  {| it_data := it_data iter; it_capacity := it_capacity iter;
     it_size := 0; it_current := 0 |}.

(** full. need to grow capacity ([assert(KDTREE_ITERATOR_GROWTH_RATIO > 1.0)]
    holds, the ratio being the constant 2) *)
Definition _iterator_grow (iter : kdtree_iterator) : kdtree_iterator :=
  let capacity := it_capacity iter * KDTREE_ITERATOR_GROWTH_RATIO in
  {| it_data := realloc_data (it_data iter) capacity; it_capacity := capacity;
     it_size := it_size iter; it_current := it_current iter |}.

(** add a new value into the iterator. Resize memory if full *)
Definition _iterator_push (iter : kdtree_iterator) (value : size_t) : option kdtree_iterator :=
  let iter := if it_size iter =? it_capacity iter then _iterator_grow iter else iter in
  data ← store (it_data iter) (it_size iter) (fun _ => value);
  Some {| it_data := data; it_capacity := it_capacity iter;
          it_size := it_size iter + 1; it_current := it_current iter |}.

(** returns the next entry in the iteration, or KDTREE_END if the end is reached *)
Definition kdtree_iterator_get_next (iter : kdtree_iterator) : option (size_t * kdtree_iterator) :=
  if it_current iter =? it_size iter then Some (KDTREE_END, iter)
  else
    v ← cell (it_data iter) (it_current iter);
    Some (v, {| it_data := it_data iter; it_capacity := it_capacity iter;
                it_size := it_size iter; it_current := it_current iter + 1 |}).

(** rewind the iterator *)
Definition kdtree_iterator_rewind (iter : kdtree_iterator) : kdtree_iterator :=
  {| it_data := it_data iter; it_capacity := it_capacity iter;
     it_size := it_size iter; it_current := 0 |}.

(** sort entries within the iterator *)
Definition kdtree_iterator_sort (iter : kdtree_iterator) : kdtree_iterator :=
  {| it_data := splice (it_data iter) 0 (it_size iter)
                  (qsort cmp_size_t (slice (it_data iter) 0 (it_size iter)));
     it_capacity := it_capacity iter; it_size := it_size iter;
     it_current := it_current iter |}.

(** ** Range search *)

(** returns true if point is within search space *)
Definition _point_in_search_space (point : data_point) (search_space : space) : bool :=
  dle (pt_x point) (b_max (dim search_space DIM_X)) &&
  dge (pt_x point) (b_min (dim search_space DIM_X)) &&
  dle (pt_y point) (b_max (dim search_space DIM_Y)) &&
  dge (pt_y point) (b_min (dim search_space DIM_Y)) &&
  dle (pt_z point) (b_max (dim search_space DIM_Z)) &&
  dge (pt_z point) (b_min (dim search_space DIM_Z)).

(** returns true if domain is completely enclosed within search space *)
Definition _completely_enclosed (search_space domain : space) : bool :=
  dle (b_min (dim domain DIM_X)) (b_max (dim search_space DIM_X)) &&
  dge (b_min (dim domain DIM_X)) (b_min (dim search_space DIM_X)) &&
  dle (b_max (dim domain DIM_X)) (b_max (dim search_space DIM_X)) &&
  dge (b_max (dim domain DIM_X)) (b_min (dim search_space DIM_X)) &&
  dle (b_min (dim domain DIM_Y)) (b_max (dim search_space DIM_Y)) &&
  dge (b_min (dim domain DIM_Y)) (b_min (dim search_space DIM_Y)) &&
  dle (b_max (dim domain DIM_Y)) (b_max (dim search_space DIM_Y)) &&
  dge (b_max (dim domain DIM_Y)) (b_min (dim search_space DIM_Y)) &&
  dle (b_min (dim domain DIM_Z)) (b_max (dim search_space DIM_Z)) &&
  dge (b_min (dim domain DIM_Z)) (b_min (dim search_space DIM_Z)) &&
  dle (b_max (dim domain DIM_Z)) (b_max (dim search_space DIM_Z)) &&
  dge (b_max (dim domain DIM_Z)) (b_min (dim search_space DIM_Z)).

(** It is easier to determine if two cubes are completely separate, so we do
    just that and negate the return value. *)
Definition _search_area_intersects (search_space domain : space) : bool :=
  negb (dgt (b_min (dim search_space DIM_X)) (b_max (dim domain DIM_X)) ||
        dlt (b_max (dim search_space DIM_X)) (b_min (dim domain DIM_X)) ||
        dgt (b_min (dim search_space DIM_Y)) (b_max (dim domain DIM_Y)) ||
        dlt (b_max (dim search_space DIM_Y)) (b_min (dim domain DIM_Y)) ||
        dgt (b_min (dim search_space DIM_Z)) (b_max (dim domain DIM_Z)) ||
        dlt (b_max (dim search_space DIM_Z)) (b_min (dim domain DIM_Z))).

(** add all leaf nodes under a branch to the iterator *)
Fixpoint _report_all_leaves (fuel : nat) (tree : kdtree) (node : ptr)
    (iter : kdtree_iterator) : option kdtree_iterator :=
  match fuel with
  | O => None
  | S fuel =>
    p ← node;
    nd ← cell (node_data tree) p;
    if _is_leaf_node nd then
      point ← cell (points tree) (nd_idx nd);
      _iterator_push iter (pt_idx point)
    else
      iter ← _report_all_leaves fuel tree (nd_left nd) iter;
      _report_all_leaves fuel tree (nd_right nd) iter
  end.

(** convenience function to explore a sub-domain; [search] is
    [_search_kdtree], its recursion bound already supplied. *)
Definition _explore_branch
    (search : kdtree -> ptr -> size_t -> space -> space -> kdtree_iterator ->
              option kdtree_iterator)
    (tree : kdtree) (node : ptr) (depth : size_t) (search_space domain : space)
    (iter : kdtree_iterator) : option kdtree_iterator :=
  p ← node;
  nd ← cell (node_data tree) p;
  if _is_leaf_node nd then
    point ← cell (points tree) (nd_idx nd);
    if _point_in_search_space point search_space
    then _iterator_push iter (pt_idx point)
    else Some iter
  else if _search_area_intersects search_space domain then
    if _completely_enclosed search_space domain
    then _report_all_leaves (N.to_nat (max_nodes tree)) tree node iter
    else search tree node (depth + 1) search_space domain iter
  else Some iter.

(** Recursively search the tree for points within a search space.  Results
    are appended to the iterator object. *)
Fixpoint _search_kdtree (fuel : nat) (tree : kdtree) (root : ptr) (depth : size_t)
    (search_space domain : space) (iter : kdtree_iterator) : option kdtree_iterator :=
  match fuel with
  | O => None
  | S fuel =>
    let axis := axis_of depth in
    r ← root;
    nd ← cell (node_data tree) r;
    (* initialise boundaries for new domain *)
    let new_domain := domain in
    (* explore left branch *)
    let new_domain := set_max new_domain axis (nd_split nd) in
    iter ← _explore_branch (_search_kdtree fuel) tree (nd_left nd) depth
             search_space new_domain iter;
    (* explore right branch *)
    let new_domain := set_max new_domain axis (b_max (dim domain axis)) in
    let new_domain := set_min new_domain axis (nd_split nd) in
    _explore_branch (_search_kdtree fuel) tree (nd_right nd) depth
      search_space new_domain iter
  end.

(** search tree for points that fall within the 3d box defined by
    x_min, x_max, y_min, y_max, z_min, z_max. *)
Definition search_space_of (x_min x_max y_min y_max z_min z_max : double) : space :=
  {| dim_X := {| b_min := x_min; b_max := x_max |};
     dim_Y := {| b_min := y_min; b_max := y_max |};
     dim_Z := {| b_min := z_min; b_max := z_max |} |}.

(** set initial domain to infinite space *)
Definition initial_domain : space :=
  {| dim_X := {| b_min := (- DBL_MAX)%float; b_max := DBL_MAX |};
     dim_Y := {| b_min := (- DBL_MAX)%float; b_max := DBL_MAX |};
     dim_Z := {| b_min := (- DBL_MAX)%float; b_max := DBL_MAX |} |}.

Definition kdtree_search_space (tree : option kdtree) (iter_ptr : option kdtree_iterator)
    (x_min x_max y_min y_max z_min z_max : double) : option kdtree_iterator :=
  (* sanity checks *)
  tree ← tree;
  (* The tree should have at least one point *)
  r ← root tree;
  nd ← cell (node_data tree) r;
  if _is_leaf_node nd then None
  else
    (* Either create a new iterator or reset an exisiting one *)
    let iter := match iter_ptr with
                | Some iter => _iterator_reset iter
                | None => _iterator_new
                end in
    let search_space := search_space_of x_min x_max y_min y_max z_min z_max in
    let domain := initial_domain in
    (* search tree *)
    _search_kdtree (N.to_nat (max_nodes tree)) tree (root tree) 0
      search_space domain iter.

(** search tree for points that fall within the 3d cube defined by
    x, y, z, apothem where apothem is the distance from the point
    to each side of the cube. *)
Definition kdtree_search (tree : option kdtree) (iter_ptr : option kdtree_iterator)
    (x y z apothem : double) : option kdtree_iterator :=
  if dge apothem 0%float then
    kdtree_search_space tree iter_ptr
      (x - apothem)%float (x + apothem)%float
      (y - apothem)%float (y + apothem)%float
      (z - apothem)%float (z + apothem)%float
  else None.

(** Deallocates a tree object referenced by tree_ptr and sets the ptr to NULL *)
Definition kdtree_delete (tree_ptr : option kdtree) : option kdtree := None.

(** deallocate memory associated with an iterator; sets the ptr to NULL *)
Definition kdtree_iterator_delete (iter_ptr : option kdtree_iterator)
    : option kdtree_iterator := None.

End Program.

(** ** The search under [_DEBUG_MODE]

    With [_DEBUG_MODE] defined, [_is_leaf_node] is the macro
    [#define _is_leaf_node(node) (node->left == NULL)], and the routines of
    the search test their nodes with it. *)
Section DebugMode.
Context {libc : Libc}.

Definition _is_leaf_node_debug (node : tree_node) : bool :=
  match nd_left node with
  | None => true
  | Some _ => false
  end.

Fixpoint _report_all_leaves_debug (fuel : nat) (tree : kdtree) (node : ptr)
    (iter : kdtree_iterator) : option kdtree_iterator :=
  match fuel with
  | O => None
  | S fuel =>
    p ← node;
    nd ← cell (node_data tree) p;
    if _is_leaf_node_debug nd then
      point ← cell (points tree) (nd_idx nd);
      _iterator_push iter (pt_idx point)
    else
      iter ← _report_all_leaves_debug fuel tree (nd_left nd) iter;
      _report_all_leaves_debug fuel tree (nd_right nd) iter
  end.

Definition _explore_branch_debug
    (search : kdtree -> ptr -> size_t -> space -> space -> kdtree_iterator ->
              option kdtree_iterator)
    (tree : kdtree) (node : ptr) (depth : size_t) (search_space domain : space)
    (iter : kdtree_iterator) : option kdtree_iterator :=
  p ← node;
  nd ← cell (node_data tree) p;
  if _is_leaf_node_debug nd then
    point ← cell (points tree) (nd_idx nd);
    if _point_in_search_space point search_space
    then _iterator_push iter (pt_idx point)
    else Some iter
  else if _search_area_intersects search_space domain then
    if _completely_enclosed search_space domain
    then _report_all_leaves_debug (N.to_nat (max_nodes tree)) tree node iter
    else search tree node (depth + 1) search_space domain iter
  else Some iter.

Fixpoint _search_kdtree_debug (fuel : nat) (tree : kdtree) (root : ptr) (depth : size_t)
    (search_space domain : space) (iter : kdtree_iterator) : option kdtree_iterator :=
  match fuel with
  | O => None
  | S fuel =>
    let axis := axis_of depth in
    r ← root;
    nd ← cell (node_data tree) r;
    let new_domain := domain in
    let new_domain := set_max new_domain axis (nd_split nd) in
    iter ← _explore_branch_debug (_search_kdtree_debug fuel) tree (nd_left nd) depth
             search_space new_domain iter;
    let new_domain := set_max new_domain axis (b_max (dim domain axis)) in
    let new_domain := set_min new_domain axis (nd_split nd) in
    _explore_branch_debug (_search_kdtree_debug fuel) tree (nd_right nd) depth
      search_space new_domain iter
  end.

Definition kdtree_search_space_debug (tree : option kdtree)
    (iter_ptr : option kdtree_iterator)
    (x_min x_max y_min y_max z_min z_max : double) : option kdtree_iterator :=
  tree ← tree;
  r ← root tree;
  nd ← cell (node_data tree) r;
  if _is_leaf_node_debug nd then None
  else
    let iter := match iter_ptr with
                | Some iter => _iterator_reset iter
                | None => _iterator_new
                end in
    let search_space := search_space_of x_min x_max y_min y_max z_min z_max in
    let domain := initial_domain in
    _search_kdtree_debug (N.to_nat (max_nodes tree)) tree (root tree) 0
      search_space domain iter.

End DebugMode.

(** ** The build in the caller's memory

    [kdtree_build] once more, this time as the C code runs it: on a memory
    of blocks in which the caller's three arrays lie next to the objects of
    the tree, with every read and write of the source a load from or a
    store to a block.  A pointer to an object is the address of its block;
    [malloc] returns the address of a new block and [free] gives a block
    up.  The point cache and the arena are reached through the pointers
    that the tree record holds. *)

(** [struct kdtree] as it lies in memory. *)
Record kdtree_obj := {
  k_count : size_t;
  k_max_nodes : size_t;
  k_next_node : size_t;
  k_points : N;        (* struct data_point *points *)
  k_node_data : N;     (* struct tree_node *node_data *)
  k_root : ptr
}.

Inductive object :=
| ODoubles (a : list double)
| OPoints (a : list data_point)
| ONodes (a : list tree_node)
| OTree (o : kdtree_obj).

(** The blocks by address; a block that was freed holds nothing. *)
Abbreviation heap := (list (option object)).

(** Computations on the memory; [None] where the C code stops. *)
Definition M (A : Type) : Type := heap -> option (A * heap).

#[global] Instance M_ret : MRet M := fun A a h => Some (a, h).
#[global] Instance M_bind : MBind M := fun A B k m h =>
  match m h with
  | Some (a, h') => k a h'
  | None => None
  end.

Definition stop {A} : M A := fun _ => None.
Definition lift {A} (x : option A) : M A := fun h => a ← x; Some (a, h).
Definition affirm (c : bool) : M unit := if c then mret tt else stop.

Definition heap_load (b : N) : M object := fun h =>
  match cell h b with
  | Some (Some o) => Some (o, h)
  | _ => None
  end.
Definition heap_store (b : N) (o : object) : M unit := fun h =>
  match cell h b with
  | Some (Some _) => Some (tt, <[N.to_nat b := Some o]> h)
  | _ => None
  end.
Definition malloc (o : object) : M N := fun h =>
  Some (N.of_nat (length h), h ++ [Some o]).
Definition free (b : N) : M unit := fun h =>
  match cell h b with
  | Some (Some _) => Some (tt, <[N.to_nat b := None]> h)
  | _ => None
  end.

(** Loads through a pointer of a given type. *)
Definition load_doubles (b : N) : M (list double) :=
  o ← heap_load b; match o with ODoubles a => mret a | _ => stop end.
Definition load_points (b : N) : M (list data_point) :=
  o ← heap_load b; match o with OPoints a => mret a | _ => stop end.
Definition load_nodes (b : N) : M (list tree_node) :=
  o ← heap_load b; match o with ONodes a => mret a | _ => stop end.
Definition load_tree (b : N) : M kdtree_obj :=
  o ← heap_load b; match o with OTree t => mret t | _ => stop end.

(** Field updates of [struct kdtree] and of [struct data_point]. *)
Definition set_k_count (o : kdtree_obj) (v : size_t) : kdtree_obj :=
  {| k_count := v; k_max_nodes := k_max_nodes o; k_next_node := k_next_node o;
     k_points := k_points o; k_node_data := k_node_data o; k_root := k_root o |}.
Definition set_k_max_nodes (o : kdtree_obj) (v : size_t) : kdtree_obj :=
  {| k_count := k_count o; k_max_nodes := v; k_next_node := k_next_node o;
     k_points := k_points o; k_node_data := k_node_data o; k_root := k_root o |}.
Definition set_k_next_node (o : kdtree_obj) (v : size_t) : kdtree_obj :=
  {| k_count := k_count o; k_max_nodes := k_max_nodes o; k_next_node := v;
     k_points := k_points o; k_node_data := k_node_data o; k_root := k_root o |}.
Definition set_k_points (o : kdtree_obj) (v : N) : kdtree_obj :=
  {| k_count := k_count o; k_max_nodes := k_max_nodes o; k_next_node := k_next_node o;
     k_points := v; k_node_data := k_node_data o; k_root := k_root o |}.
Definition set_k_node_data (o : kdtree_obj) (v : N) : kdtree_obj :=
  {| k_count := k_count o; k_max_nodes := k_max_nodes o; k_next_node := k_next_node o;
     k_points := k_points o; k_node_data := v; k_root := k_root o |}.
Definition set_k_root (o : kdtree_obj) (v : ptr) : kdtree_obj :=
  {| k_count := k_count o; k_max_nodes := k_max_nodes o; k_next_node := k_next_node o;
     k_points := k_points o; k_node_data := k_node_data o; k_root := v |}.

Definition set_pt_idx (p : data_point) (v : size_t) : data_point :=
  {| pt_x := pt_x p; pt_y := pt_y p; pt_z := pt_z p; pt_idx := v |}.
Definition set_pt_x (p : data_point) (v : double) : data_point :=
  {| pt_x := v; pt_y := pt_y p; pt_z := pt_z p; pt_idx := pt_idx p |}.
Definition set_pt_y (p : data_point) (v : double) : data_point :=
  {| pt_x := pt_x p; pt_y := v; pt_z := pt_z p; pt_idx := pt_idx p |}.
Definition set_pt_z (p : data_point) (v : double) : data_point :=
  {| pt_x := pt_x p; pt_y := pt_y p; pt_z := v; pt_idx := pt_idx p |}.

Module InMemory.
Section Program.
Context {libc : Libc}.

(** [x[i]] *)
Definition read_double (x : N) (i : size_t) : M double :=
  a ← load_doubles x; lift (cell a i).

(** [tree->field = v] *)
Definition tree_write (tree : N) (f : kdtree_obj -> kdtree_obj) : M unit :=
  o ← load_tree tree; heap_store tree (OTree (f o)).

(** [tree->points[i]], read and written *)
Definition point_read (tree : N) (i : size_t) : M data_point :=
  o ← load_tree tree; a ← load_points (k_points o); lift (cell a i).
Definition point_write (tree : N) (i : size_t) (f : data_point -> data_point) : M unit :=
  o ← load_tree tree;
  a ← load_points (k_points o);
  a ← lift (store a i f);
  heap_store (k_points o) (OPoints a).

(** A write through a node pointer, which points into [tree->node_data]. *)
Definition node_write (tree : N) (node : N) (f : tree_node -> tree_node) : M unit :=
  o ← load_tree tree;
  a ← load_nodes (k_node_data o);
  a ← lift (store a node f);
  heap_store (k_node_data o) (ONodes a).

(** get pointer to the next available node within the node data cache *)
Definition _next_node (tree : N) : M N :=
  o ← load_tree tree;
  _ ← affirm (k_next_node o <? k_max_nodes o);
  _ ← heap_store tree (OTree (set_k_next_node o (k_next_node o + 1)));
  mret (k_next_node o).

(** return a branch node *)
Definition _get_branch_node (tree : N) (split : double) : M N :=
  node ← _next_node tree;
  _ ← node_write tree node (fun nd => set_split nd split);
  mret node.

(** return a leaf node. Holds the index of the actual data point *)
Definition _get_leaf_node (tree : N) (offset : size_t) : M N :=
  node ← _next_node tree;
  _ ← node_write tree node (fun nd => set_left nd NULL);
  _ ← node_write tree node (fun nd => set_right nd NULL);
  _ ← node_write tree node (fun nd =>
        {| nd_left := nd_left nd; nd_right := nd_right nd; nd_split := nd_split nd;
           nd_idx := offset |});
  mret node.

(** [qsort(tree->points + idx_from, count, sizeof(struct data_point), cmp)] *)
Definition sort_range (tree : N) (cmp : data_point -> data_point -> Z)
    (idx_from n : size_t) : M unit :=
  o ← load_tree tree;
  a ← load_points (k_points o);
  _ ← affirm (idx_from + n <=? N.of_nat (length a));
  heap_store (k_points o) (OPoints (splice a idx_from n (qsort cmp (slice a idx_from n)))).

(** internal routine to recursively build the kdtree *)
Fixpoint _build_kdtree (fuel : nat) (idx_from idx_to depth : size_t) (tree : N) : M N :=
  match fuel with
  | O => stop
  | S fuel =>
    let n := idx_to - idx_from + 1 in
    let mid := idx_from + (idx_to - idx_from) / 2 in
    let axis := axis_of depth in
    (* if there is only one point, return a leaf node *)
    if n =? 1 then _get_leaf_node tree idx_from
    else
      (* sort the points within this group to determine the median point *)
      _ ← sort_range tree (func_select axis) idx_from n;
      (* determine point where axis will be split *)
      point ← point_read tree mid;
      let split := coord axis point in
      (* recursively build a tree for the left and right planes *)
      node ← _get_branch_node tree split;
      l ← _build_kdtree fuel idx_from mid (depth + 1) tree;
      _ ← node_write tree node (fun nd => set_left nd (Some l));
      r ← _build_kdtree fuel (mid + 1) idx_to (depth + 1) tree;
      _ ← node_write tree node (fun nd => set_right nd (Some r));
      mret node
  end.

(** Deallocates a tree object referenced by tree_ptr and sets the ptr to
    NULL; the pointer is passed in and handed back. *)
Definition kdtree_delete (tree_ptr : option N) : M (option N) :=
  match tree_ptr with
  | None => mret None
  | Some tree =>
      o ← load_tree tree;
      _ ← free (k_points o);
      _ ← free (k_node_data o);
      _ ← free tree;
      mret None
  end.

(** The body of the caching loop of [kdtree_build], for one [i]. *)
Definition cache_point (x y z : N) (i : size_t) (tree : N) : M unit :=
  _ ← point_write tree i (fun p => set_pt_idx p i);
  xi ← read_double x i;
  _ ← point_write tree i (fun p => set_pt_x p xi);
  yi ← read_double y i;
  _ ← point_write tree i (fun p => set_pt_y p yi);
  zi ← read_double z i;
  point_write tree i (fun p => set_pt_z p zi).

(** [for (i = ...; i < count; i++)], with [k] iterations left. *)
Fixpoint cache_loop (k : nat) (x y z : N) (i : size_t) (tree : N) : M unit :=
  match k with
  | O => mret tt
  | S k => _ ← cache_point x y z i tree; cache_loop k x y z (i + 1) tree
  end.

(** The object [malloc(sizeof(kdtree))] returns: the fields as they happen
    to be, the two pointers dangling. *)
Definition fresh_kdtree : kdtree_obj :=
  {| k_count := count malloc_kdtree; k_max_nodes := max_nodes malloc_kdtree;
     k_next_node := next_node malloc_kdtree; k_points := 0; k_node_data := 0;
     k_root := root malloc_kdtree |}.

(** Build a 3D k-d tree based on the points stored in x, y, z arrays (with
    count specifying the number of points); [tree_ptr] holds [*tree_ptr]
    on entry, the result is [*tree_ptr] on return. *)
Definition kdtree_build (x y z : N) (n : size_t) (tree_ptr : option N) : M (option N) :=
  (* sanity check *)
  _ ← affirm (1 <? n);
  (* Reallocate object if ptr == NULL or if count does not match *)
  keep ← match tree_ptr with
          | None => mret false
          | Some tree => o ← load_tree tree; mret (k_count o =? n)
          end;
  tree ← (if keep : bool then lift tree_ptr
          else
            (* delete prev obj *)
            _ ← match tree_ptr with
                | Some _ => kdtree_delete tree_ptr
                | None => mret None
                end;
            (* allocate new object and update user's reference *)
            tree ← malloc (OTree fresh_kdtree);
            (* initialise values and memory *)
            _ ← tree_write tree (fun o => set_k_count o n);
            _ ← tree_write tree (fun o => set_k_max_nodes o (((n - 1) * 2) + 1));
            points ← malloc (OPoints (malloc_points n));
            _ ← tree_write tree (fun o => set_k_points o points);
            o ← load_tree tree;
            node_data ← malloc (ONodes (malloc_nodes (k_max_nodes o)));
            _ ← tree_write tree (fun o => set_k_node_data o node_data);
            mret tree);
  (* reset control values *)
  _ ← tree_write tree (fun o => set_k_next_node o 0);
  (* cache coordinates of each point and map to the idx of the point *)
  _ ← cache_loop (N.to_nat n) x y z 0 tree;
  (* build tree and store ptr to root node *)
  node ← _build_kdtree (N.to_nat n) 0 (n - 1) 0 tree;
  _ ← tree_write tree (fun o => set_k_root o (Some node));
  mret (Some tree).

End Program.
End InMemory.

(** * Specification

    The notions the statements below are written in: the k-d tree an arena
    holds, what the specification calls [build_subtree], the point set of a
    call, and well-formed handles. *)

(** ** The tree in the arena *)

(** A k-d tree: a leaf with its cached point, or a branch with its split
    value and two subtrees. *)
Inductive ktree :=
| KLeaf (p : data_point)
| KBranch (split : double) (l r : ktree).

(** The points of the leaves, from left to right. *)
Fixpoint leaves (T : ktree) : list data_point :=
  match T with
  | KLeaf p => [p]
  | KBranch _ l r => leaves l ++ leaves r
  end.

Fixpoint nleaves (T : ktree) : N :=
  match T with
  | KLeaf _ => 1
  | KBranch _ l r => nleaves l + nleaves r
  end.

Fixpoint nbranches (T : ktree) : N :=
  match T with
  | KLeaf _ => 0
  | KBranch _ l r => 1 + nbranches l + nbranches r
  end.

Definition nnodes (T : ktree) : N := nleaves T + nbranches T.

(** The longest path of [T], counted in nodes. *)
Fixpoint height (T : ktree) : nat :=
  match T with
  | KLeaf _ => 1
  | KBranch _ l r => S (Nat.max (height l) (height r))
  end.

(** [repr nodes pts k off T]: the slots of the arena [nodes] from [k] on hold
    [T] in the order the builder allocates them (a branch, its left subtree,
    its right subtree), and the leaves of [T] are the cells of the point
    cache [pts] from [off] on. *)
Fixpoint repr (nodes : list tree_node) (pts : list data_point) (k off : N) (T : ktree)
    : Prop :=
  match T with
  | KLeaf p =>
      exists nd, cell nodes k = Some nd /\
        nd_left nd = NULL /\ nd_right nd = NULL /\ nd_idx nd = off /\
        cell pts off = Some p
  | KBranch split l r =>
      exists nd, cell nodes k = Some nd /\
        nd_left nd = Some (k + 1) /\ nd_right nd = Some (k + 1 + nnodes l) /\
        nd_split nd = split /\
        repr nodes pts (k + 1) off l /\
        repr nodes pts (k + 1 + nnodes l) (off + nleaves l) r
  end.

(** The k-d order: at depth [depth] the points of the left subtree lie at or
    below the split value on the axis of that depth, those of the right
    subtree at or above it. *)
Fixpoint kd_ok (depth : N) (T : ktree) : Prop :=
  match T with
  | KLeaf _ => True
  | KBranch split l r =>
      Forall (fun p => dle (coord (axis_of depth) p) split = true) (leaves l) /\
      Forall (fun p => dle split (coord (axis_of depth) p) = true) (leaves r) /\
      kd_ok (depth + 1) l /\ kd_ok (depth + 1) r
  end.

(** What a run of the builder over [[idx_from, idx_to]] leaves behind: the
    tree [T] of the specification in the arena from the old cursor on, its
    leaves in the sub-range of the point cache, and everything else as it
    was. *)
Definition built (t t' : kdtree) (idx_from idx_to : N) (T : ktree) : Prop :=
  count t' = count t /\ max_nodes t' = max_nodes t /\ root t' = root t /\
  next_node t' = next_node t + nnodes T /\
  length (points t') = length (points t) /\
  length (node_data t') = length (node_data t) /\
  (forall j, ~ (idx_from <= j <= idx_to) -> cell (points t') j = cell (points t) j) /\
  (forall i, ~ (next_node t <= i < next_node t + nnodes T) ->
     cell (node_data t') i = cell (node_data t) i) /\
  repr (node_data t') (points t') (next_node t) idx_from T.

(** ** [build_subtree] of the specification

    Over the points [seg] of a sub-range: one point gives a leaf; otherwise
    the points are sorted on the axis of the depth, the point at the lower
    median gives the split value, and the two halves are built one level
    deeper. *)
Section BuildSubtree.
Context {libc : Libc}.

Fixpoint build_subtree (fuel : nat) (depth : N) (seg : list data_point) : option ktree :=
  match fuel with
  | O => None
  | S fuel =>
    match seg with
    | [] => None
    | [p] => Some (KLeaf p)
    | _ =>
      let axis := axis_of depth in
      let sorted := qsort (func_select axis) seg in
      let mid := ((length seg - 1) / 2)%nat in
      point ← sorted !! mid;
      l ← build_subtree fuel (depth + 1) (take (S mid) sorted);
      r ← build_subtree fuel (depth + 1) (drop (S mid) sorted);
      Some (KBranch (coord axis point) l r)
    end
  end.
End BuildSubtree.

(** ** What a search reports

    [explored] follows [_explore_branch] and [reported] follows
    [_search_kdtree] over the tree the arena holds: the indices they push,
    in the order of the traversal.  [deeper] is what the recursive search of
    the subtree reports. *)
Definition explored (search_space domain : space) (T : ktree) (deeper : list size_t)
    : list size_t :=
  match T with
  | KLeaf p => if _point_in_search_space p search_space then [pt_idx p] else []
  | KBranch _ _ _ =>
      if _search_area_intersects search_space domain then
        if _completely_enclosed search_space domain
        then pt_idx <$> leaves T
        else deeper
      else []
  end.

(** The domains [_search_kdtree] hands to the two children of a branch. *)
Definition left_domain (domain : space) (axis : DIMENSIONS) (split : double) : space :=
  set_max domain axis split.
Definition right_domain (domain : space) (axis : DIMENSIONS) (split : double) : space :=
  set_min (set_max (set_max domain axis split) axis (b_max (dim domain axis))) axis split.

Fixpoint reported (depth : N) (search_space domain : space) (T : ktree) : list size_t :=
  match T with
  | KLeaf _ => []
  | KBranch split l r =>
      let axis := axis_of depth in
      let dl := left_domain domain axis split in
      let dr := right_domain domain axis split in
      explored search_space dl l (reported (depth + 1) search_space dl l) ++
      explored search_space dr r (reported (depth + 1) search_space dr r)
  end.

Definition is_branch (T : ktree) : Prop :=
  match T with KLeaf _ => False | KBranch _ _ _ => True end.

(** The points of [l] inside the search space, by index. *)
Definition inside (search_space : space) (l : list data_point) : list size_t :=
  pt_idx <$> filter (fun p => _point_in_search_space p search_space = true) l.

(** ** Point sets, boxes and handles *)

(** The point the caller's arrays hold at index [i]. *)
Definition point_at (x y z : list double) (i : size_t) : option data_point :=
  xi ← cell x i;
  yi ← cell y i;
  zi ← cell z i;
  Some {| pt_x := xi; pt_y := yi; pt_z := zi; pt_idx := i |}.

(** The indices [0 .. n-1]. *)
Definition indices (n : size_t) : list size_t := N.of_nat <$> seq 0 (N.to_nat n).

(** The point set of a call to [kdtree_build]: the first [n] points. *)
Definition point_set (x y z : list double) (n : size_t) : list data_point :=
  omap (point_at x y z) (indices n).

(** The arrays hold [n] points at least. *)
Definition arrays_hold (x y z : list double) (n : size_t) : Prop :=
  n <= N.of_nat (length x) /\ n <= N.of_nat (length y) /\ n <= N.of_nat (length z).

Definition finite_point (p : data_point) : Prop :=
  finite_double (pt_x p) = true /\ finite_double (pt_y p) = true /\
  finite_double (pt_z p) = true.

#[global] Instance finite_point_dec p : Decision (finite_point p).
Proof. unfold finite_point. apply _. Defined.

(** No coordinate of [p] is a NaN. *)
Definition ordered_point (p : data_point) : Prop :=
  dle (pt_x p) (pt_x p) = true /\ dle (pt_y p) (pt_y p) = true /\
  dle (pt_z p) (pt_z p) = true.

(** [p] lies within [domain] on all three axes. *)
Definition in_space (domain : space) (p : data_point) : Prop :=
  forall axis, dle (b_min (dim domain axis)) (coord axis p) = true /\
               dle (coord axis p) (b_max (dim domain axis)) = true.

(** A tree handle: [NULL], or a tree whose point cache and arena have the
    sizes [kdtree_build] gives them (every tree it returns has them). *)
Definition tree_wf (t : kdtree) : Prop :=
  N.of_nat (length (points t)) = count t /\
  N.of_nat (length (node_data t)) = max_nodes t /\
  max_nodes t = (count t - 1) * 2 + 1.

Definition handle_ok (tree_ptr : option kdtree) : Prop :=
  match tree_ptr with Some t => tree_wf t | None => True end.

(** ** Iterators *)

(** The entries an iterator holds: the first [size] cells of its buffer. *)
Definition contents (iter : kdtree_iterator) : list size_t :=
  slice (it_data iter) 0 (it_size iter).

(** The buffer has [capacity] cells, of which [size] are in use, and the
    cursor has not passed them. *)
Definition iter_wf (iter : kdtree_iterator) : Prop :=
  N.of_nat (length (it_data iter)) = it_capacity iter /\
  0 < it_capacity iter /\
  it_size iter <= it_capacity iter /\
  it_current iter <= it_size iter.

(** An iterator handle: [NULL], or an iterator. *)
Definition iter_handle_ok (iter_ptr : option kdtree_iterator) : Prop :=
  match iter_ptr with Some iter => iter_wf iter | None => True end.

(** The iterator with its cursor at [c]. *)
Definition set_current (iter : kdtree_iterator) (c : size_t) : kdtree_iterator :=
  {| it_data := it_data iter; it_capacity := it_capacity iter;
     it_size := it_size iter; it_current := c |}.

(** [content[i] = kdtree_iterator_get_next(iter)] for [k] values of [i]
    (the loop of [validate] in run_test.c). *)
Fixpoint get_next_n (k : nat) (iter : kdtree_iterator)
    : option (list size_t * kdtree_iterator) :=
  match k with
  | O => Some ([], iter)
  | S k =>
      '(v, iter) ← kdtree_iterator_get_next iter;
      '(vs, iter) ← get_next_n k iter;
      Some (v :: vs, iter)
  end.

(** [r] is an iterator that holds what [iter] held and then [vs]. *)
Definition appends (r : option kdtree_iterator) (iter : kdtree_iterator)
    (vs : list size_t) : Prop :=
  exists iter', r = Some iter' /\ iter_wf iter' /\
    contents iter' = contents iter ++ vs /\
    it_current iter' = it_current iter.

(** ** Correct searches

    Building the tree of the first [n] points of [x], [y], [z] and searching
    it for a box gives an iterator that holds the indices of the points
    inside the box, each once. *)
Definition search_correct {libc : Libc} (x y z : list double) (n : size_t)
    (tree_ptr : option kdtree) (iter_ptr : option kdtree_iterator)
    (x_min x_max y_min y_max z_min z_max : double) : Prop :=
  exists t iter,
    kdtree_build x y z n tree_ptr = Some t /\
    kdtree_search_space (Some t) iter_ptr x_min x_max y_min y_max z_min z_max
      = Some iter /\
    contents iter ≡ₚ
      inside (search_space_of x_min x_max y_min y_max z_min z_max) (point_set x y z n).

(** ** The calls of a search

    [called t ss routine node depth domain]: the search of [t] for [ss]
    calls [routine] on the arena slot [node] with [depth] and [domain]
    (lines 233, 406, 411 and 384 of kdtree.c). *)
Inductive routine := SEARCH_KDTREE | EXPLORE_BRANCH.


(** [under t node p]: the cached point [p] is referenced by a leaf that the
    pointers of the arena reach from [node]. *)
Inductive under (t : kdtree) : N -> data_point -> Prop :=
| under_leaf node nd p :
    cell (node_data t) node = Some nd -> _is_leaf_node nd = true ->
    cell (points t) (nd_idx nd) = Some p ->
    under t node p
| under_left node nd l p :
    cell (node_data t) node = Some nd -> _is_leaf_node nd = false ->
    nd_left nd = Some l -> under t l p ->
    under t node p
| under_right node nd r p :
    cell (node_data t) node = Some nd -> _is_leaf_node nd = false ->
    nd_right nd = Some r -> under t r p ->
    under t node p.


(** ** The log of a search

    A call of a routine of the search: the routine, the arena slot of the
    node it is passed, its depth and its domain. *)
Definition call : Type := routine * N * N * space.

Section LoggedSearch.
Context {libc : Libc}.

(** [_explore_branch] and [_search_kdtree] as above, each call also writing
    its own arguments to a log behind the iterator.  Nothing else differs:
    dropping the log gives the routines back. *)
Definition _explore_branch_logged
    (search : kdtree -> ptr -> size_t -> space -> space ->
              kdtree_iterator * list call -> option (kdtree_iterator * list call))
    (tree : kdtree) (node : ptr) (depth : size_t) (search_space domain : space)
    (st : kdtree_iterator * list call) : option (kdtree_iterator * list call) :=
  p ← node;
  let log := st.2 ++ [(EXPLORE_BRANCH, p, depth, domain)] in
  nd ← cell (node_data tree) p;
  if _is_leaf_node nd then
    point ← cell (points tree) (nd_idx nd);
    if _point_in_search_space point search_space
    then iter ← _iterator_push st.1 (pt_idx point); Some (iter, log)
    else Some (st.1, log)
  else if _search_area_intersects search_space domain then
    if _completely_enclosed search_space domain
    then iter ← _report_all_leaves (N.to_nat (max_nodes tree)) tree node st.1;
         Some (iter, log)
    else search tree node (depth + 1) search_space domain (st.1, log)
  else Some (st.1, log).

Fixpoint _search_kdtree_logged (fuel : nat) (tree : kdtree) (root : ptr) (depth : size_t)
    (search_space domain : space) (st : kdtree_iterator * list call)
    : option (kdtree_iterator * list call) :=
  match fuel with
  | O => None
  | S fuel =>
    let axis := axis_of depth in
    r ← root;
    let log := st.2 ++ [(SEARCH_KDTREE, r, depth, domain)] in
    nd ← cell (node_data tree) r;
    let new_domain := domain in
    let new_domain := set_max new_domain axis (nd_split nd) in
    st ← _explore_branch_logged (_search_kdtree_logged fuel) tree (nd_left nd) depth
           search_space new_domain (st.1, log);
    let new_domain := set_max new_domain axis (b_max (dim domain axis)) in
    let new_domain := set_min new_domain axis (nd_split nd) in
    _explore_branch_logged (_search_kdtree_logged fuel) tree (nd_right nd) depth
      search_space new_domain st
  end.

Definition kdtree_search_space_logged (tree : option kdtree)
    (iter_ptr : option kdtree_iterator)
    (x_min x_max y_min y_max z_min z_max : double)
    : option (kdtree_iterator * list call) :=
  tree ← tree;
  r ← root tree;
  nd ← cell (node_data tree) r;
  if _is_leaf_node nd then None
  else
    let iter := match iter_ptr with
                | Some iter => _iterator_reset iter
                | None => _iterator_new
                end in
    let search_space := search_space_of x_min x_max y_min y_max z_min z_max in
    let domain := initial_domain in
    _search_kdtree_logged (N.to_nat (max_nodes tree)) tree (root tree) 0
      search_space domain (iter, []).

End LoggedSearch.

(** Every domain in the log bounds the points under the node it was
    passed with. *)
Definition log_domains_bound (t : kdtree) (log : list call) : Prop :=
  forall rt node depth domain p,
    (rt, node, depth, domain) ∈ log -> under t node p -> in_space domain p.


(** ** Nodes of the arena *)



(** ** A C library to run the program with

    Insertion sort for [qsort], and fresh memory filled with one value. *)
Fixpoint ref_insert {A} (cmp : A -> A -> Z) (a : A) (l : list A) : list A :=
  match l with
  | [] => [a]
  | b :: m => if (cmp a b <=? 0)%Z then a :: l else b :: ref_insert cmp a m
  end.

Fixpoint ref_qsort {A} (cmp : A -> A -> Z) (l : list A) : list A :=
  match l with
  | [] => []
  | a :: m => ref_insert cmp a (ref_qsort cmp m)
  end.

Definition ref_point : data_point :=
  {| pt_x := nan; pt_y := nan; pt_z := nan; pt_idx := 0 |}.
Definition ref_node : tree_node :=
  {| nd_left := NULL; nd_right := NULL; nd_split := nan; nd_idx := 0 |}.
Definition ref_kdtree : kdtree :=
  {| count := 0; max_nodes := 0; next_node := 0; points := []; node_data := [];
     root := NULL |}.

(** ** Tactics *)

(** Case analysis on a [spec_float], and the order of its cases. *)
Ltac sf_split a := destruct a as [[]|[]| |[] ? ?].
Ltac sf_order :=
  unfold SFleb, SFltb; simpl; try easy;
  repeat match goal with
  | |- context [PosDef.Pos.compare_cont Eq ?a ?b] =>
      change (PosDef.Pos.compare_cont Eq a b) with (Pos.compare a b)
  end;
  repeat match goal with
  | |- context [Z.compare ?a ?b] => destruct (Z.compare_spec a b); subst
  | |- context [Pos.compare ?a ?b] => destruct (Pos.compare_spec a b); subst
  end; simpl; try easy; try lia.

(** Membership in a list that is written out. *)
Ltac in_list :=
  solve [repeat first [assumption | apply list_elem_of_here | apply list_elem_of_further]].

(** A node that is a leaf and no leaf. *)
Ltac leaf_clash :=
  match goal with
  | H : _is_leaf_node ?nd = true, H' : _is_leaf_node ?nd = false |- _ =>
      rewrite H in H'; discriminate H'
  end.

#[global, refine] Instance ref_libc : Libc := {|
  qsort := @ref_qsort;
  malloc_kdtree := ref_kdtree;
  malloc_points n := replicate (N.to_nat n) ref_point;
  malloc_nodes n := replicate (N.to_nat n) ref_node;
  malloc_data n := replicate (N.to_nat n) 0
|}.
Proof.
  - (* the result is a permutation *)
    intros A cmp l.
    assert (forall a m, ref_insert cmp a m ≡ₚ a :: m) as Hins.
    { intros a m. induction m as [|b m IH]; simpl; [done|].
      destruct (cmp a b <=? 0)%Z; [done|]. rewrite IH. apply Permutation_swap. }
    induction l as [|a m IH]; simpl; [done|]. now rewrite Hins, IH.
  - (* the result is in ascending order *)
    intros A cmp.
    assert (forall a m, ref_insert cmp a m ≡ₚ a :: m) as Hins.
    { intros a m. induction m as [|b m IH]; simpl; [done|].
      destruct (cmp a b <=? 0)%Z; [done|]. rewrite IH. apply Permutation_swap. }
    assert (forall m, ref_qsort cmp m ≡ₚ m) as Hperm.
    { intros m. induction m as [|a m IH]; simpl; [done|]. now rewrite Hins, IH. }
    assert (forall l l' : list A, (forall x, x ∈ l' -> x ∈ l) ->
              cmp_consistent cmp l -> cmp_consistent cmp l') as Hincl.
    { intros l l' Hin [Htot Htrans]. split.
      - intros x y Hx Hy. apply Htot; now apply Hin.
      - intros x y w Hx Hy Hw. apply Htrans; now apply Hin. }
    assert (forall a m, cmp_consistent cmp (a :: m) ->
              StronglySorted (fun a b => (cmp a b <= 0)%Z) m ->
              StronglySorted (fun a b => (cmp a b <= 0)%Z) (ref_insert cmp a m)) as Hsort.
    { intros a m. induction m as [|b m IH]; intros Hcons Hs; simpl.
      - repeat constructor.
      - pose proof Hcons as [Htot Htrans].
        apply StronglySorted_cons in Hs as [Hb Hm].
        destruct (Z.leb_spec (cmp a b) 0) as [Hab|Hab].
        + apply StronglySorted_cons. split; [|now apply StronglySorted_cons].
          constructor; [done|]. rewrite Forall_forall in Hb |- *. intros c Hc.
          apply (Htrans a b c); [in_list|in_list|in_list|done|auto].
        + apply StronglySorted_cons. split.
          * rewrite Hins. constructor; [|done].
            assert ((cmp a b <= 0)%Z \/ (cmp b a <= 0)%Z) as [?|?]
              by (apply Htot; in_list); [lia|done].
          * apply IH; [|done]. apply (Hincl (a :: b :: m)); [|done].
            intros x. rewrite !elem_of_cons. tauto. }
    intros l. induction l as [|a m IH]; intros Hcons; simpl; [constructor|].
    apply Hsort.
    + apply (Hincl (a :: m)); [|done]. intros x. now rewrite Hperm.
    + apply IH. apply (Hincl (a :: m)); [|done]. intros x. rewrite elem_of_cons. tauto.
  - intros n. apply length_replicate.
  - intros n. apply length_replicate.
  - intros n. apply length_replicate.
Defined.

(** ** The tree in memory *)
(** The record of [t] with its two pointers. *)
Definition obj_of (t : kdtree) (pb nb : N) : kdtree_obj :=
  {| k_count := count t; k_max_nodes := max_nodes t; k_next_node := next_node t;
     k_points := pb; k_node_data := nb; k_root := root t |}.

(** [tree_in h a pb nb t]: the block [a] holds the record of [t], whose
    point cache is the block [pb] and whose arena is the block [nb]. *)
Definition tree_in (h : heap) (a pb nb : N) (t : kdtree) : Prop :=
  cell h a = Some (Some (OTree (obj_of t pb nb))) /\
  cell h pb = Some (Some (OPoints (points t))) /\
  cell h nb = Some (Some (ONodes (node_data t))).

(** What a handle holds: [NULL], or the address of a tree in memory. *)
Definition handle_in (h : heap) (tree_ptr : option N) (tp : option kdtree) : Prop :=
  match tree_ptr, tp with
  | None, None => True
  | Some a, Some t => exists pb nb, tree_in h a pb nb t
  | _, _ => False
  end.

(** The blocks other than [a], [pb], [nb] are as they were. *)
Definition others_kept (a pb nb : N) (h h' : heap) : Prop :=
  length h' = length h /\
  forall b, b <> a -> b <> pb -> b <> nb -> cell h' b = cell h b.

(** The arrays of doubles are as they were. *)
Definition doubles_kept (h h' : heap) : Prop :=
  forall b l, cell h b = Some (Some (ODoubles l)) -> cell h' b = Some (Some (ODoubles l)).

(** [m] runs on [h] to the result [r] and leaves the tree [t'] in the three
    blocks, the other blocks as they were. *)
Definition runs {A} (m : M A) (h : heap) (a pb nb : N) (r : A) (t' : kdtree) : Prop :=
  exists h', m h = Some (r, h') /\ tree_in h' a pb nb t' /\ others_kept a pb nb h h'.

(** ** Pushes and boxes *)

Section PushAll.
Context {libc : Libc}.

(** [_iterator_push] for each value of [vs] in turn. *)
Fixpoint push_all (iter : kdtree_iterator) (vs : list size_t) : option kdtree_iterator :=
  match vs with
  | [] => Some iter
  | v :: vs => iter ← _iterator_push iter v; push_all iter vs
  end.

End PushAll.

(** A box with a NaN among its bounds, or with its lower bound above its
    upper bound on some axis. *)
Definition empty_box (search_space : space) : Prop :=
  exists axis, dle (b_min (dim search_space axis)) (b_max (dim search_space axis)) = false.

(** The leaf tests agree on the nodes of [t]. *)
Definition leaf_tests_agree (t : kdtree) : Prop :=
  forall i nd, cell (node_data t) i = Some nd -> _is_leaf_node_debug nd = _is_leaf_node nd.

(** ** Example inputs *)

(** The eleven points of run_test.c. *)
Definition test_x : list double := [0.5; 0.5; 0.5; 0; 1; 1; 0; 0; 1; 1; 0]%float.
Definition test_y : list double := [0.5; 0.5; 0.5; 0; 0; 1; 1; 0; 0; 1; 1]%float.
Definition test_z : list double := [0.5; 0.5; 0.5; 0; 0; 0; 0; 1; 1; 1; 1]%float.

(** Four points on the x axis, the last one at infinity, and four finite
    ones. *)
Definition far_x : list double := [0; 1; 2; infinity]%float.
Definition near_x : list double := [0; 1; 2; 3]%float.
Definition zero4 : list double := [0; 0; 0; 0]%float.

(** The trees of the example inputs, as the reference library builds them. *)
Definition test_tree : kdtree :=
  Eval vm_compute in default ref_kdtree (kdtree_build test_x test_y test_z 11 None).
Definition far_tree : kdtree :=
  Eval vm_compute in default ref_kdtree (kdtree_build far_x zero4 zero4 4 None).
Definition near_tree : kdtree :=
  Eval vm_compute in default ref_kdtree (kdtree_build near_x zero4 zero4 4 None).

(** The state of a build of the test points after the caching loop. *)
Definition test_cached : kdtree :=
  Eval vm_compute in
    default ref_kdtree
      (cache_points test_x test_y test_z 11 (set_next_node (kdtree_alloc 11 None) 0)).

(** An iterator with three entries, the first of them read. *)
Definition test_iter : kdtree_iterator :=
  {| it_data := [3; 0; 7; 9; 9]; it_capacity := 5; it_size := 3; it_current := 1 |}.

(** An iterator whose buffer is full. *)
Definition full_iter : kdtree_iterator :=
  {| it_data := [4; 2]; it_capacity := 2; it_size := 2; it_current := 0 |}.

(** The point at infinity of [far_x], and two points, the second one at
    infinity. *)
Definition far_point : data_point :=
  {| pt_x := infinity; pt_y := 0; pt_z := 0; pt_idx := 3 |}.
Definition far2_x : list double := [0; infinity]%float.
Definition zero2 : list double := [0; 0]%float.

(** A memory that holds the arrays of run_test.c in its first three
    blocks, and one that holds the four points on the x axis and, behind
    them, the record, the point cache and the arena of [near_tree]. *)
Definition test_heap : heap :=
  [Some (ODoubles test_x); Some (ODoubles test_y); Some (ODoubles test_z)].
Definition near_heap : heap :=
  [Some (ODoubles zero4); Some (ODoubles near_x);
   Some (OTree (obj_of near_tree 3 4));
   Some (OPoints (points near_tree)); Some (ONodes (node_data near_tree))].

(** * Verification *)

(** ** The order of binary64 values

    The comparisons of the kernel's floats are specified on [spec_float];
    the facts below are the ones C's [<=] and [<] share with a total
    preorder once no NaN is involved. *)

Lemma SFleb_trans a b c : SFleb a b = true -> SFleb b c = true -> SFleb a c = true.
Proof. sf_split a; sf_split b; sf_split c; sf_order. Qed.

Lemma SFleb_refl_l a b : SFleb a b = true -> SFleb a a = true.
Proof. sf_split a; sf_split b; sf_order. Qed.

Lemma SFleb_refl_r a b : SFleb a b = true -> SFleb b b = true.
Proof. sf_split a; sf_split b; sf_order. Qed.

Lemma SFleb_total a b :
  SFleb a a = true -> SFleb b b = true -> SFltb b a = false -> SFleb a b = true.
Proof. sf_split a; sf_split b; sf_order. Qed.

Lemma SFleb_not_gt a b : SFleb a b = true -> SFltb b a = false.
Proof. sf_split a; sf_split b; sf_order. Qed.

Lemma SFltb_asym a b : SFltb a b = true -> SFltb b a = false.
Proof. sf_split a; sf_split b; sf_order. Qed.

Lemma SFleb_ltb_disjoint a b c : SFleb a b = true -> SFltb b c = true -> SFleb c a = false.
Proof. sf_split a; sf_split b; sf_split c; sf_order. Qed.

Lemma SFltb_leb_disjoint a b c : SFltb a b = true -> SFleb b c = true -> SFleb c a = false.
Proof. sf_split a; sf_split b; sf_split c; sf_order. Qed.

Lemma dle_trans a b c : dle a b = true -> dle b c = true -> dle a c = true.
Proof. unfold dle. rewrite !leb_spec. apply SFleb_trans. Qed.

Lemma dle_ordered_l a b : dle a b = true -> ordered a.
Proof. unfold ordered, dle. rewrite !leb_spec. apply SFleb_refl_l. Qed.

Lemma dle_ordered_r a b : dle a b = true -> ordered b.
Proof. unfold ordered, dle. rewrite !leb_spec. apply SFleb_refl_r. Qed.

Lemma dle_total a b : ordered a -> ordered b -> dlt b a = false -> dle a b = true.
Proof. unfold ordered, dle, dlt. rewrite !leb_spec, ltb_spec. apply SFleb_total. Qed.

Lemma dle_not_gt a b : dle a b = true -> dlt b a = false.
Proof. unfold dle, dlt. rewrite leb_spec, ltb_spec. apply SFleb_not_gt. Qed.

Lemma dlt_asym a b : dlt a b = true -> dlt b a = false.
Proof. unfold dlt. rewrite !ltb_spec. apply SFltb_asym. Qed.

Lemma dle_dlt_disjoint a b c : dle a b = true -> dlt b c = true -> dle c a = false.
Proof. unfold dle, dlt. rewrite !leb_spec, ltb_spec. apply SFleb_ltb_disjoint. Qed.

Lemma dlt_dle_disjoint a b c : dlt a b = true -> dle b c = true -> dle c a = false.
Proof. unfold dle, dlt. rewrite !leb_spec, ltb_spec. apply SFltb_leb_disjoint. Qed.

Lemma finite_double_ordered a : finite_double a = true -> ordered a.
Proof.
  unfold finite_double. intros H. apply andb_true_iff in H as [_ H].
  exact (dle_ordered_l _ _ H).
Qed.

(** The comparison routines on points whose coordinates are no NaN. *)
Lemma CMP_dlt_le a b : ordered a -> ordered b -> (CMP dlt a b <= 0)%Z <-> dle a b = true.
Proof.
  intros Ha Hb. unfold CMP. split.
  - destruct (dlt b a) eqn:E; [lia|]. intros _. now apply dle_total.
  - intros H. rewrite (dle_not_gt _ _ H). destruct (dlt a b); lia.
Qed.

(** ** Arrays *)

Section Arrays.
Context {A : Type}.
Implicit Types (l seg : list A) (i j from n : N).

Lemma cell_Some_lt l i a : cell l i = Some a -> i < N.of_nat (length l).
Proof. unfold cell. intros H%lookup_lt_Some. lia. Qed.

Lemma cell_lt_Some l i : i < N.of_nat (length l) -> exists a, cell l i = Some a.
Proof.
  unfold cell. intros H.
  destruct (lookup_lt_is_Some_2 l (N.to_nat i)) as [a Ha]; [lia|]. eauto.
Qed.

Lemma cell_ge_None l i : N.of_nat (length l) <= i -> cell l i = None.
Proof. unfold cell. intros H. apply lookup_ge_None. lia. Qed.

Lemma store_Some l i f :
  i < N.of_nat (length l) ->
  exists a l', cell l i = Some a /\ store l i f = Some l' /\
    length l' = length l /\ cell l' i = Some (f a) /\
    (forall j, j <> i -> cell l' j = cell l j).
Proof.
  intros H. destruct (cell_lt_Some l i H) as [a Ha].
  exists a, (<[N.to_nat i := f a]> l). unfold store. rewrite Ha.
  repeat split.
  - apply length_insert.
  - unfold cell. apply list_lookup_insert_eq. lia.
  - intros j Hj. unfold cell. apply list_lookup_insert_ne. lia.
Qed.

Lemma length_slice l from n :
  from + n <= N.of_nat (length l) -> length (slice l from n) = N.to_nat n.
Proof. intros H. unfold slice. rewrite length_take, length_drop. lia. Qed.

Lemma lookup_slice l from n (k : nat) :
  (k < N.to_nat n)%nat -> slice l from n !! k = cell l (from + N.of_nat k).
Proof.
  intros H. unfold slice, cell. rewrite lookup_take_lt by done.
  rewrite lookup_drop. f_equal. lia.
Qed.

Lemma slice_ext l l' from n :
  length l' = length l ->
  (forall j, from <= j < from + n -> cell l' j = cell l j) ->
  slice l' from n = slice l from n.
Proof.
  intros Hlen H. apply list_eq. intros k.
  destruct (decide (k < N.to_nat n)%nat) as [Hk|Hk].
  - rewrite !lookup_slice by done. apply H. lia.
  - unfold slice. rewrite !lookup_take_ge by lia. done.
Qed.

Lemma length_splice l from n seg :
  from + n <= N.of_nat (length l) -> length seg = N.to_nat n ->
  length (splice l from n seg) = length l.
Proof.
  intros H Hs. unfold splice. rewrite !length_app, length_take, length_drop. lia.
Qed.

Lemma cell_splice_in l from n seg j :
  from + n <= N.of_nat (length l) -> length seg = N.to_nat n ->
  from <= j < from + n ->
  cell (splice l from n seg) j = seg !! N.to_nat (j - from).
Proof.
  intros H Hs Hj. unfold splice, cell.
  rewrite lookup_app_r by (rewrite length_take; lia).
  rewrite length_take, lookup_app_l by lia. f_equal. lia.
Qed.

Lemma cell_splice_out l from n seg j :
  from + n <= N.of_nat (length l) -> length seg = N.to_nat n ->
  ~ (from <= j < from + n) ->
  cell (splice l from n seg) j = cell l j.
Proof.
  intros H Hs Hj. unfold splice, cell.
  destruct (decide (j < from)) as [Hlt|Hge].
  - rewrite lookup_app_l by (rewrite length_take; lia).
    apply lookup_take_lt. lia.
  - rewrite lookup_app_r by (rewrite length_take; lia).
    rewrite length_take, lookup_app_r by lia.
    rewrite lookup_drop. f_equal. lia.
Qed.

Lemma slice_splice l from n seg :
  from + n <= N.of_nat (length l) -> length seg = N.to_nat n ->
  slice (splice l from n seg) from n = seg.
Proof.
  intros H Hs. apply list_eq. intros k.
  destruct (decide (k < N.to_nat n)%nat) as [Hk|Hk].
  - rewrite lookup_slice by done. rewrite cell_splice_in by lia. f_equal. lia.
  - unfold slice. rewrite lookup_take_ge by lia.
    symmetry. apply lookup_ge_None. lia.
Qed.

Lemma slice_slice l from n from' n' :
  from' + n' <= n ->
  slice (slice l from n) from' n' = slice l (from + from') n'.
Proof.
  intros H. apply list_eq. intros k.
  destruct (decide (k < N.to_nat n')%nat) as [Hk|Hk].
  - rewrite !lookup_slice by done. unfold cell.
    rewrite N2Nat.inj_add, Nat2N.id.
    rewrite lookup_slice by lia. unfold cell. f_equal. lia.
  - unfold slice at 1 3. rewrite !lookup_take_ge by lia. done.
Qed.

Lemma slice_0 l n : slice l 0 n = take (N.to_nat n) l.
Proof. unfold slice. now rewrite drop_0. Qed.

Lemma slice_all l : slice l 0 (N.of_nat (length l)) = l.
Proof. rewrite slice_0. apply take_ge. lia. Qed.

End Arrays.

(** ** The result iterator *)

Section Iterator.
Context {libc : Libc}.

Lemma _iterator_new_wf : iter_wf _iterator_new.
Proof.
  unfold iter_wf, _iterator_new, KDTREE_ITERATOR_INITIAL_SIZE. simpl.
  rewrite malloc_data_length. lia.
Qed.

Lemma _iterator_reset_wf iter : iter_wf iter -> iter_wf (_iterator_reset iter).
Proof. unfold iter_wf, _iterator_reset. simpl. lia. Qed.

Lemma _iterator_grow_spec iter :
  iter_wf iter -> it_size iter = it_capacity iter ->
  let iter' := _iterator_grow iter in
  N.of_nat (length (it_data iter')) = it_capacity iter' /\
  it_size iter' < it_capacity iter' /\
  it_size iter' = it_size iter /\ it_current iter' = it_current iter /\
  contents iter' = contents iter.
Proof.
  intros (Hlen & Hpos & Hsz & Hcur) Hfull.
  unfold _iterator_grow, realloc_data, KDTREE_ITERATOR_GROWTH_RATIO, contents. simpl.
  rewrite (take_ge (it_data iter)) by lia.
  repeat split; try lia.
  - rewrite length_app, malloc_data_length. lia.
  - rewrite !slice_0. apply take_app_le. lia.
Qed.

Lemma _iterator_push_spec iter value :
  iter_wf iter ->
  exists iter', _iterator_push iter value = Some iter' /\ iter_wf iter' /\
    contents iter' = contents iter ++ [value] /\
    it_current iter' = it_current iter.
Proof.
  intros Hwf. unfold _iterator_push.
  set (it1 := if it_size iter =? it_capacity iter then _iterator_grow iter else iter).
  assert (N.of_nat (length (it_data it1)) = it_capacity it1 /\
          it_size it1 < it_capacity it1 /\
          it_size it1 = it_size iter /\ it_current it1 = it_current iter /\
          contents it1 = contents iter) as (Hlen & Hsz & Hs & Hc & Hcont).
  { subst it1. destruct (N.eqb_spec (it_size iter) (it_capacity iter)) as [E|E].
    - now apply _iterator_grow_spec.
    - destruct Hwf as (? & ? & ? & ?). repeat split; try done; lia. }
  destruct (store_Some (it_data it1) (it_size it1) (fun _ => value))
    as (a & data & _ & Hst & Hlen' & Hcell & _); [lia|].
  rewrite Hst. simpl. eexists. split; [done|].
  destruct Hwf as (_ & _ & _ & Hcur).
  repeat split; simpl; try lia.
  unfold contents in *. simpl. rewrite !slice_0 in *.
  replace (N.to_nat (it_size it1 + 1)) with (S (N.to_nat (it_size it1))) by lia.
  unfold store in Hst. destruct (cell (it_data it1) (it_size it1)); [|done].
  injection Hst as <-.
  erewrite take_S_r by (apply list_lookup_insert_eq; lia).
  rewrite take_insert_ge by lia. now rewrite Hcont.
Qed.

End Iterator.

(** ** Trees *)

Lemma nleaves_length T : nleaves T = N.of_nat (length (leaves T)).
Proof. induction T; simpl; [done|]. rewrite length_app. lia. Qed.

Lemma nleaves_nbranches T : nleaves T = nbranches T + 1.
Proof. induction T; simpl; lia. Qed.

Lemma nnodes_nleaves T : nnodes T = 2 * nleaves T - 1.
Proof. unfold nnodes. rewrite (nleaves_nbranches T). lia. Qed.

Lemma nleaves_pos T : 0 < nleaves T.
Proof. rewrite nleaves_nbranches. lia. Qed.

Lemma nnodes_branch split l r : nnodes (KBranch split l r) = 1 + nnodes l + nnodes r.
Proof. unfold nnodes. simpl. lia. Qed.

Lemma height_pos T : (0 < height T)%nat.
Proof. destruct T; simpl; lia. Qed.

Lemma height_le_nleaves T : (height T <= N.to_nat (nleaves T))%nat.
Proof.
  induction T as [p|split l IHl r IHr]; cbn [height nleaves]; [lia|].
  pose proof (nleaves_pos l). pose proof (nleaves_pos r). lia.
Qed.

Lemma height_le_nnodes T : (height T <= N.to_nat (nnodes T))%nat.
Proof.
  induction T as [p|split l IHl r IHr]; [unfold nnodes; simpl; lia|].
  rewrite nnodes_branch. simpl. lia.
Qed.

(** [repr] reads the arena and the point cache only where the tree lies. *)
Lemma repr_frame nodes nodes' pts pts' T : forall k off,
  (forall i, k <= i < k + nnodes T -> cell nodes' i = cell nodes i) ->
  (forall j, off <= j < off + nleaves T -> cell pts' j = cell pts j) ->
  repr nodes pts k off T -> repr nodes' pts' k off T.
Proof.
  induction T as [p|split l IHl r IHr]; intros k off Hn Hp; simpl.
  - intros (nd & Hnd & ? & ? & ? & Hpt). exists nd.
    rewrite Hn by (unfold nnodes; simpl; lia). rewrite Hp by (simpl; lia). done.
  - intros (nd & Hnd & ? & ? & ? & Hl & Hr). exists nd.
    pose proof (nnodes_branch split l r) as Hsz. simpl in Hp.
    pose proof (nleaves_pos l). pose proof (nleaves_pos r).
    rewrite Hn by lia. repeat split; try done.
    + apply IHl; [| |done]; intros; [apply Hn|apply Hp]; lia.
    + apply IHr; [| |done]; intros; [apply Hn|apply Hp]; lia.
Qed.

(** The leaves of the tree are the cells of its range of the point cache. *)
Lemma repr_leaves nodes pts T : forall k off,
  repr nodes pts k off T -> slice pts off (nleaves T) = leaves T.
Proof.
  induction T as [p|split l IHl r IHr]; intros k off; simpl.
  - intros (nd & _ & _ & _ & _ & Hpt).
    pose proof (cell_Some_lt _ _ _ Hpt).
    apply list_eq. intros [|i].
    + rewrite lookup_slice by lia. simpl. rewrite <- Hpt. f_equal. lia.
    + unfold slice. now rewrite lookup_take_ge by lia.
  - intros (nd & _ & _ & _ & _ & Hl & Hr).
    rewrite <- (IHl _ _ Hl), <- (IHr _ _ Hr). unfold slice.
    rewrite N2Nat.inj_add, <- take_take_drop, drop_drop.
    do 3 f_equal. lia.
Qed.

(** ** [build_subtree] *)

Section BuildSubtreeFacts.
Context {libc : Libc}.

Lemma qsort_length {A} (cmp : A -> A -> Z) l : length (qsort cmp l) = length l.
Proof. apply Permutation_length, qsort_perm. Qed.

(** The unfolding of [build_subtree] on two points or more. *)
Lemma build_subtree_branch fuel depth seg :
  (2 <= length seg)%nat ->
  build_subtree (S fuel) depth seg =
    (let axis := axis_of depth in
     let sorted := qsort (func_select axis) seg in
     let mid := ((length seg - 1) / 2)%nat in
     point ← sorted !! mid;
     l ← build_subtree fuel (depth + 1) (take (S mid) sorted);
     r ← build_subtree fuel (depth + 1) (drop (S mid) sorted);
     Some (KBranch (coord axis point) l r)).
Proof. destruct seg as [|p [|q seg]]; simpl; [lia|lia|done]. Qed.

Lemma build_subtree_leaves fuel : forall depth seg T,
  build_subtree fuel depth seg = Some T -> leaves T ≡ₚ seg.
Proof.
  induction fuel as [|fuel IH]; intros depth seg T; [done|].
  destruct seg as [|p [|q seg]]; [done|simpl; by intros [= <-]|].
  rewrite build_subtree_branch by (simpl; lia).
  cbv zeta. intros H.
  destruct (_ !! _) as [point|]; [|done]. simpl in H.
  destruct (build_subtree fuel (depth + 1) (take _ _)) as [l|] eqn:El; [|done].
  destruct (build_subtree fuel (depth + 1) (drop _ _)) as [r|] eqn:Er; [|done].
  injection H as <-. simpl.
  rewrite (IH _ _ _ El), (IH _ _ _ Er), take_drop. apply qsort_perm.
Qed.

Lemma build_subtree_nleaves fuel depth seg T :
  build_subtree fuel depth seg = Some T -> nleaves T = N.of_nat (length seg).
Proof.
  intros H%build_subtree_leaves. rewrite nleaves_length. now rewrite H.
Qed.

(** Enough fuel: one unit per point. *)
Lemma build_subtree_total fuel : forall depth seg,
  (0 < length seg <= fuel)%nat -> is_Some (build_subtree fuel depth seg).
Proof.
  induction fuel as [|fuel IH]; intros depth seg Hlen; [lia|].
  destruct seg as [|p [|q seg]]; [simpl in Hlen; lia|by eexists|].
  rewrite build_subtree_branch by (simpl; lia). cbv zeta.
  set (sorted := qsort _ _). set (mid := ((_ - 1) / 2)%nat).
  assert (length sorted = length (p :: q :: seg)) as Hs by apply qsort_length.
  assert (mid < length sorted - 1)%nat as Hmid.
  { subst mid. rewrite Hs. cbn [length]. lia. }
  cbn [length] in Hs, Hlen.
  destruct (lookup_lt_is_Some_2 sorted mid) as [point ->]; [lia|]. simpl.
  destruct (IH (depth + 1) (take (S mid) sorted)) as [l ->].
  { rewrite length_take. lia. }
  destruct (IH (depth + 1) (drop (S mid) sorted)) as [r ->].
  { rewrite length_drop. lia. }
  by eexists.
Qed.

(** The halves of a split differ by one point at most, the left one being
    the larger. *)
Lemma build_subtree_balanced fuel depth seg split l r :
  build_subtree fuel depth seg = Some (KBranch split l r) ->
  nleaves l = (N.of_nat (length seg) + 1) / 2 /\
  nleaves r = N.of_nat (length seg) / 2.
Proof.
  destruct fuel as [|fuel]; [done|].
  destruct seg as [|p [|q seg]]; [done|done|].
  rewrite build_subtree_branch by (simpl; lia). cbv zeta.
  set (sorted := qsort _ _). set (mid := ((_ - 1) / 2)%nat).
  assert (length sorted = length (p :: q :: seg)) as Hs by apply qsort_length.
  intros H. destruct (_ !! _) as [point|]; [|done]. simpl in H.
  destruct (build_subtree fuel _ (take _ _)) as [l'|] eqn:El; [|done].
  destruct (build_subtree fuel _ (drop _ _)) as [r'|] eqn:Er; [|done].
  injection H as <- <- <-.
  apply build_subtree_nleaves in El, Er.
  rewrite length_take in El. rewrite length_drop in Er.
  subst mid. rewrite Hs in *. cbn [length] in *.
  split; lia.
Qed.

Lemma ordered_point_coord axis p : ordered_point p -> ordered (coord axis p).
Proof. intros (? & ? & ?). now destruct axis. Qed.

Lemma func_select_coord axis a b :
  func_select axis a b = CMP dlt (coord axis a) (coord axis b).
Proof. now destruct axis. Qed.

Lemma func_select_le axis a b :
  ordered_point a -> ordered_point b ->
  (func_select axis a b <= 0)%Z <-> dle (coord axis a) (coord axis b) = true.
Proof.
  intros Ha Hb. rewrite func_select_coord.
  apply CMP_dlt_le; now apply ordered_point_coord.
Qed.

(** The comparison routines are consistent on points without a NaN. *)
Lemma func_select_consistent axis l :
  Forall ordered_point l -> cmp_consistent (func_select axis) l.
Proof.
  rewrite Forall_forall. intros Hl. split.
  - intros a b _ _. rewrite !func_select_coord. unfold CMP.
    destruct (dlt (coord axis b) (coord axis a)) eqn:E.
    + right. rewrite (dlt_asym _ _ E). lia.
    + left. destruct (dlt (coord axis a) (coord axis b)); lia.
  - intros a b c Ha Hb Hc. rewrite !func_select_le by auto. apply dle_trans.
Qed.

Lemma sorted_around {A} (R : relation A) l m x :
  StronglySorted R l -> l !! m = Some x ->
  Forall (fun a => R a x) (take m l) /\ Forall (R x) (drop (S m) l).
Proof.
  intros Hs Hx. rewrite <- (take_drop_middle l m x Hx) in Hs.
  apply StronglySorted_app in Hs as (H1 & _ & H2).
  apply StronglySorted_cons in H2 as [H2 _]. split; [|done].
  apply Forall_forall. intros a Ha. apply H1; [done|]. left.
Qed.

(** On points without a NaN the tree of [build_subtree] is in k-d order. *)
Lemma build_subtree_kd_ok fuel : forall depth seg T,
  Forall ordered_point seg ->
  build_subtree fuel depth seg = Some T -> kd_ok depth T.
Proof.
  induction fuel as [|fuel IH]; intros depth seg T Hord; [done|].
  destruct seg as [|p [|q seg]]; [done|simpl; by intros [= <-]|].
  rewrite build_subtree_branch by (simpl; lia). cbv zeta.
  set (sorted := qsort _ _). set (mid := ((_ - 1) / 2)%nat).
  assert (Forall ordered_point sorted) as Hsord.
  { subst sorted. now rewrite qsort_perm. }
  assert (StronglySorted (fun a b => (func_select (axis_of depth) a b <= 0)%Z) sorted)
    as Hsorted by (apply qsort_sorted, func_select_consistent, Hord).
  intros H. destruct (sorted !! mid) as [point|] eqn:Hpt; [|done]. simpl in H.
  destruct (build_subtree fuel _ (take _ _)) as [l|] eqn:El; [|done].
  destruct (build_subtree fuel _ (drop _ _)) as [r|] eqn:Er; [|done].
  injection H as <-. simpl.
  destruct (sorted_around _ _ _ _ Hsorted Hpt) as [Hlo Hhi].
  assert (ordered_point point) as Hpo by (eapply Forall_lookup_1; eauto).
  repeat split.
  - rewrite (build_subtree_leaves _ _ _ _ El), (take_S_r _ _ _ Hpt).
    apply Forall_app. split.
    + apply Forall_forall. intros a Ha.
      apply func_select_le.
      * rewrite Forall_forall in Hsord. apply Hsord.
        apply elem_of_take in Ha as (i & Hi & _). eapply list_elem_of_lookup_2, Hi.
      * done.
      * rewrite Forall_forall in Hlo. now apply Hlo.
    + repeat constructor. now apply ordered_point_coord.
  - rewrite (build_subtree_leaves _ _ _ _ Er).
    apply Forall_forall. intros a Ha.
    apply func_select_le.
    + done.
    + assert (Forall ordered_point (drop (S mid) sorted)) as Hd by now apply Forall_drop.
      rewrite Forall_forall in Hd. now apply Hd.
    + rewrite Forall_forall in Hhi. now apply Hhi.
  - eapply IH; [|exact El]. now apply Forall_take.
  - eapply IH; [|exact Er]. now apply Forall_drop.
Qed.

End BuildSubtreeFacts.

(** ** The node arena *)

Section Arena.
Context {libc : Libc}.

Lemma node_store_spec t node f :
  node < N.of_nat (length (node_data t)) ->
  exists nd t', cell (node_data t) node = Some nd /\
    node_store t node f = Some t' /\
    count t' = count t /\ max_nodes t' = max_nodes t /\
    next_node t' = next_node t /\ root t' = root t /\
    points t' = points t /\
    length (node_data t') = length (node_data t) /\
    cell (node_data t') node = Some (f nd) /\
    (forall i, i <> node -> cell (node_data t') i = cell (node_data t) i).
Proof.
  intros H. destruct (store_Some (node_data t) node f H)
    as (nd & nodes & Hnd & Hst & Hlen & Hcell & Hother).
  exists nd, (set_node_data t nodes). unfold node_store. rewrite Hst. simpl.
  repeat split; done.
Qed.

Lemma _next_node_spec t :
  next_node t < max_nodes t ->
  _next_node t = Some (next_node t, set_next_node t (next_node t + 1)).
Proof. intros H. unfold _next_node. now apply N.ltb_lt in H as ->. Qed.

(** A failed arena-bound assertion is the only way [_next_node] stops. *)
Lemma _next_node_None t : _next_node t = None <-> max_nodes t <= next_node t.
Proof.
  unfold _next_node. destruct (N.ltb_spec (next_node t) (max_nodes t)); split; (done || lia).
Qed.

Lemma _get_branch_node_spec t split :
  next_node t < max_nodes t -> max_nodes t <= N.of_nat (length (node_data t)) ->
  exists nd t', cell (node_data t) (next_node t) = Some nd /\
    _get_branch_node t split = Some (next_node t, t') /\
    count t' = count t /\ max_nodes t' = max_nodes t /\
    next_node t' = next_node t + 1 /\ root t' = root t /\
    points t' = points t /\
    length (node_data t') = length (node_data t) /\
    cell (node_data t') (next_node t) = Some (set_split nd split) /\
    (forall i, i <> next_node t -> cell (node_data t') i = cell (node_data t) i).
Proof.
  intros Hlt Hmax. unfold _get_branch_node. rewrite _next_node_spec by done. simpl.
  destruct (node_store_spec (set_next_node t (next_node t + 1)) (next_node t)
              (fun nd => set_split nd split))
    as (nd & t' & Hnd & -> & ? & ? & ? & ? & ? & ? & ? & ?); [simpl; lia|].
  exists nd, t'. simpl in *. repeat split; done.
Qed.

Lemma _get_leaf_node_spec t offset :
  next_node t < max_nodes t -> max_nodes t <= N.of_nat (length (node_data t)) ->
  exists nd t', cell (node_data t) (next_node t) = Some nd /\
    _get_leaf_node t offset = Some (next_node t, t') /\
    count t' = count t /\ max_nodes t' = max_nodes t /\
    next_node t' = next_node t + 1 /\ root t' = root t /\
    points t' = points t /\
    length (node_data t') = length (node_data t) /\
    cell (node_data t') (next_node t) =
      Some {| nd_left := NULL; nd_right := NULL; nd_split := nd_split nd;
              nd_idx := offset |} /\
    (forall i, i <> next_node t -> cell (node_data t') i = cell (node_data t) i).
Proof.
  intros Hlt Hmax. unfold _get_leaf_node. rewrite _next_node_spec by done. simpl.
  destruct (node_store_spec (set_next_node t (next_node t + 1)) (next_node t)
              (fun nd => {| nd_left := NULL; nd_right := NULL; nd_split := nd_split nd;
                            nd_idx := offset |}))
    as (nd & t' & Hnd & -> & ? & ? & ? & ? & ? & ? & ? & ?); [simpl; lia|].
  exists nd, t'. simpl in *. repeat split; done.
Qed.

Lemma slice_1 {A} (l : list A) i a : cell l i = Some a -> slice l i 1 = [a].
Proof.
  intros H. pose proof (cell_Some_lt _ _ _ H).
  apply list_eq. intros [|k].
  - rewrite lookup_slice by lia. simpl. rewrite <- H. f_equal. lia.
  - unfold slice. now rewrite lookup_take_ge by lia.
Qed.

Lemma sort_range_spec cmp idx_from n pts :
  idx_from + n <= N.of_nat (length pts) ->
  let sorted := qsort cmp (slice pts idx_from n) in
  let pts' := splice pts idx_from n sorted in
  sort_range cmp idx_from n pts = Some pts' /\
  length sorted = N.to_nat n /\
  length pts' = length pts /\
  slice pts' idx_from n = sorted /\
  (forall j, ~ (idx_from <= j < idx_from + n) -> cell pts' j = cell pts j).
Proof.
  intros H sorted pts'.
  assert (length sorted = N.to_nat n) as Hs.
  { subst sorted. rewrite qsort_length. now apply length_slice. }
  repeat split.
  - unfold sort_range. now apply N.leb_le in H as ->.
  - done.
  - now apply length_splice.
  - now apply slice_splice.
  - intros j Hj. now apply cell_splice_out.
Qed.

End Arena.

(** ** The builder refines [build_subtree] *)

Section Builder.
Context {libc : Libc}.

#[local] Arguments build_subtree : simpl never.

Lemma _build_kdtree_refines fuel : forall idx_from idx_to depth t,
  idx_from <= idx_to ->
  idx_to < N.of_nat (length (points t)) ->
  (N.to_nat (idx_to - idx_from) < fuel)%nat ->
  next_node t + (2 * (idx_to - idx_from + 1) - 1) <= max_nodes t ->
  max_nodes t <= N.of_nat (length (node_data t)) ->
  exists t' T,
    _build_kdtree fuel idx_from idx_to depth t = Some (next_node t, t') /\
    build_subtree fuel depth (slice (points t) idx_from (idx_to - idx_from + 1)) = Some T /\
    built t t' idx_from idx_to T.
Proof.
  induction fuel as [|fuel IH]; intros idx_from idx_to depth t Hle Hto Hfuel Hroom Hmax;
    [lia|].
  cbn [_build_kdtree]. cbv zeta.
  set (n := idx_to - idx_from + 1) in *.
  set (k := next_node t) in *.
  destruct (N.eqb_spec n 1) as [Hn|Hn].
  - (* one point: a leaf *)
    assert (idx_to = idx_from) as -> by lia.
    destruct (cell_lt_Some (points t) idx_from Hto) as [p Hp].
    destruct (_get_leaf_node_spec t idx_from) as
      (nd & t' & Hnd & -> & Hc & Hm & Hnx & Hr & Hpts & Hlen & Hcell & Hother);
      [fold k; lia|lia|].
    exists t', (KLeaf p). split; [done|]. split.
    { rewrite Hn, (slice_1 _ _ _ Hp). done. }
    unfold built, nnodes. simpl. rewrite Hpts. fold k.
    repeat split; try done.
    + intros i Hi. apply Hother. lia.
    + eexists. split; [exact Hcell|]. done.
  - (* several points: a branch *)
    assert (idx_from < idx_to) as Hlt by lia.
    set (mid := idx_from + (idx_to - idx_from) / 2).
    set (axis := axis_of depth).
    destruct (sort_range_spec (func_select axis) idx_from n (points t))
      as (Hsort & Hslen & Hplen & Hsl & Hpout); [lia|].
    set (seg := slice (points t) idx_from n) in *.
    set (sorted := qsort (func_select axis) seg) in *.
    set (pts1 := splice (points t) idx_from n sorted) in *.
    rewrite Hsort. simpl.
    assert (length seg = N.to_nat n) as Hseglen by (apply length_slice; lia).
    set (m := ((length seg - 1) / 2)%nat).
    assert (N.to_nat (mid - idx_from) = m) as Hm by (subst m mid; lia).
    assert (m < length sorted - 1)%nat as Hmlt by (subst m; lia).
    destruct (lookup_lt_is_Some_2 sorted m) as [point Hpoint]; [lia|].
    assert (cell pts1 mid = Some point) as Hcellmid.
    { subst pts1. rewrite cell_splice_in by lia. now rewrite Hm. }
    rewrite Hcellmid. simpl.
    (* the branch node *)
    destruct (_get_branch_node_spec (set_points t pts1) (coord axis point))
      as (nd1 & t2 & Hnd1 & -> & Hc2 & Hm2 & Hnx2 & Hr2 & Hp2 & Hl2 & Hcell2 & Ho2);
      [simpl; fold k; lia|simpl; lia|].
    simpl in Hnd1, Hc2, Hm2, Hnx2, Hr2, Hp2, Hl2, Hcell2, Ho2. fold k in Hnd1, Hnx2, Hcell2, Ho2.
    simpl. fold k.
    (* the left subtree *)
    destruct (IH idx_from mid (depth + 1) t2) as (t3 & L & -> & HL & HbL);
      [subst mid; lia|rewrite Hp2; lia|subst mid; lia|rewrite Hnx2, Hm2; subst mid; lia
      |rewrite Hm2, Hl2; lia|].
    rewrite Hnx2. simpl. fold k.
    destruct HbL as (Hc3 & Hm3 & Hr3 & Hnx3 & Hpl3 & Hl3 & Hpo3 & Hno3 & HreprL).
    rewrite Hnx2 in Hnx3, Hno3, HreprL.
    assert (slice (points t2) idx_from (mid - idx_from + 1) = take (S m) sorted) as HsegL.
    { rewrite Hp2. rewrite <- Hsl.
      replace (S m) with (N.to_nat (mid - idx_from + 1)) by lia.
      rewrite <- slice_0, slice_slice by (subst mid n; lia). f_equal. lia. }
    rewrite HsegL in HL.
    pose proof (build_subtree_nleaves _ _ _ _ HL) as HnL.
    rewrite length_take in HnL.
    pose proof (nnodes_nleaves L) as HsizeL.
    (* node->left *)
    destruct (node_store_spec t3 k (fun nd => set_left nd (Some (k + 1))))
      as (nd3 & t4 & Hnd3 & -> & Hc4 & Hm4 & Hnx4 & Hr4 & Hp4 & Hl4 & Hcell4 & Ho4);
      [rewrite Hl3, Hl2; lia|].
    simpl.
    (* the right subtree *)
    destruct (IH (mid + 1) idx_to (depth + 1) t4) as (t5 & R & -> & HR & HbR);
      [subst mid; lia|rewrite Hp4, Hpl3, Hp2; lia|subst mid; lia
      |rewrite Hnx4, Hnx3, Hm4, Hm3, Hm2; subst mid; lia
      |rewrite Hm4, Hm3, Hm2, Hl4, Hl3, Hl2; lia|].
    simpl.
    destruct HbR as (Hc5 & Hm5 & Hr5 & Hnx5 & Hpl5 & Hl5 & Hpo5 & Hno5 & HreprR).
    rewrite Hnx4, Hnx3 in Hnx5, Hno5, HreprR.
    assert (slice (points t4) (mid + 1) (idx_to - (mid + 1) + 1) = drop (S m) sorted)
      as HsegR.
    { rewrite Hp4.
      rewrite (slice_ext (points t2) (points t3)) by (done || (intros; apply Hpo3; lia)).
      rewrite Hp2.
      replace (drop (S m) sorted)
        with (slice sorted (mid - idx_from + 1) (idx_to - (mid + 1) + 1)).
      2:{ unfold slice. replace (N.to_nat (mid - idx_from + 1)) with (S m) by lia.
          apply take_ge. rewrite length_drop. lia. }
      rewrite <- Hsl, slice_slice by (subst mid n; lia). f_equal. subst mid. lia. }
    rewrite HsegR in HR.
    pose proof (build_subtree_nleaves _ _ _ _ HR) as HnR.
    rewrite length_drop in HnR.
    pose proof (nnodes_nleaves R) as HsizeR.
    (* node->right *)
    rewrite Hnx4, Hnx3.
    destruct (node_store_spec t5 k (fun nd => set_right nd (Some (k + 1 + nnodes L))))
      as (nd5 & t6 & Hnd5 & -> & Hc6 & Hm6 & Hnx6 & Hr6 & Hp6 & Hl6 & Hcell6 & Ho6);
      [rewrite Hl5, Hl4, Hl3, Hl2; lia|].
    simpl.
    exists t6, (KBranch (coord axis point) L R).
    split; [done|]. split.
    { rewrite build_subtree_branch by lia. cbv zeta. fold axis sorted m.
      rewrite Hpoint. simpl. rewrite HL. simpl. rewrite HR. done. }
    pose proof (nnodes_branch (coord axis point) L R) as HsizeT.
    assert (cell (node_data t5) k = Some (set_left (set_split nd1 (coord axis point)) (Some (k + 1))))
      as Hk5.
    { rewrite Hno5 by lia. rewrite Hcell4. f_equal. f_equal.
      rewrite Hno3 in Hnd3 by lia. congruence. }
    unfold built. fold k.
    repeat split.
    + congruence.
    + congruence.
    + congruence.
    + rewrite Hnx6, Hnx5. lia.
    + congruence.
    + congruence.
    + intros j Hj. rewrite Hp6, Hpo5, Hp4, Hpo3, Hp2 by (subst mid; lia).
      apply Hpout. lia.
    + intros i Hi. rewrite Ho6, Hno5, Ho4, Hno3, Ho2 by lia. done.
    + simpl. eexists. split; [exact Hcell6|].
      rewrite Hk5 in Hnd5. injection Hnd5 as <-. simpl.
      repeat split.
      * apply (repr_frame (node_data t3) _ (points t3)); [| |done].
        -- intros i Hi. rewrite Ho6, Hno5, Ho4 by lia. done.
        -- intros j Hj. rewrite Hp6, Hpo5, Hp4 by (subst mid; lia). done.
      * replace (idx_from + nleaves L) with (mid + 1) by (subst mid; lia).
        apply (repr_frame (node_data t5) _ (points t5)); [| |done].
        -- intros i Hi. rewrite Ho6 by lia. done.
        -- intros j Hj. now rewrite Hp6.
Qed.

End Builder.

(** ** [kdtree_build] *)

Section Build.
Context {libc : Libc}.

Lemma indices_S (n : nat) :
  indices (N.of_nat (S n)) = indices (N.of_nat n) ++ [N.of_nat n].
Proof. unfold indices. rewrite !Nat2N.id, seq_S, fmap_app. done. Qed.

Lemma length_indices n : length (indices n) = N.to_nat n.
Proof. unfold indices. now rewrite length_fmap, length_seq. Qed.

Lemma lookup_indices n (j : nat) :
  (j < N.to_nat n)%nat -> indices n !! j = Some (N.of_nat j).
Proof.
  intros H. unfold indices. rewrite list_lookup_fmap, lookup_seq_lt by done. done.
Qed.

Lemma NoDup_indices n : NoDup (indices n).
Proof.
  unfold indices. apply NoDup_fmap_2; [|apply NoDup_seq].
  intros a b H. lia.
Qed.

Lemma elem_of_indices n i : i ∈ indices n <-> i < n.
Proof.
  unfold indices. rewrite list_elem_of_fmap. split.
  - intros (j & -> & Hj%elem_of_seq). lia.
  - intros H. exists (N.to_nat i). split; [lia|]. apply elem_of_seq. lia.
Qed.

Lemma point_at_Some x y z n i :
  arrays_hold x y z n -> i < n -> exists p, point_at x y z i = Some p /\ pt_idx p = i.
Proof.
  intros (Hx & Hy & Hz) Hi. unfold point_at.
  destruct (cell_lt_Some x i) as [xi ->]; [lia|].
  destruct (cell_lt_Some y i) as [yi ->]; [lia|].
  destruct (cell_lt_Some z i) as [zi ->]; [lia|].
  simpl. eauto.
Qed.

(** The point set, cell by cell. *)
Lemma point_set_cells x y z (n : nat) :
  arrays_hold x y z (N.of_nat n) ->
  length (point_set x y z (N.of_nat n)) = n /\
  forall j, j < N.of_nat n ->
    cell (point_set x y z (N.of_nat n)) j = point_at x y z j.
Proof.
  induction n as [|n IH]; intros Harr.
  - split; [done|]. intros j Hj. lia.
  - destruct IH as [IHlen IHcell].
    { destruct Harr as (? & ? & ?). repeat split; lia. }
    destruct (point_at_Some x y z _ (N.of_nat n) Harr) as (p & Hp & _); [lia|].
    unfold point_set in *. rewrite indices_S, omap_app. simpl. rewrite Hp. simpl.
    split; [rewrite length_app, IHlen; simpl; lia|].
    intros j Hj. unfold cell in *.
    destruct (decide (j < N.of_nat n)) as [Hlt|Hge].
    + rewrite lookup_app_l by lia. now apply IHcell.
    + assert (j = N.of_nat n) as -> by lia.
      rewrite lookup_app_r by lia. rewrite IHlen, Nat2N.id, Nat.sub_diag. done.
Qed.

Lemma length_point_set x y z n :
  arrays_hold x y z n -> length (point_set x y z n) = N.to_nat n.
Proof.
  intros H. rewrite <- (N2Nat.id n) in H |- * at 1.
  now apply point_set_cells.
Qed.

Lemma cell_point_set x y z n j :
  arrays_hold x y z n -> j < n -> cell (point_set x y z n) j = point_at x y z j.
Proof.
  intros H Hj. rewrite <- (N2Nat.id n) in H |- *.
  apply point_set_cells; [done|lia].
Qed.

(** The indices of the point set are [0 .. n-1], in this order. *)
Lemma point_set_idx x y z n :
  arrays_hold x y z n -> pt_idx <$> point_set x y z n = indices n.
Proof.
  intros H. apply list_eq. intros j. rewrite list_lookup_fmap.
  destruct (decide (j < N.to_nat n)%nat) as [Hj|Hj].
  - rewrite lookup_indices by done.
    pose proof (cell_point_set x y z n (N.of_nat j) H) as Hc.
    unfold cell in Hc. rewrite Nat2N.id in Hc. rewrite Hc by lia.
    destruct (point_at_Some x y z n (N.of_nat j) H) as (p & -> & Hp); [lia|].
    simpl. now rewrite Hp.
  - rewrite !(proj2 (lookup_ge_None _ _)); [done| |].
    + rewrite length_indices. lia.
    + rewrite length_point_set by done. lia.
Qed.

Lemma cache_point_spec x y z i t p :
  point_at x y z i = Some p -> i < N.of_nat (length (points t)) ->
  exists t', cache_point x y z i t = Some t' /\
    count t' = count t /\ max_nodes t' = max_nodes t /\
    next_node t' = next_node t /\ root t' = root t /\
    node_data t' = node_data t /\
    length (points t') = length (points t) /\
    cell (points t') i = Some p /\
    (forall j, j <> i -> cell (points t') j = cell (points t) j).
Proof.
  unfold point_at, cache_point. intros Hp Hi.
  destruct (cell x i) as [xi|]; [|done]. simpl in *.
  destruct (cell y i) as [yi|]; [|done]. simpl in *.
  destruct (cell z i) as [zi|]; [|done]. simpl in *.
  injection Hp as <-.
  destruct (store_Some (points t) i
    (fun _ => {| pt_x := xi; pt_y := yi; pt_z := zi; pt_idx := i |}) Hi)
    as (a & pts & _ & -> & Hlen & Hcell & Hother).
  simpl. eexists. split; [done|]. simpl. repeat split; done.
Qed.

Lemma cache_loop_spec x y z n k : forall i t,
  arrays_hold x y z n -> i + N.of_nat k = n -> n <= N.of_nat (length (points t)) ->
  exists t', cache_loop k x y z i t = Some t' /\
    count t' = count t /\ max_nodes t' = max_nodes t /\
    next_node t' = next_node t /\ root t' = root t /\
    node_data t' = node_data t /\
    length (points t') = length (points t) /\
    (forall j, i <= j < n -> cell (points t') j = point_at x y z j) /\
    (forall j, ~ (i <= j < n) -> cell (points t') j = cell (points t) j).
Proof.
  induction k as [|k IH]; intros i t Harr Hik Hlen.
  - exists t. simpl. repeat split; try done. intros j Hj. lia.
  - destruct (point_at_Some x y z n i Harr) as (p & Hp & _); [lia|].
    destruct (cache_point_spec x y z i t p Hp) as
      (t1 & H1 & Hc1 & Hm1 & Hn1 & Hr1 & Hd1 & Hl1 & Hcell1 & Ho1); [lia|].
    destruct (IH (i + 1) t1 Harr) as
      (t2 & H2 & Hc2 & Hm2 & Hn2 & Hr2 & Hd2 & Hl2 & Hcell2 & Ho2); [lia|lia|].
    exists t2. simpl. rewrite H1. simpl. rewrite H2.
    repeat split; try congruence.
    + intros j Hj. destruct (decide (j = i)) as [->|Hne].
      * rewrite Ho2 by lia. congruence.
      * apply Hcell2. lia.
    + intros j Hj. rewrite Ho2 by lia. apply Ho1. lia.
Qed.

(** After the caching loop the point cache is the point set. *)
Lemma cache_points_spec x y z n t :
  arrays_hold x y z n -> N.of_nat (length (points t)) = n ->
  exists t', cache_points x y z n t = Some t' /\
    count t' = count t /\ max_nodes t' = max_nodes t /\
    next_node t' = next_node t /\ root t' = root t /\
    node_data t' = node_data t /\
    points t' = point_set x y z n.
Proof.
  intros Harr Hlen. unfold cache_points.
  destruct (cache_loop_spec x y z n (N.to_nat n) 0 t Harr) as
    (t' & H & Hc & Hm & Hn & Hr & Hd & Hl & Hcell & _); [lia|lia|].
  exists t'. repeat split; try done.
  apply list_eq. intros j.
  destruct (decide (j < N.to_nat n)%nat) as [Hj|Hj].
  - pose proof (Hcell (N.of_nat j)) as H1.
    pose proof (cell_point_set x y z n (N.of_nat j) Harr) as H2.
    unfold cell in H1, H2. rewrite Nat2N.id in H1, H2.
    rewrite H1, H2 by lia. done.
  - rewrite !(proj2 (lookup_ge_None _ _)); [done| |].
    + rewrite length_point_set by done. lia.
    + lia.
Qed.

Lemma kdtree_alloc_wf n tree_ptr :
  handle_ok tree_ptr ->
  let t := kdtree_alloc n tree_ptr in
  tree_wf t /\ count t = n.
Proof.
  intros H. unfold kdtree_alloc, kdtree_new, tree_wf.
  destruct tree_ptr as [t|]; simpl.
  - destruct (N.eqb_spec (count t) n) as [E|E]; [done|]. simpl.
    rewrite malloc_points_length, malloc_nodes_length. lia.
  - rewrite malloc_points_length, malloc_nodes_length. lia.
Qed.

(** [kdtree_build] succeeds on two points or more, and leaves the tree that
    [build_subtree] makes of the point set at depth 0: rooted in slot 0 of
    the arena, all of whose slots it takes, its leaves being the point
    cache. *)
Lemma kdtree_build_spec x y z n tree_ptr :
  1 < n -> arrays_hold x y z n -> handle_ok tree_ptr ->
  exists t T,
    kdtree_build x y z n tree_ptr = Some t /\
    build_subtree (N.to_nat n) 0 (point_set x y z n) = Some T /\
    tree_wf t /\ count t = n /\ next_node t = max_nodes t /\
    root t = Some 0 /\ nleaves T = n /\
    repr (node_data t) (points t) 0 0 T /\
    points t = leaves T.
Proof.
  intros Hn Harr Hh. unfold kdtree_build.
  replace (1 <? n) with true by (symmetry; now apply N.ltb_lt). simpl.
  destruct (kdtree_alloc_wf n tree_ptr Hh) as [(Hw1 & Hw2 & Hw3) Hcount].
  set (t0 := kdtree_alloc n tree_ptr) in *.
  destruct (cache_points_spec x y z n (set_next_node t0 0) Harr) as
    (t1 & -> & Hc1 & Hm1 & Hn1 & Hr1 & Hd1 & Hp1); [simpl; lia|].
  simpl in *.
  destruct (_build_kdtree_refines (N.to_nat n) 0 (n - 1) 0 t1) as
    (t2 & T & Hb & HT & Hc2 & Hm2 & Hr2 & Hn2 & Hl2 & Hnl2 & _ & _ & Hrepr);
    [lia|rewrite Hp1, length_point_set by done; lia|lia
    |rewrite Hn1, Hm1; lia|rewrite Hm1, Hd1; lia|].
  rewrite Hn1 in Hb, Hn2, Hrepr. rewrite Hb. simpl.
  replace (n - 1 - 0 + 1) with n in HT by lia.
  rewrite Hp1 in HT.
  rewrite slice_0, take_ge in HT by (rewrite length_point_set by done; lia).
  pose proof (build_subtree_nleaves _ _ _ _ HT) as HnT.
  rewrite length_point_set in HnT by done. rewrite N2Nat.id in HnT.
  pose proof (nnodes_nleaves T) as Hsz.
  exists (set_root t2 (Some 0)), T.
  assert (length (points t2) = N.to_nat n) as Hlen2.
  { rewrite Hl2, Hp1. now apply length_point_set. }
  unfold tree_wf. simpl.
  repeat split; try done; try lia.
  { rewrite Hnl2, Hd1. lia. }
  pose proof (repr_leaves _ _ _ _ _ Hrepr) as Hlv.
  rewrite HnT in Hlv. rewrite <- Hlv.
  rewrite slice_0, take_ge; [done|lia].
Qed.

End Build.

(** ** Geometry of the search *)

Lemma dim_set_dim s axis b axis' :
  dim (set_dim s axis b) axis' = if decide (axis' = axis) then b else dim s axis'.
Proof. destruct axis, axis'; done. Qed.

Lemma in_space_left domain axis split p :
  in_space domain p -> dle (coord axis p) split = true ->
  in_space (left_domain domain axis split) p.
Proof.
  intros H Hs axis'. specialize (H axis').
  destruct axis, axis'; simpl in *; tauto.
Qed.

Lemma in_space_right domain axis split p :
  in_space domain p -> dle split (coord axis p) = true ->
  in_space (right_domain domain axis split) p.
Proof.
  intros H Hs axis'. specialize (H axis').
  destruct axis, axis'; simpl in *; tauto.
Qed.

(** A point of a domain that the search space encloses is in the search
    space. *)
Lemma enclosed_inside search_space domain p :
  _completely_enclosed search_space domain = true ->
  in_space domain p ->
  _point_in_search_space p search_space = true.
Proof.
  unfold _completely_enclosed, _point_in_search_space, dge. intros He Hp.
  rewrite !andb_true_iff in He.
  destruct He as [[[[[[[[[[[_ X2] X3] _] _] Y2] Y3] _] _] Z2] Z3] _].
  pose proof (Hp DIM_X) as [Px1 Px2]. pose proof (Hp DIM_Y) as [Py1 Py2].
  pose proof (Hp DIM_Z) as [Pz1 Pz2]. simpl in *.
  rewrite !andb_true_iff. repeat split.
  - exact (dle_trans _ _ _ Px2 X3).
  - exact (dle_trans _ _ _ X2 Px1).
  - exact (dle_trans _ _ _ Py2 Y3).
  - exact (dle_trans _ _ _ Y2 Py1).
  - exact (dle_trans _ _ _ Pz2 Z3).
  - exact (dle_trans _ _ _ Z2 Pz1).
Qed.

(** No point of a domain that the search space does not intersect is in the
    search space. *)
Lemma separate_outside search_space domain p :
  _search_area_intersects search_space domain = false ->
  in_space domain p ->
  _point_in_search_space p search_space = false.
Proof.
  unfold _search_area_intersects, _point_in_search_space, dge, dgt. intros He Hp.
  apply negb_false_iff in He. rewrite !orb_true_iff in He.
  pose proof (Hp DIM_X) as [Px1 Px2]. pose proof (Hp DIM_Y) as [Py1 Py2].
  pose proof (Hp DIM_Z) as [Pz1 Pz2]. simpl in *.
  assert (forall a b, dle a b = false -> PrimFloat.leb a b = false) as U by done.
  destruct He as [[[[[He|He]|He]|He]|He]|He].
  - rewrite (U _ _ (dle_dlt_disjoint _ _ _ Px2 He)). now rewrite !andb_false_r.
  - rewrite (dlt_dle_disjoint _ _ _ He Px1). done.
  - rewrite (U _ _ (dle_dlt_disjoint _ _ _ Py2 He)). now rewrite !andb_false_r.
  - rewrite (dlt_dle_disjoint _ _ _ He Py1). now rewrite !andb_false_r.
  - rewrite (U _ _ (dle_dlt_disjoint _ _ _ Pz2 He)). now rewrite !andb_false_r.
  - rewrite (dlt_dle_disjoint _ _ _ He Pz1). now rewrite !andb_false_r.
Qed.

(** Every finite point lies in the initial domain. *)
Lemma finite_in_initial_domain p : finite_point p -> in_space initial_domain p.
Proof.
  unfold finite_point, finite_double. intros (Hx & Hy & Hz) axis.
  apply andb_true_iff in Hx, Hy, Hz. destruct axis; simpl; tauto.
Qed.

Lemma finite_point_ordered p : finite_point p -> ordered_point p.
Proof.
  intros (Hx & Hy & Hz). repeat split; now apply finite_double_ordered.
Qed.

Lemma inside_app search_space l1 l2 :
  inside search_space (l1 ++ l2) = inside search_space l1 ++ inside search_space l2.
Proof. unfold inside. now rewrite filter_app, fmap_app. Qed.

Lemma inside_all search_space l :
  Forall (fun p => _point_in_search_space p search_space = true) l ->
  inside search_space l = pt_idx <$> l.
Proof.
  intros H. unfold inside. f_equal. induction H as [|p l Hp _ IH]; [done|].
  rewrite filter_cons_True by done. now rewrite IH.
Qed.

Lemma inside_none search_space l :
  Forall (fun p => _point_in_search_space p search_space = false) l ->
  inside search_space l = [].
Proof.
  intros H. unfold inside. induction H as [|p l Hp _ IH]; [done|].
  rewrite filter_cons_False by congruence. done.
Qed.

(** In a tree in k-d order whose points lie in the domain, the search
    reports the points inside the search space, and only them. *)
Lemma reported_inside search_space T :
  (forall depth domain,
     kd_ok depth T -> Forall (in_space domain) (leaves T) -> is_branch T ->
     reported depth search_space domain T = inside search_space (leaves T)) /\
  (forall depth domain,
     kd_ok (depth + 1) T -> Forall (in_space domain) (leaves T) ->
     explored search_space domain T (reported (depth + 1) search_space domain T)
     = inside search_space (leaves T)).
Proof.
  induction T as [p|split l [_ IHl] r [_ IHr]].
  - split; [done|]. intros depth domain _ _. unfold inside. simpl.
    destruct (_point_in_search_space p search_space) eqn:E.
    + now rewrite filter_cons_True.
    + rewrite filter_cons_False by congruence. done.
  - assert (forall depth domain,
      kd_ok depth (KBranch split l r) ->
      Forall (in_space domain) (leaves (KBranch split l r)) ->
      reported depth search_space domain (KBranch split l r)
      = inside search_space (leaves (KBranch split l r))) as Hrep.
    { intros depth domain (Hlo & Hhi & Hkl & Hkr) Hdom. simpl in *.
      apply Forall_app in Hdom as [Hdl Hdr].
      rewrite inside_app, IHl, IHr; try done.
      - rewrite Forall_forall in Hdr, Hhi |- *. intros p Hp.
        apply in_space_right; auto.
      - rewrite Forall_forall in Hdl, Hlo |- *. intros p Hp.
        apply in_space_left; auto. }
    split; [intros; now apply Hrep|].
    intros depth domain Hkd Hdom. cbn [explored].
    destruct (_search_area_intersects search_space domain) eqn:Ei.
    + destruct (_completely_enclosed search_space domain) eqn:Ee.
      * symmetry. apply inside_all. eapply Forall_impl; [exact Hdom|].
        intros p. now apply enclosed_inside.
      * now apply Hrep.
    + symmetry. apply inside_none. eapply Forall_impl; [exact Hdom|].
      intros p. now apply separate_outside.
Qed.

(** ** The search follows the tree in the arena *)

Section Search.
Context {libc : Libc}.

Lemma appends_nil iter : iter_wf iter -> appends (Some iter) iter [].
Proof. intros H. exists iter. rewrite app_nil_r. split; [done|]. split; [done|]. done. Qed.

Lemma appends_push iter value :
  iter_wf iter -> appends (_iterator_push iter value) iter [value].
Proof. apply _iterator_push_spec. Qed.

(** Sequencing two steps that append. *)
Lemma appends_bind r iter vs ws (k : kdtree_iterator -> option kdtree_iterator) :
  appends r iter vs ->
  (forall iter', iter_wf iter' -> appends (k iter') iter' ws) ->
  appends (r ≫= k) iter (vs ++ ws).
Proof.
  intros (it1 & -> & Hwf1 & Hc1 & Hcur1) Hk. simpl.
  destruct (Hk it1 Hwf1) as (it2 & -> & Hwf2 & Hc2 & Hcur2).
  exists it2. split; [done|]. split; [done|]. split; [|congruence].
  rewrite Hc2, Hc1. now rewrite app_assoc.
Qed.

Lemma repr_node_leaf nodes pts k off p :
  repr nodes pts k off (KLeaf p) ->
  exists nd, cell nodes k = Some nd /\ _is_leaf_node nd = true /\
    cell pts (nd_idx nd) = Some p.
Proof.
  intros (nd & Hnd & Hl & Hr & Hi & Hp). exists nd.
  unfold _is_leaf_node. rewrite Hl, Hr, Hi. done.
Qed.

Lemma repr_node_branch nodes pts k off split l r :
  repr nodes pts k off (KBranch split l r) ->
  exists nd, cell nodes k = Some nd /\ _is_leaf_node nd = false /\
    nd_split nd = split /\
    nd_left nd = Some (k + 1) /\ nd_right nd = Some (k + 1 + nnodes l) /\
    repr nodes pts (k + 1) off l /\
    repr nodes pts (k + 1 + nnodes l) (off + nleaves l) r.
Proof.
  intros (nd & Hnd & Hl & Hr & Hs & HL & HR). exists nd.
  unfold _is_leaf_node. rewrite Hl, Hr. done.
Qed.

Lemma _report_all_leaves_spec t T : forall fuel k off iter,
  repr (node_data t) (points t) k off T ->
  (height T <= fuel)%nat -> iter_wf iter ->
  appends (_report_all_leaves fuel t (Some k) iter) iter (pt_idx <$> leaves T).
Proof.
  induction T as [p|split l IHl r IHr]; intros fuel k off iter Hrepr Hfuel Hwf;
    (destruct fuel as [|fuel]; [simpl in Hfuel; lia|]); cbn [_report_all_leaves];
    cbn [mbind option_bind].
  - destruct (repr_node_leaf _ _ _ _ _ Hrepr) as (nd & Hnd & Hleaf & Hp).
    rewrite Hnd. cbn [mbind option_bind]. rewrite Hleaf, Hp. cbn [mbind option_bind].
    now apply appends_push.
  - destruct (repr_node_branch _ _ _ _ _ _ _ Hrepr)
      as (nd & Hnd & Hleaf & _ & Hl & Hr & HL & HR).
    rewrite Hnd. cbn [mbind option_bind]. rewrite Hleaf, Hl, Hr.
    cbn [leaves]. rewrite fmap_app. apply appends_bind.
    + apply (IHl _ _ _ _ HL); [cbn [height] in Hfuel; lia|done].
    + intros iter' Hwf'. apply (IHr _ _ _ _ HR); [cbn [height] in Hfuel; lia|done].
Qed.

(** One level of [_search_kdtree], given what [_explore_branch] does on the
    two children. *)
Lemma _search_kdtree_step t fuel k off depth search_space domain iter split l r :
  repr (node_data t) (points t) k off (KBranch split l r) ->
  (forall domain' iter', iter_wf iter' ->
     appends (_explore_branch (_search_kdtree fuel) t (Some (k + 1)) depth
                search_space domain' iter') iter'
       (explored search_space domain' l (reported (depth + 1) search_space domain' l))) ->
  (forall domain' iter', iter_wf iter' ->
     appends (_explore_branch (_search_kdtree fuel) t (Some (k + 1 + nnodes l)) depth
                search_space domain' iter') iter'
       (explored search_space domain' r (reported (depth + 1) search_space domain' r))) ->
  iter_wf iter ->
  appends (_search_kdtree (S fuel) t (Some k) depth search_space domain iter) iter
    (reported depth search_space domain (KBranch split l r)).
Proof.
  intros Hrepr Hl Hr Hwf. cbn [_search_kdtree]. cbv zeta. cbn [mbind option_bind].
  destruct (repr_node_branch _ _ _ _ _ _ _ Hrepr)
    as (nd & Hnd & _ & Hs & Hnl & Hnr & _ & _).
  rewrite Hnd. cbn [mbind option_bind]. rewrite Hs, Hnl, Hnr.
  cbn [reported]. cbv zeta.
  apply appends_bind; [now apply Hl|].
  intros iter' Hwf'. now apply Hr.
Qed.

Lemma _explore_branch_spec t search_space T : forall fuel k off depth domain iter,
  repr (node_data t) (points t) k off T ->
  (height T <= S fuel)%nat ->
  (height T <= N.to_nat (max_nodes t))%nat ->
  iter_wf iter ->
  appends (_explore_branch (_search_kdtree fuel) t (Some k) depth search_space domain iter)
    iter
    (explored search_space domain T (reported (depth + 1) search_space domain T)).
Proof.
  induction T as [p|split l IHl r IHr];
    intros fuel k off depth domain iter Hrepr Hfuel Hmax Hwf; unfold _explore_branch.
  - destruct (repr_node_leaf _ _ _ _ _ Hrepr) as (nd & Hnd & Hleaf & Hp).
    cbn [mbind option_bind]. rewrite Hnd. cbn [mbind option_bind].
    rewrite Hleaf, Hp. cbn [mbind option_bind explored].
    destruct (_point_in_search_space p search_space).
    + now apply appends_push.
    + now apply appends_nil.
  - destruct (repr_node_branch _ _ _ _ _ _ _ Hrepr)
      as (nd & Hnd & Hleaf & _ & _ & _ & HL & HR).
    cbn [mbind option_bind]. rewrite Hnd. cbn [mbind option_bind]. rewrite Hleaf.
    cbn [explored].
    destruct (_search_area_intersects search_space domain); [|now apply appends_nil].
    destruct (_completely_enclosed search_space domain).
    + now apply (_report_all_leaves_spec t _ _ _ _ _ Hrepr).
    + cbn [height] in Hfuel, Hmax. pose proof (height_pos l).
      destruct fuel as [|fuel]; [lia|].
      apply (_search_kdtree_step _ _ _ _ _ _ _ _ _ _ _ Hrepr); [| |done].
      * intros domain' iter' Hwf'. apply (IHl _ _ _ _ _ _ HL); [lia|lia|done].
      * intros domain' iter' Hwf'. apply (IHr _ _ _ _ _ _ HR); [lia|lia|done].
Qed.

(** The search of a tree held in the arena appends what [reported] lists. *)
Lemma _search_kdtree_spec t search_space fuel k off depth domain iter T :
  repr (node_data t) (points t) k off T -> is_branch T ->
  (height T <= fuel)%nat ->
  (height T <= N.to_nat (max_nodes t))%nat ->
  iter_wf iter ->
  appends (_search_kdtree fuel t (Some k) depth search_space domain iter) iter
    (reported depth search_space domain T).
Proof.
  intros Hrepr Hb Hfuel Hmax Hwf. destruct T as [p|split l r]; [done|].
  destruct fuel as [|fuel]; [simpl in Hfuel; lia|].
  destruct (repr_node_branch _ _ _ _ _ _ _ Hrepr)
    as (nd & Hnd & Hleaf & _ & _ & _ & HL & HR).
  cbn [height] in Hfuel, Hmax.
  apply (_search_kdtree_step _ _ _ _ _ _ _ _ _ _ _ Hrepr); [| |done].
  - intros domain' iter' Hwf'.
    apply (_explore_branch_spec _ _ _ _ _ _ _ _ _ HL); [lia|lia|done].
  - intros domain' iter' Hwf'.
    apply (_explore_branch_spec _ _ _ _ _ _ _ _ _ HR); [lia|lia|done].
Qed.

(** [kdtree_search_space] on a tree of two points or more in the arena. *)
Lemma kdtree_search_space_spec t T iter_ptr x_min x_max y_min y_max z_min z_max :
  repr (node_data t) (points t) 0 0 T -> root t = Some 0 -> is_branch T ->
  nnodes T <= max_nodes t ->
  iter_handle_ok iter_ptr ->
  exists iter,
    kdtree_search_space (Some t) iter_ptr x_min x_max y_min y_max z_min z_max = Some iter /\
    iter_wf iter /\ it_current iter = 0 /\
    contents iter =
      reported 0 (search_space_of x_min x_max y_min y_max z_min z_max) initial_domain T.
Proof.
  intros Hrepr Hroot Hb Hmax Hit. unfold kdtree_search_space. simpl.
  rewrite Hroot. simpl.
  destruct T as [p|split l r]; [done|].
  destruct (repr_node_branch _ _ _ _ _ _ _ Hrepr) as (nd & Hnd & Hleaf & _).
  rewrite Hnd. simpl. rewrite Hleaf.
  set (iter0 := match iter_ptr with Some i => _iterator_reset i | None => _iterator_new end).
  assert (iter_wf iter0 /\ contents iter0 = [] /\ it_current iter0 = 0) as (Hwf & Hc & Hcur).
  { subst iter0. destruct iter_ptr as [i|].
    - split; [now apply _iterator_reset_wf|done].
    - split; [apply _iterator_new_wf|done]. }
  pose proof (height_le_nnodes (KBranch split l r)) as Hh.
  destruct (_search_kdtree_spec t (search_space_of x_min x_max y_min y_max z_min z_max)
              (N.to_nat (max_nodes t)) 0 0 0 initial_domain iter0 _ Hrepr)
    as (iter & Hs & Hwf' & Hc' & Hcur'); [done|lia|lia|done|].
  exists iter. rewrite Hc in Hc'. split; [exact Hs|]. split; [done|].
  split; [congruence|done].
Qed.

End Search.

(** * Properties of the program *)

(** ** X19: the result of a search of finite points *)

Section SearchResult.
Context {libc : Libc}.

Lemma nleaves_is_branch T : 1 < nleaves T -> is_branch T.
Proof. destruct T; simpl; [lia|done]. Qed.

(** The tree of a build over finite points is in k-d order, inside the
    initial domain, and the search reports the points inside the box. *)
Lemma built_tree_search x y z n T t iter_ptr x_min x_max y_min y_max z_min z_max :
  1 < n -> arrays_hold x y z n ->
  Forall finite_point (point_set x y z n) ->
  build_subtree (N.to_nat n) 0 (point_set x y z n) = Some T ->
  nleaves T = n -> root t = Some 0 -> max_nodes t = (n - 1) * 2 + 1 ->
  repr (node_data t) (points t) 0 0 T ->
  iter_handle_ok iter_ptr ->
  exists iter,
    kdtree_search_space (Some t) iter_ptr x_min x_max y_min y_max z_min z_max = Some iter /\
    iter_wf iter /\ it_current iter = 0 /\
    contents iter =
      inside (search_space_of x_min x_max y_min y_max z_min z_max) (leaves T).
Proof.
  intros Hn Harr Hfin HT HnT Hroot Hmax Hrepr Hit.
  pose proof (nleaves_is_branch T ltac:(lia)) as Hb.
  pose proof (nnodes_nleaves T) as Hsz.
  destruct (kdtree_search_space_spec t T iter_ptr x_min x_max y_min y_max z_min z_max
              Hrepr Hroot Hb ltac:(lia) Hit) as (iter & Hs & Hwf & Hcur & Hc).
  exists iter. split; [done|]. split; [done|]. split; [done|]. rewrite Hc.
  pose proof (build_subtree_leaves _ _ _ _ HT) as Hperm.
  apply reported_inside; [|  |done].
  - eapply build_subtree_kd_ok; [|exact HT].
    eapply Forall_impl; [exact Hfin|]. apply finite_point_ordered.
  - rewrite Hperm. eapply Forall_impl; [exact Hfin|]. apply finite_in_initial_domain.
Qed.

Lemma inside_Permutation search_space l l' :
  l ≡ₚ l' -> inside search_space l ≡ₚ inside search_space l'.
Proof. intros H. unfold inside. now rewrite H. Qed.

(** [inside] over the point set, index by index. *)
Lemma elem_of_inside_point_set x y z n search_space i :
  arrays_hold x y z n ->
  i ∈ inside search_space (point_set x y z n) <->
  i < n /\ exists p, point_at x y z i = Some p /\
                     _point_in_search_space p search_space = true.
Proof.
  intros Harr. unfold inside. rewrite list_elem_of_fmap. split.
  - intros (p & -> & Hp). apply list_elem_of_filter in Hp as [Hin Hp].
    apply list_elem_of_lookup in Hp as [j Hj].
    pose proof (lookup_lt_Some _ _ _ Hj) as Hlt.
    rewrite length_point_set in Hlt by done.
    pose proof (cell_point_set x y z n (N.of_nat j) Harr ltac:(lia)) as Hc.
    unfold cell in Hc. rewrite Nat2N.id, Hj in Hc.
    destruct (point_at_Some x y z n (N.of_nat j) Harr ltac:(lia)) as (q & Hq & Hidx).
    assert (q = p) as -> by congruence.
    rewrite Hidx. split; [lia|]. eauto.
  - intros (Hi & p & Hp & Hin).
    destruct (point_at_Some x y z n i Harr Hi) as (q & Hq & Hidx).
    assert (q = p) as -> by congruence.
    exists p. split; [done|]. apply list_elem_of_filter. split; [done|].
    apply list_elem_of_lookup. exists (N.to_nat i).
    pose proof (cell_point_set x y z n i Harr Hi) as Hc. unfold cell in Hc. congruence.
Qed.

Lemma NoDup_inside_point_set x y z n search_space :
  arrays_hold x y z n -> NoDup (inside search_space (point_set x y z n)).
Proof.
  intros Harr. unfold inside.
  apply (sublist_NoDup _ (pt_idx <$> point_set x y z n)).
  - rewrite point_set_idx by done. apply NoDup_indices.
  - apply fmap_sublist, sublist_filter.
Qed.

(** Build, then search, on finite points. *)
Lemma build_search_finite x y z n tree_ptr iter_ptr
    x_min x_max y_min y_max z_min z_max :
  1 < n -> arrays_hold x y z n ->
  Forall finite_point (point_set x y z n) ->
  handle_ok tree_ptr -> iter_handle_ok iter_ptr ->
  exists t iter,
    kdtree_build x y z n tree_ptr = Some t /\
    kdtree_search_space (Some t) iter_ptr x_min x_max y_min y_max z_min z_max
      = Some iter /\
    it_current iter = 0 /\
    contents iter ≡ₚ
      inside (search_space_of x_min x_max y_min y_max z_min z_max) (point_set x y z n).
Proof.
  intros Hn Harr Hfin Hh Hit.
  destruct (kdtree_build_spec x y z n tree_ptr Hn Harr Hh) as
    (t & T & Hb & HT & (_ & _ & Hmax) & Hcount & _ & Hroot & HnT & Hrepr & _).
  rewrite Hcount in Hmax.
  destruct (built_tree_search x y z n T t iter_ptr x_min x_max y_min y_max z_min z_max
              Hn Harr Hfin HT HnT Hroot Hmax Hrepr Hit) as (iter & Hs & Hwf & Hcur & Hc).
  exists t, iter. split; [done|]. split; [done|]. split; [done|].
  rewrite Hc. apply inside_Permutation, (build_subtree_leaves _ _ _ _ HT).
Qed.

(** X19: for every point set of two or more points with finite
    coordinates, every tree handle, every iterator handle and every box,
    [kdtree_build] followed by [kdtree_search_space] leaves an iterator whose
    entries are, each once, the original indices [i] of the points that lie
    within the box on the three axes, bounds included: a coordinate that
    equals a bound passes the comparison with it. *)
Theorem kdtree_search_space_correct x y z n tree_ptr iter_ptr
    x_min x_max y_min y_max z_min z_max :
  1 < n -> arrays_hold x y z n ->
  Forall finite_point (point_set x y z n) ->
  handle_ok tree_ptr -> iter_handle_ok iter_ptr ->
  search_correct x y z n tree_ptr iter_ptr x_min x_max y_min y_max z_min z_max /\
  (forall t iter,
     kdtree_build x y z n tree_ptr = Some t ->
     kdtree_search_space (Some t) iter_ptr x_min x_max y_min y_max z_min z_max
       = Some iter ->
     it_current iter = 0 /\ NoDup (contents iter) /\
     forall i, i ∈ contents iter <->
       i < n /\ exists p, point_at x y z i = Some p /\
         dle (pt_x p) x_max = true /\ dge (pt_x p) x_min = true /\
         dle (pt_y p) y_max = true /\ dge (pt_y p) y_min = true /\
         dle (pt_z p) z_max = true /\ dge (pt_z p) z_min = true) /\
  (forall a, finite_double a = true -> dle a a = true /\ dge a a = true).
Proof.
  intros Hn Harr Hfin Hh Hit.
  destruct (build_search_finite x y z n tree_ptr iter_ptr
              x_min x_max y_min y_max z_min z_max Hn Harr Hfin Hh Hit)
    as (t & iter & Hb & Hs & Hcur & Hperm).
  split; [exists t, iter; done|]. split.
  - intros t' iter' Hb' Hs'. rewrite Hb in Hb'. injection Hb' as <-.
    rewrite Hs in Hs'. injection Hs' as <-.
    split; [done|]. split.
    + rewrite Hperm. now apply NoDup_inside_point_set.
    + intros i. rewrite Hperm, elem_of_inside_point_set by done.
      unfold _point_in_search_space. simpl.
      split; intros (Hi & p & Hp & Hin); (split; [done|]); exists p; (split; [done|]).
      * rewrite !andb_true_iff in Hin. tauto.
      * rewrite !andb_true_iff. tauto.
  - intros a Ha. apply finite_double_ordered in Ha. now split.
Qed.

End SearchResult.

(** ** C2: the nodes of the built tree *)

Section Nodes.
Context {libc : Libc}.

Lemma slice_add {A} (l : list A) k a b :
  slice l k (a + b) = slice l k a ++ slice l (k + a) b.
Proof.
  unfold slice. rewrite !N2Nat.inj_add, <- take_take_drop, drop_drop. done.
Qed.



End Nodes.

(** ** C3 and C5: the builder *)

Section MedianSplit.
Context {libc : Libc}.

Lemma StronglySorted_impl_in {A} (R R' : relation A) l :
  (forall a b, a ∈ l -> b ∈ l -> R a b -> R' a b) ->
  StronglySorted R l -> StronglySorted R' l.
Proof.
  intros HR Hs. induction Hs as [|a l Hs IH Ha]; [constructor|].
  constructor.
  - apply IH. intros x y Hx Hy. apply HR; now right.
  - rewrite Forall_forall in Ha |- *. intros b Hb.
    apply HR; [left|now right|now apply Ha].
Qed.

(** On points without a NaN, [qsort] with the routine of an axis leaves the
    points in ascending order of their coordinate on that axis. *)
Lemma qsort_by_axis axis seg :
  Forall ordered_point seg ->
  StronglySorted (fun a b => dle (coord axis a) (coord axis b) = true)
    (qsort (func_select axis) seg).
Proof.
  intros Hord.
  apply (StronglySorted_impl_in (fun a b => (func_select axis a b <= 0)%Z)).
  - assert (Forall ordered_point (qsort (func_select axis) seg)) as Hs
      by now rewrite qsort_perm.
    rewrite Forall_forall in Hs. intros a b Ha Hb. apply func_select_le; auto.
  - apply qsort_sorted. now apply func_select_consistent.
Qed.

(** C3: over every sub-range [[idx_from, idx_to]] of the point cache and at
    every depth the builder works on the axis [depth mod 3]; one point
    gives a leaf that references its slot; otherwise the sub-range is
    sorted in place on that axis, [mid = idx_from + (idx_to - idx_from) / 2]
    is the lower median, the coordinate of the point then at [mid] is the
    split value, the left subtree is built over [[idx_from, mid]] and the
    right one over [[mid + 1, idx_to]] one level deeper, and the two halves
    differ by one point at most.  The depth is a [size_t]: the statement is
    for the depths from which the levels of the subtree stay at or below
    [SIZE_MAX], where no [depth + 1] of the recursion wraps around (the
    call of [kdtree_build] starts at depth 0). *)
Theorem _build_kdtree_median_split fuel idx_from idx_to depth t :
  idx_from <= idx_to ->
  depth + (idx_to - idx_from) <= SIZE_MAX ->
  idx_to < N.of_nat (length (points t)) ->
  (N.to_nat (idx_to - idx_from) <= fuel)%nat ->
  next_node t + (2 * (idx_to - idx_from + 1) - 1) <= max_nodes t ->
  max_nodes t <= N.of_nat (length (node_data t)) ->
  let n := idx_to - idx_from + 1 in
  let mid := idx_from + (idx_to - idx_from) / 2 in
  let axis := axis_of depth in
  let seg := slice (points t) idx_from n in
  exists t' T,
    _build_kdtree (S fuel) idx_from idx_to depth t = Some (next_node t, t') /\
    built t t' idx_from idx_to T /\
    depth + N.of_nat (height T) <= SIZE_MAX + 1 /\
    axis = match depth mod 3 with 0 => DIM_X | 1 => DIM_Y | _ => DIM_Z end /\
    (idx_from = idx_to ->
       exists p, cell (points t) idx_from = Some p /\ T = KLeaf p) /\
    (idx_from < idx_to ->
       let sorted := qsort (func_select axis) seg in
       depth + 1 <= SIZE_MAX /\
       exists point l r,
         points t' ≡ₚ points t /\
         sorted ≡ₚ seg /\
         (Forall ordered_point seg ->
          StronglySorted (fun a b => dle (coord axis a) (coord axis b) = true) sorted) /\
         sorted !! N.to_nat (mid - idx_from) = Some point /\
         T = KBranch (coord axis point) l r /\
         build_subtree fuel (depth + 1) (take (N.to_nat (mid - idx_from + 1)) sorted)
           = Some l /\
         build_subtree fuel (depth + 1) (drop (N.to_nat (mid - idx_from + 1)) sorted)
           = Some r /\
         nleaves l = mid - idx_from + 1 /\ nleaves r = idx_to - mid /\
         nleaves r <= nleaves l <= nleaves r + 1).
Proof.
  intros Hle Hdepth Hto Hfuel Hroom Hmax n mid axis seg.
  destruct (_build_kdtree_refines (S fuel) idx_from idx_to depth t) as
    (t' & T & Hb & HT & Hbuilt); [done|done|lia|done|done|].
  fold n seg in HT.
  exists t', T. split; [done|]. split; [done|].
  assert (length seg = N.to_nat n) as Hlen by (apply length_slice; lia).
  split.
  { pose proof (height_le_nleaves T) as Hh.
    rewrite (build_subtree_nleaves _ _ _ _ HT), Hlen in Hh. subst n. lia. }
  split; [done|].
  split.
  - intros ->. destruct (cell_lt_Some (points t) idx_to Hto) as [p Hp].
    exists p. split; [done|].
    subst seg n. replace (idx_to - idx_to + 1) with 1 in HT by lia.
    rewrite (slice_1 _ _ _ Hp) in HT. simpl in HT. congruence.
  - intros Hlt sorted. split; [lia|].
    rewrite build_subtree_branch in HT by lia. cbv zeta in HT.
    fold axis sorted in HT.
    replace ((length seg - 1) / 2)%nat with (N.to_nat (mid - idx_from)) in HT
      by (subst mid; lia).
    destruct (sorted !! N.to_nat (mid - idx_from)) as [point|] eqn:Hpoint; [|done].
    simpl in HT.
    replace (S (N.to_nat (mid - idx_from))) with (N.to_nat (mid - idx_from + 1)) in HT
      by lia.
    destruct (build_subtree fuel (depth + 1) (take _ sorted)) as [l|] eqn:Hl; [|done].
    destruct (build_subtree fuel (depth + 1) (drop _ sorted)) as [r|] eqn:Hr; [|done].
    simpl in HT. injection HT as <-.
    assert (length sorted = N.to_nat n) as Hslen
      by (subst sorted; now rewrite qsort_length).
    pose proof (build_subtree_nleaves _ _ _ _ Hl) as Hnl.
    pose proof (build_subtree_nleaves _ _ _ _ Hr) as Hnr.
    rewrite length_take in Hnl. rewrite length_drop in Hnr.
    exists point, l, r.
    split.
    { destruct Hbuilt as (_ & _ & _ & _ & Hplen & _ & Hout & _ & Hrepr).
      apply repr_leaves in Hrepr. cbn [nleaves leaves] in Hrepr.
      replace (nleaves l + nleaves r) with n in Hrepr by (subst n mid; lia).
      rewrite <- (take_drop (N.to_nat idx_from) (points t')).
      rewrite <- (take_drop (N.to_nat idx_from) (points t)).
      rewrite <- (take_drop (N.to_nat n) (drop (N.to_nat idx_from) (points t'))).
      rewrite <- (take_drop (N.to_nat n) (drop (N.to_nat idx_from) (points t))).
      fold (slice (points t') idx_from n). fold (slice (points t) idx_from n).
      fold seg. rewrite Hrepr.
      replace (take (N.to_nat idx_from) (points t'))
        with (take (N.to_nat idx_from) (points t)).
      2:{ rewrite <- !slice_0. symmetry. apply slice_ext; [done|].
          intros j Hj. apply Hout. lia. }
      replace (drop (N.to_nat n) (drop (N.to_nat idx_from) (points t')))
        with (drop (N.to_nat n) (drop (N.to_nat idx_from) (points t))).
      2:{ rewrite !drop_drop. apply list_eq. intros j. rewrite !lookup_drop.
          specialize (Hout (N.of_nat (N.to_nat idx_from + N.to_nat n + j))).
          unfold cell in Hout. rewrite Nat2N.id in Hout. symmetry. apply Hout. lia. }
      apply Permutation_app_head, Permutation_app_tail.
      rewrite (build_subtree_leaves _ _ _ _ Hl), (build_subtree_leaves _ _ _ _ Hr).
      rewrite take_drop. apply qsort_perm. }
    split; [apply qsort_perm|].
    split; [apply qsort_by_axis|].
    repeat split; try done; subst n mid; lia.
Qed.

(** C5: a build of [n >= 2] points takes exactly [2n - 1] nodes from an
    arena of [max_nodes = 2n - 1] slots: the build runs to its end, which it
    would not had the assertion [next_node < max_nodes] failed in a call of
    [_next_node] (the only way [_next_node] stops), and the cursor ends at
    the capacity. *)
Theorem kdtree_build_arena x y z n tree_ptr :
  1 < n -> arrays_hold x y z n -> handle_ok tree_ptr ->
  exists t,
    kdtree_build x y z n tree_ptr = Some t /\
    max_nodes t = 2 * n - 1 /\
    N.of_nat (length (node_data t)) = max_nodes t /\
    next_node t = max_nodes t /\
    (forall t', _next_node t' = None <-> ~ next_node t' < max_nodes t').
Proof.
  intros Hn Harr Hh.
  destruct (kdtree_build_spec x y z n tree_ptr Hn Harr Hh) as
    (t & T & Hb & _ & (_ & Hlen & Hmax) & Hcount & Hnext & _).
  exists t. split; [done|]. split; [lia|]. split; [done|]. split; [done|].
  intros t'. rewrite _next_node_None. lia.
Qed.

End MedianSplit.

(** ** X20: the domains of a search of finite points *)

Section Domains.
Context {libc : Libc}.

(** A point under a node is a leaf of the tree the arena holds there. *)
Lemma under_repr t T : forall node off p,
  repr (node_data t) (points t) node off T -> under t node p -> p ∈ leaves T.
Proof.
  induction T as [q|split l IHl r IHr]; intros node off p Hrepr Hu.
  - destruct (repr_node_leaf _ _ _ _ _ Hrepr) as (nd & Hnd & Hleaf & Hq).
    inversion Hu; simplify_option_eq; [left|leaf_clash|leaf_clash].
  - destruct (repr_node_branch _ _ _ _ _ _ _ Hrepr)
      as (nd & Hnd & Hleaf & _ & Hl & Hr & HL & HR).
    simpl. apply elem_of_app.
    inversion Hu; simplify_option_eq; [leaf_clash| |].
    + left. eapply IHl; eauto.
    + right. eapply IHr; eauto.
Qed.




End Domains.

(** ** The log of a search *)

Section LoggedSearchFacts.
Context {libc : Libc}.

Lemma _explore_branch_logged_fst t search search' node depth ss domain iter log :
  (forall node depth domain iter log,
     fst <$> search' t node depth ss domain (iter, log) =
     search t node depth ss domain iter) ->
  fst <$> _explore_branch_logged search' t node depth ss domain (iter, log) =
  _explore_branch search t node depth ss domain iter.
Proof.
  intros Hs. unfold _explore_branch_logged, _explore_branch.
  destruct node as [p|]; [|done]. cbn [mbind option_bind fst snd].
  destruct (cell (node_data t) p) as [nd|]; [|done]. cbn [mbind option_bind].
  destruct (_is_leaf_node nd).
  - destruct (cell (points t) (nd_idx nd)) as [point|]; [|done]. cbn [mbind option_bind].
    destruct (_point_in_search_space point ss); [|done].
    now destruct (_iterator_push iter (pt_idx point)).
  - destruct (_search_area_intersects ss domain); [|done].
    destruct (_completely_enclosed ss domain); [|apply Hs].
    now destruct (_report_all_leaves _ t (Some p) iter).
Qed.

(** Dropping the log gives [_search_kdtree] back. *)
Lemma _search_kdtree_logged_fst t ss fuel : forall node depth domain iter log,
  fst <$> _search_kdtree_logged fuel t node depth ss domain (iter, log) =
  _search_kdtree fuel t node depth ss domain iter.
Proof.
  induction fuel as [|fuel IH]; intros node depth domain iter log; [done|].
  cbn [_search_kdtree_logged _search_kdtree]. cbv zeta.
  destruct node as [r|]; [|done]. cbn [mbind option_bind fst snd].
  destruct (cell (node_data t) r) as [nd|]; [|done]. cbn [mbind option_bind].
  pose proof (_explore_branch_logged_fst t (_search_kdtree fuel) (_search_kdtree_logged fuel)
                (nd_left nd) depth ss (set_max domain (axis_of depth) (nd_split nd)) iter
                (log ++ [(SEARCH_KDTREE, r, depth, domain)]) IH) as Hl.
  destruct (_explore_branch_logged _ t (nd_left nd) _ _ _ _) as [[iter1 log1]|];
    cbn [fmap option_fmap option_map fst] in Hl; rewrite <- Hl; [|done].
  cbn [mbind option_bind].
  apply (_explore_branch_logged_fst t (_search_kdtree fuel) (_search_kdtree_logged fuel)), IH.
Qed.

Lemma kdtree_search_space_logged_fst tree iter_ptr x_min x_max y_min y_max z_min z_max :
  fst <$> kdtree_search_space_logged tree iter_ptr x_min x_max y_min y_max z_min z_max =
  kdtree_search_space tree iter_ptr x_min x_max y_min y_max z_min z_max.
Proof.
  unfold kdtree_search_space_logged, kdtree_search_space.
  destruct tree as [t|]; [|done]. cbn [mbind option_bind].
  destruct (root t) as [r|]; [|done]. cbn [mbind option_bind].
  destruct (cell (node_data t) r) as [nd|]; [|done]. cbn [mbind option_bind].
  destruct (_is_leaf_node nd); [done|]. apply _search_kdtree_logged_fst.
Qed.




End LoggedSearchFacts.

Section LoggedDomains.
Context {libc : Libc}.


End LoggedDomains.

(** ** C7: the cube search *)

Section Cube.
Context {libc : Libc}.

(** C7: for every tree, centre [(x, y, z)] and apothem [a >= 0],
    [kdtree_search] gives what [kdtree_search_space] gives on the box
    [x-a, x+a] x [y-a, y+a] x [z-a, z+a]. *)
Theorem kdtree_search_is_box_search tree iter_ptr (x y z apothem : double) :
  dge apothem 0 = true ->
  kdtree_search tree iter_ptr x y z apothem =
  kdtree_search_space tree iter_ptr
    (x - apothem) (x + apothem) (y - apothem) (y + apothem)
    (z - apothem) (z + apothem).
Proof. intros H. unfold kdtree_search. now rewrite H. Qed.

End Cube.

(** ** C8: consuming an iterator *)

Section Consume.

Lemma get_next_n_slice iter k : forall c,
  N.of_nat (length (it_data iter)) = it_capacity iter ->
  it_size iter <= it_capacity iter ->
  c + N.of_nat k <= it_size iter ->
  get_next_n k (set_current iter c) =
    Some (slice (it_data iter) c (N.of_nat k), set_current iter (c + N.of_nat k)).
Proof.
  induction k as [|k IH]; intros c Hlen Hsz Hc.
  - simpl. rewrite N.add_0_r. done.
  - cbn [get_next_n]. unfold kdtree_iterator_get_next. simpl.
    destruct (N.eqb_spec c (it_size iter)) as [E|E]; [lia|].
    destruct (cell_lt_Some (it_data iter) c) as [v Hv]; [lia|].
    rewrite Hv. simpl.
    change {| it_data := it_data iter; it_capacity := it_capacity iter;
              it_size := it_size iter; it_current := c + 1 |}
      with (set_current iter (c + 1)).
    rewrite IH by lia. simpl.
    replace (N.of_nat (S k)) with (1 + N.of_nat k) by lia.
    rewrite slice_add, (slice_1 _ _ _ Hv), N.add_assoc. done.
Qed.

Lemma get_next_n_end iter k :
  it_current iter = it_size iter ->
  get_next_n k iter = Some (replicate k KDTREE_END, iter).
Proof.
  intros H. induction k as [|k IH]; [done|].
  cbn [get_next_n]. unfold kdtree_iterator_get_next.
  apply N.eqb_eq in H as ->. simpl. rewrite IH. done.
Qed.

(** C8: [kdtree_iterator_get_next] returns the entry at the cursor and
    moves the cursor by one; once the cursor has reached the size it
    returns [KDTREE_END] and leaves the iterator as it is, however often
    it is called; [kdtree_iterator_rewind] sets the cursor to 0 and keeps
    the buffer, the size and the capacity, so that the entries are read
    again from the first one, in the same sequence. *)
Theorem kdtree_iterator_next_rewind iter :
  iter_wf iter ->
  (it_current iter <> it_size iter ->
     exists v, cell (it_data iter) (it_current iter) = Some v /\
       kdtree_iterator_get_next iter = Some (v, set_current iter (it_current iter + 1))) /\
  (it_current iter = it_size iter ->
     forall k, get_next_n k iter = Some (replicate k KDTREE_END, iter)) /\
  (let r := kdtree_iterator_rewind iter in
   it_current r = 0 /\ it_data r = it_data iter /\
   it_size r = it_size iter /\ it_capacity r = it_capacity iter /\
   get_next_n (N.to_nat (it_size iter)) r =
     Some (contents iter, set_current iter (it_size iter)) /\
   forall k, get_next_n k (set_current iter (it_size iter)) =
     Some (replicate k KDTREE_END, set_current iter (it_size iter))).
Proof.
  intros (Hlen & Hpos & Hsz & Hcur). split; [|split].
  - intros Hne. destruct (cell_lt_Some (it_data iter) (it_current iter)) as [v Hv]; [lia|].
    exists v. split; [done|]. unfold kdtree_iterator_get_next.
    apply N.eqb_neq in Hne as ->. rewrite Hv. done.
  - intros He k. now apply get_next_n_end.
  - cbv zeta. repeat split.
    + change (kdtree_iterator_rewind iter) with (set_current iter 0).
      rewrite (get_next_n_slice iter (N.to_nat (it_size iter)) 0) by lia.
      unfold contents. rewrite N.add_0_l, N2Nat.id. done.
    + intros k. now apply get_next_n_end.
Qed.

End Consume.

(** ** C9: searching twice *)

Section Repeat.
Context {libc : Libc}.

(** C9: two consecutive searches of the same box against the same tree
    leave the same sequence of indices in the iterator (the second search
    reuses the iterator of the first); so does a search that starts from
    any other iterator. *)
Theorem kdtree_search_space_repeatable x y z n tree_ptr iter_ptr iter_ptr'
    x_min x_max y_min y_max z_min z_max :
  1 < n -> arrays_hold x y z n -> handle_ok tree_ptr ->
  iter_handle_ok iter_ptr -> iter_handle_ok iter_ptr' ->
  exists t iter1 iter1' iter2,
    kdtree_build x y z n tree_ptr = Some t /\
    kdtree_search_space (Some t) iter_ptr x_min x_max y_min y_max z_min z_max
      = Some iter1 /\
    kdtree_search_space (Some t) iter_ptr' x_min x_max y_min y_max z_min z_max
      = Some iter1' /\
    kdtree_search_space (Some t) (Some iter1) x_min x_max y_min y_max z_min z_max
      = Some iter2 /\
    contents iter1' = contents iter1 /\
    contents iter2 = contents iter1 /\
    it_current iter2 = 0.
Proof.
  intros Hn Harr Hh Hit Hit'.
  destruct (kdtree_build_spec x y z n tree_ptr Hn Harr Hh) as
    (t & T & Hb & HT & (_ & _ & Hmax) & Hcount & _ & Hroot & HnT & Hrepr & _).
  pose proof (nleaves_is_branch T ltac:(lia)) as Hbr.
  pose proof (nnodes_nleaves T) as Hsz.
  destruct (kdtree_search_space_spec t T iter_ptr x_min x_max y_min y_max z_min z_max
              Hrepr Hroot Hbr ltac:(lia) Hit) as (iter1 & Hs1 & Hwf1 & Hcur1 & Hc1).
  destruct (kdtree_search_space_spec t T iter_ptr' x_min x_max y_min y_max z_min z_max
              Hrepr Hroot Hbr ltac:(lia) Hit') as (iter1' & Hs1' & Hwf1' & Hcur1' & Hc1').
  destruct (kdtree_search_space_spec t T (Some iter1) x_min x_max y_min y_max z_min z_max
              Hrepr Hroot Hbr ltac:(lia) Hwf1) as (iter2 & Hs2 & Hwf2 & Hcur2 & Hc2).
  exists t, iter1, iter1', iter2. repeat split; try done; congruence.
Qed.


End Repeat.

(** ** X19 and C1 on the example inputs *)

Lemma test_points_finite : Forall finite_point (point_set test_x test_y test_z 11).
Proof. apply (bool_decide_unpack _). vm_compute. exact I. Qed.

Lemma test_arrays_hold : arrays_hold test_x test_y test_z 11.
Proof. unfold arrays_hold. simpl. lia. Qed.

(** The top slice of run_test.c: the box [0,1] x [0.5,1] x [0,1]. *)
Lemma kdtree_search_space_correct_witness :
  1 < 11 /\ arrays_hold test_x test_y test_z 11 /\
  Forall finite_point (point_set test_x test_y test_z 11) /\
  handle_ok None /\ iter_handle_ok None /\
  search_correct test_x test_y test_z 11 None None 0 1 0.5 1 0 1.
Proof.
  split; [lia|]. split; [exact test_arrays_hold|]. split; [exact test_points_finite|].
  split; [exact I|]. split; [exact I|].
  apply (kdtree_search_space_correct test_x test_y test_z 11 None None 0 1 0.5 1 0 1);
    [lia|exact test_arrays_hold|exact test_points_finite|exact I|exact I].
Defined.

(** C1: the search of the four points with x = 0, 1, 2, +infinity and
    y = z = 0 for the box that spans [-DBL_MAX, DBL_MAX] on the three axes
    leaves the indices 0, 1, 2, 3 in the iterator.  The point of index 3
    fails the test of [_point_in_search_space] against this box, and the
    indices of the points inside the box are 0, 1, 2.  The same point is
    left out where it is reached on the leaf path: the search of the two
    points with x = 0, +infinity for the same box leaves index 0 alone. *)
Lemma kdtree_search_space_reports_infinite_point :
  kdtree_build far_x zero4 zero4 4 None = Some far_tree /\
  (exists iter,
     kdtree_search_space (Some far_tree) None
       (- DBL_MAX) DBL_MAX (- DBL_MAX) DBL_MAX (- DBL_MAX) DBL_MAX = Some iter /\
     contents iter = [0; 1; 2; 3]) /\
  point_at far_x zero4 zero4 3 = Some far_point /\
  _point_in_search_space far_point
    (search_space_of (- DBL_MAX) DBL_MAX (- DBL_MAX) DBL_MAX (- DBL_MAX) DBL_MAX) = false /\
  inside (search_space_of (- DBL_MAX) DBL_MAX (- DBL_MAX) DBL_MAX (- DBL_MAX) DBL_MAX)
    (point_set far_x zero4 zero4 4) = [0; 1; 2] /\
  ~ search_correct far_x zero4 zero4 4 None None
      (- DBL_MAX) DBL_MAX (- DBL_MAX) DBL_MAX (- DBL_MAX) DBL_MAX /\
  exists t iter,
    kdtree_build far2_x zero2 zero2 2 None = Some t /\
    kdtree_search_space (Some t) None
      (- DBL_MAX) DBL_MAX (- DBL_MAX) DBL_MAX (- DBL_MAX) DBL_MAX = Some iter /\
    contents iter = [0].
Proof.
  split; [vm_compute; reflexivity|]. split.
  { eexists. split; [vm_compute; reflexivity|]. vm_compute. reflexivity. }
  split; [vm_compute; reflexivity|]. split; [vm_compute; reflexivity|].
  split; [vm_compute; reflexivity|]. split.
  { intros (t & iter & Hb & Hs & Hperm).
    vm_compute in Hb. injection Hb as <-.
    vm_compute in Hs. injection Hs as <-.
    apply Permutation_length in Hperm. vm_compute in Hperm. discriminate. }
  eexists _, _. split; [vm_compute; reflexivity|].
  split; [vm_compute; reflexivity|]. vm_compute. reflexivity.
Qed.

(** ** The remaining properties on the example inputs *)

Lemma near_tree_wf : tree_wf near_tree /\ count near_tree = 4.
Proof. unfold tree_wf. vm_compute. tauto. Qed.

Lemma near_arrays_hold : arrays_hold zero4 near_x zero4 4.
Proof. unfold arrays_hold. simpl. lia. Qed.

Lemma near_points_finite : Forall finite_point (point_set zero4 near_x zero4 4).
Proof. apply (bool_decide_unpack _). vm_compute. exact I. Qed.


Lemma _build_kdtree_median_split_witness :
  0 <= 10 /\ 0 + (10 - 0) <= SIZE_MAX /\
  10 < N.of_nat (length (points test_cached)) /\
  (N.to_nat (10 - 0) <= 10)%nat /\
  next_node test_cached + (2 * (10 - 0 + 1) - 1) <= max_nodes test_cached /\
  max_nodes test_cached <= N.of_nat (length (node_data test_cached)) /\
  exists t' T,
    _build_kdtree 11 0 10 0 test_cached = Some (next_node test_cached, t') /\
    built test_cached t' 0 10 T.
Proof.
  assert (0 <= 10) as H1 by lia.
  assert (0 + (10 - 0) <= SIZE_MAX) as H0 by (unfold SIZE_MAX; lia).
  assert (10 < N.of_nat (length (points test_cached))) as H2 by (vm_compute; reflexivity).
  assert (N.to_nat (10 - 0) <= 10)%nat as H3 by (simpl; lia).
  assert (next_node test_cached + (2 * (10 - 0 + 1) - 1) <= max_nodes test_cached) as H4
    by (vm_compute; discriminate).
  assert (max_nodes test_cached <= N.of_nat (length (node_data test_cached))) as H5
    by (vm_compute; discriminate).
  repeat (split; [assumption|]).
  destruct (_build_kdtree_median_split 10 0 10 0 test_cached H1 H0 H2 H3 H4 H5)
    as (t' & T & Hb & Hbuilt & _).
  exists t', T. split; assumption.
Defined.


(** C4: in the search of the tree of the four points with x = 0, 1, 2,
    +infinity and y = z = 0 for the box that spans [-DBL_MAX, DBL_MAX] on
    the three axes, [_explore_branch] is called on the right child of the
    root, arena slot 4, with the domain [1, DBL_MAX] on the x axis.  The
    point with x = +infinity lies under this node and outside this domain;
    the box encloses the domain, the point fails the test of
    [_point_in_search_space] against the box, and the search reports its
    index, 3. *)
Lemma search_domain_misses_infinite_point :
  kdtree_build far_x zero4 zero4 4 None = Some far_tree /\
  exists iter log,
    kdtree_search_space_logged (Some far_tree) None
      (- DBL_MAX) DBL_MAX (- DBL_MAX) DBL_MAX (- DBL_MAX) DBL_MAX = Some (iter, log) /\
    kdtree_search_space (Some far_tree) None
      (- DBL_MAX) DBL_MAX (- DBL_MAX) DBL_MAX (- DBL_MAX) DBL_MAX = Some iter /\
    (EXPLORE_BRANCH, 4, 0, right_domain initial_domain DIM_X 1%float) ∈ log /\
    under far_tree 4 far_point /\
    ~ in_space (right_domain initial_domain DIM_X 1%float) far_point /\
    ~ log_domains_bound far_tree log /\
    _completely_enclosed
      (search_space_of (- DBL_MAX) DBL_MAX (- DBL_MAX) DBL_MAX (- DBL_MAX) DBL_MAX)
      (right_domain initial_domain DIM_X 1%float) = true /\
    _point_in_search_space far_point
      (search_space_of (- DBL_MAX) DBL_MAX (- DBL_MAX) DBL_MAX (- DBL_MAX) DBL_MAX)
      = false /\
    contents iter = [0; 1; 2; 3].
Proof.
  split; [vm_compute; reflexivity|].
  assert (under far_tree 4 far_point) as Hu.
  { eapply (under_right _ 4
              {| nd_left := Some 5; nd_right := Some 6; nd_split := 0; nd_idx := 0 |} 6);
      [reflexivity|reflexivity|reflexivity|].
    eapply (under_leaf _ 6
              {| nd_left := NULL; nd_right := NULL; nd_split := nan; nd_idx := 3 |});
      reflexivity. }
  assert (~ in_space (right_domain initial_domain DIM_X 1%float) far_point) as Hout.
  { intros H. destruct (H DIM_X) as [_ Hmax]. vm_compute in Hmax. discriminate. }
  destruct (kdtree_search_space_logged (Some far_tree) None
              (- DBL_MAX) DBL_MAX (- DBL_MAX) DBL_MAX (- DBL_MAX) DBL_MAX)
    as [[iter log]|] eqn:Hl; [|vm_compute in Hl; discriminate].
  assert ((EXPLORE_BRANCH, 4, 0, right_domain initial_domain DIM_X 1%float) ∈ log) as Hin.
  { vm_compute in Hl. injection Hl as _ <-.
    repeat first [apply list_elem_of_here | apply list_elem_of_further]. }
  exists iter, log. split; [reflexivity|]. split.
  { rewrite <- kdtree_search_space_logged_fst, Hl. reflexivity. }
  split; [exact Hin|]. split; [exact Hu|]. split; [exact Hout|]. split.
  { intros H. exact (Hout (H _ _ _ _ _ Hin Hu)). }
  split; [reflexivity|]. split; [reflexivity|].
  vm_compute in Hl. injection Hl as <- _. reflexivity.
Qed.

Lemma kdtree_build_arena_witness :
  1 < 11 /\ arrays_hold test_x test_y test_z 11 /\ handle_ok None /\
  exists t,
    kdtree_build test_x test_y test_z 11 None = Some t /\
    max_nodes t = 21 /\ next_node t = max_nodes t.
Proof.
  split; [lia|]. split; [exact test_arrays_hold|]. split; [exact I|].
  destruct (kdtree_build_arena test_x test_y test_z 11 None)
    as (t & Hb & Hm & _ & Hn & _); [lia|exact test_arrays_hold|exact I|].
  exists t. repeat split; assumption.
Defined.

(** C6: the tree of the four points with x = 0, 1, 2, 3 is rebuilt, through
    its handle, for the points with x = 0, 1, 2, +infinity (y = z = 0 in
    both).  The build leaves the tree that a build from [NULL] leaves, and
    the search of it for the box that spans [-DBL_MAX, DBL_MAX] on the three
    axes leaves the indices 0, 1, 2, 3 in the iterator, where the indices
    of the new points inside the box are 0, 1, 2. *)
Lemma kdtree_rebuild_reports_infinite_point :
  kdtree_build near_x zero4 zero4 4 None = Some near_tree /\
  tree_wf near_tree /\ count near_tree = 4 /\
  kdtree_build far_x zero4 zero4 4 (Some near_tree) = Some far_tree /\
  kdtree_build far_x zero4 zero4 4 None = Some far_tree /\
  (exists iter,
     kdtree_search_space (Some far_tree) None
       (- DBL_MAX) DBL_MAX (- DBL_MAX) DBL_MAX (- DBL_MAX) DBL_MAX = Some iter /\
     contents iter = [0; 1; 2; 3]) /\
  inside (search_space_of (- DBL_MAX) DBL_MAX (- DBL_MAX) DBL_MAX (- DBL_MAX) DBL_MAX)
    (point_set far_x zero4 zero4 4) = [0; 1; 2] /\
  ~ search_correct far_x zero4 zero4 4 (Some near_tree) None
      (- DBL_MAX) DBL_MAX (- DBL_MAX) DBL_MAX (- DBL_MAX) DBL_MAX.
Proof.
  split; [vm_compute; reflexivity|].
  split; [exact (proj1 near_tree_wf)|]. split; [exact (proj2 near_tree_wf)|].
  split; [vm_compute; reflexivity|]. split; [vm_compute; reflexivity|]. split.
  { eexists. split; [vm_compute; reflexivity|]. vm_compute. reflexivity. }
  split; [vm_compute; reflexivity|].
  intros (t & iter & Hb & Hs & Hperm).
  vm_compute in Hb. injection Hb as <-.
  vm_compute in Hs. injection Hs as <-.
  apply Permutation_length in Hperm. vm_compute in Hperm. discriminate.
Qed.

Lemma kdtree_search_is_box_search_witness :
  dge 0.5 0 = true /\
  kdtree_search (Some test_tree) None 0.5 0.5 0 0.5 =
  kdtree_search_space (Some test_tree) None
    (0.5 - 0.5) (0.5 + 0.5) (0.5 - 0.5) (0.5 + 0.5) (0 - 0.5) (0 + 0.5).
Proof.
  split; [reflexivity|].
  apply (kdtree_search_is_box_search (Some test_tree) None 0.5 0.5 0 0.5). reflexivity.
Defined.

Lemma test_iter_wf : iter_wf test_iter.
Proof. unfold iter_wf. simpl. lia. Qed.

Lemma kdtree_iterator_next_rewind_witness :
  iter_wf test_iter /\
  kdtree_iterator_get_next test_iter = Some (0, set_current test_iter 2) /\
  get_next_n 3 (kdtree_iterator_rewind test_iter) =
    Some ([3; 0; 7], set_current test_iter 3) /\
  get_next_n 2 (set_current test_iter 3) =
    Some ([KDTREE_END; KDTREE_END], set_current test_iter 3).
Proof.
  split; [exact test_iter_wf|].
  destruct (kdtree_iterator_next_rewind test_iter test_iter_wf)
    as (Hnext & _ & _ & _ & _ & _ & Hall & Hend).
  split; [|split].
  - destruct Hnext as (v & Hv & Hn); [discriminate|].
    injection Hv as <-. exact Hn.
  - exact Hall.
  - exact (Hend 2%nat).
Defined.

Lemma kdtree_search_space_repeatable_witness :
  1 < 11 /\ arrays_hold test_x test_y test_z 11 /\ handle_ok None /\
  iter_handle_ok None /\ iter_handle_ok (Some test_iter) /\
  exists t iter1 iter1' iter2,
    kdtree_build test_x test_y test_z 11 None = Some t /\
    kdtree_search_space (Some t) None 0 1 0.5 1 0 1 = Some iter1 /\
    kdtree_search_space (Some t) (Some test_iter) 0 1 0.5 1 0 1 = Some iter1' /\
    kdtree_search_space (Some t) (Some iter1) 0 1 0.5 1 0 1 = Some iter2 /\
    contents iter1' = contents iter1 /\
    contents iter2 = contents iter1 /\
    it_current iter2 = 0.
Proof.
  split; [lia|]. split; [exact test_arrays_hold|]. split; [exact I|].
  split; [exact I|]. split; [exact test_iter_wf|].
  apply (kdtree_search_space_repeatable test_x test_y test_z 11 None None (Some test_iter));
    [lia|exact test_arrays_hold|exact I|exact I|exact test_iter_wf].
Defined.

(** * Further properties of the program *)

(** ** Growth of the iterator *)

Section IteratorGrowth.
Context {libc : Libc}.

Lemma length_contents iter :
  iter_wf iter -> N.of_nat (length (contents iter)) = it_size iter.
Proof.
  intros (Hlen & Hpos & Hsz & Hcur). unfold contents. rewrite length_slice by lia. lia.
Qed.

(** One push: the value lands behind the entries, and the buffer doubles
    when it was full and is kept otherwise. *)
Lemma _iterator_push_capacity iter value :
  iter_wf iter ->
  exists iter', _iterator_push iter value = Some iter' /\ iter_wf iter' /\
    contents iter' = contents iter ++ [value] /\
    it_current iter' = it_current iter /\
    it_size iter' = it_size iter + 1 /\
    it_capacity iter' =
      (if it_size iter =? it_capacity iter then 2 * it_capacity iter else it_capacity iter).
Proof.
  intros Hwf. destruct (_iterator_push_spec iter value Hwf) as (iter' & Hp & Hwf' & Hc & Hcur).
  exists iter'. split; [done|]. split; [done|]. split; [done|]. split; [done|].
  unfold _iterator_push in Hp.
  destruct (store _ _ _) as [data|]; [|done]. simpl in Hp. injection Hp as <-. simpl.
  destruct (it_size iter =? it_capacity iter); simpl; split; try done.
  unfold KDTREE_ITERATOR_GROWTH_RATIO. lia.
Qed.

Lemma push_all_app iter vs ws :
  push_all iter (vs ++ ws) = push_all iter vs ≫= fun iter' => push_all iter' ws.
Proof.
  revert iter. induction vs as [|v vs IH]; intros iter; [done|].
  cbn [push_all app]. destruct (_iterator_push iter v) as [it1|]; [|done].
  cbn [mbind option_bind]. apply IH.
Qed.

Lemma push_all_spec vs : forall iter,
  iter_wf iter ->
  exists iter', push_all iter vs = Some iter' /\ iter_wf iter' /\
    contents iter' = contents iter ++ vs /\
    it_current iter' = it_current iter /\
    it_size iter' = it_size iter + N.of_nat (length vs) /\
    it_capacity iter <= it_capacity iter' /\
    (it_size iter' <= it_capacity iter -> it_capacity iter' = it_capacity iter) /\
    (it_capacity iter < it_capacity iter' -> it_capacity iter' <= 2 * (it_size iter' - 1)) /\
    (exists k, it_capacity iter' = it_capacity iter * 2 ^ k).
Proof.
  induction vs as [|v vs IH]; intros iter Hwf.
  - exists iter. rewrite app_nil_r. cbn [push_all length].
    split; [done|]. split; [done|]. split; [done|]. split; [done|].
    split; [lia|]. split; [lia|]. split; [done|]. split; [lia|].
    exists 0. rewrite N.pow_0_r. lia.
  - destruct (_iterator_push_capacity iter v Hwf)
      as (it1 & Hp & Hwf1 & Hc1 & Hcur1 & Hs1 & Hcap1).
    destruct (IH it1 Hwf1)
      as (it2 & Hp2 & Hwf2 & Hc2 & Hcur2 & Hs2 & Hle & Hkeep & Hgrow & k & Hk).
    exists it2. cbn [push_all]. rewrite Hp. cbn [mbind option_bind].
    split; [done|]. split; [done|].
    split; [rewrite Hc2, Hc1, <- app_assoc; done|].
    split; [congruence|].
    cbn [length]. destruct Hwf as (Hlen & Hpos & Hsz & Hcur).
    assert (exists k', it_capacity it2 = it_capacity iter * 2 ^ k') as Hpow.
    { destruct (N.eqb_spec (it_size iter) (it_capacity iter)) as [E|E].
      - exists (N.succ k). rewrite N.pow_succ_r', Hk, Hcap1. lia.
      - exists k. now rewrite Hk, Hcap1. }
    destruct (N.eqb_spec (it_size iter) (it_capacity iter)) as [E|E];
      (split; [lia|]); (split; [lia|]); (split; [intros; try lia|]);
      (split; [intros; try lia|done]).
    all: try (apply Hkeep; lia).
    all: destruct (N.le_gt_cases (it_capacity it2) (it_capacity it1)) as [Hc|Hc]; lia.
Qed.

End IteratorGrowth.

(** ** The search as a sequence of pushes *)

Section SearchPushes.
Context {libc : Libc}.

Lemma push_all_one iter v : push_all iter [v] = _iterator_push iter v.
Proof. cbn [push_all]. now destruct (_iterator_push iter v). Qed.

Lemma _report_all_leaves_pushes t T : forall fuel k off iter,
  repr (node_data t) (points t) k off T ->
  (height T <= fuel)%nat ->
  _report_all_leaves fuel t (Some k) iter = push_all iter (pt_idx <$> leaves T).
Proof.
  induction T as [p|split l IHl r IHr]; intros fuel k off iter Hrepr Hfuel;
    (destruct fuel as [|fuel]; [simpl in Hfuel; lia|]); cbn [_report_all_leaves];
    cbn [mbind option_bind].
  - destruct (repr_node_leaf _ _ _ _ _ Hrepr) as (nd & Hnd & Hleaf & Hp).
    rewrite Hnd. cbn [mbind option_bind]. rewrite Hleaf, Hp. cbn [mbind option_bind].
    cbn [leaves fmap list_fmap]. now rewrite push_all_one.
  - destruct (repr_node_branch _ _ _ _ _ _ _ Hrepr)
      as (nd & Hnd & Hleaf & _ & Hl & Hr & HL & HR).
    rewrite Hnd. cbn [mbind option_bind]. rewrite Hleaf, Hl, Hr.
    cbn [leaves]. rewrite fmap_app, push_all_app.
    cbn [height] in Hfuel.
    rewrite (IHl _ _ _ _ HL) by lia.
    destruct (push_all iter (pt_idx <$> leaves l)) as [it1|]; [|done].
    cbn [mbind option_bind]. apply (IHr _ _ _ _ HR). lia.
Qed.

Lemma _explore_branch_pushes t search_space T : forall fuel k off depth domain iter,
  repr (node_data t) (points t) k off T ->
  (height T <= S fuel)%nat ->
  (height T <= N.to_nat (max_nodes t))%nat ->
  _explore_branch (_search_kdtree fuel) t (Some k) depth search_space domain iter =
  push_all iter
    (explored search_space domain T (reported (depth + 1) search_space domain T)).
Proof.
  induction T as [p|split l IHl r IHr];
    intros fuel k off depth domain iter Hrepr Hfuel Hmax; unfold _explore_branch.
  - destruct (repr_node_leaf _ _ _ _ _ Hrepr) as (nd & Hnd & Hleaf & Hp).
    cbn [mbind option_bind]. rewrite Hnd. cbn [mbind option_bind].
    rewrite Hleaf, Hp. cbn [mbind option_bind explored].
    destruct (_point_in_search_space p search_space); [|done].
    now rewrite push_all_one.
  - destruct (repr_node_branch _ _ _ _ _ _ _ Hrepr)
      as (nd & Hnd & Hleaf & Hs & Hnl & Hnr & HL & HR).
    cbn [mbind option_bind]. rewrite Hnd. cbn [mbind option_bind]. rewrite Hleaf.
    cbn [explored].
    destruct (_search_area_intersects search_space domain); [|done].
    destruct (_completely_enclosed search_space domain).
    + now apply (_report_all_leaves_pushes t _ _ _ _ _ Hrepr).
    + cbn [height] in Hfuel, Hmax. pose proof (height_pos l).
      destruct fuel as [|fuel]; [lia|].
      cbn [_search_kdtree]. cbv zeta. cbn [mbind option_bind].
      rewrite Hnd. cbn [mbind option_bind]. rewrite Hs, Hnl, Hnr.
      cbn [reported]. cbv zeta. rewrite push_all_app.
      unfold left_domain, right_domain.
      rewrite (IHl _ _ _ _ _ _ HL) by lia.
      destruct (push_all iter _) as [it1|]; [|done].
      cbn [mbind option_bind]. apply (IHr _ _ _ _ _ _ HR); lia.
Qed.

(** The search of a tree held in the arena is the push of what [reported]
    lists, entry by entry. *)
Lemma _search_kdtree_pushes t search_space fuel k off depth domain iter T :
  repr (node_data t) (points t) k off T -> is_branch T ->
  (height T <= fuel)%nat ->
  (height T <= N.to_nat (max_nodes t))%nat ->
  _search_kdtree fuel t (Some k) depth search_space domain iter =
  push_all iter (reported depth search_space domain T).
Proof.
  intros Hrepr Hb Hfuel Hmax. destruct T as [p|split l r]; [done|].
  destruct fuel as [|fuel]; [simpl in Hfuel; lia|].
  destruct (repr_node_branch _ _ _ _ _ _ _ Hrepr)
    as (nd & Hnd & Hleaf & Hs & Hnl & Hnr & HL & HR).
  cbn [height] in Hfuel, Hmax.
  cbn [_search_kdtree]. cbv zeta. cbn [mbind option_bind].
  rewrite Hnd. cbn [mbind option_bind]. rewrite Hs, Hnl, Hnr.
  cbn [reported]. cbv zeta. rewrite push_all_app.
  unfold left_domain, right_domain.
  rewrite (_explore_branch_pushes _ _ _ _ _ _ _ _ _ HL) by lia.
  destruct (push_all iter _) as [it1|]; [|done].
  cbn [mbind option_bind]. apply (_explore_branch_pushes _ _ _ _ _ _ _ _ _ HR); lia.
Qed.

(** The iterator a search starts from. *)
Lemma kdtree_search_space_pushes t T iter_ptr x_min x_max y_min y_max z_min z_max :
  repr (node_data t) (points t) 0 0 T -> root t = Some 0 -> is_branch T ->
  nnodes T <= max_nodes t ->
  kdtree_search_space (Some t) iter_ptr x_min x_max y_min y_max z_min z_max =
  push_all (match iter_ptr with Some iter => _iterator_reset iter | None => _iterator_new end)
    (reported 0 (search_space_of x_min x_max y_min y_max z_min z_max) initial_domain T).
Proof.
  intros Hrepr Hroot Hb Hmax. unfold kdtree_search_space. cbn [mbind option_bind].
  rewrite Hroot. cbn [mbind option_bind].
  destruct T as [p|split l r]; [done|].
  destruct (repr_node_branch _ _ _ _ _ _ _ Hrepr) as (nd & Hnd & Hleaf & _).
  rewrite Hnd. cbn [mbind option_bind]. rewrite Hleaf.
  pose proof (height_le_nnodes (KBranch split l r)) as Hh.
  apply (_search_kdtree_pushes _ _ _ _ _ _ _ _ _ Hrepr); [done|lia|lia].
Qed.

End SearchPushes.

(** ** What a search can report *)

Lemma explored_sublist search_space domain T deeper :
  deeper `sublist_of` (pt_idx <$> leaves T) ->
  explored search_space domain T deeper `sublist_of` (pt_idx <$> leaves T).
Proof.
  intros Hd. destruct T as [p|split l r]; cbn [explored].
  - destruct (_point_in_search_space p search_space); [done|apply sublist_nil_l].
  - destruct (_search_area_intersects search_space domain); [|apply sublist_nil_l].
    now destruct (_completely_enclosed search_space domain).
Qed.

Lemma reported_sublist search_space T : forall depth domain,
  reported depth search_space domain T `sublist_of` (pt_idx <$> leaves T).
Proof.
  induction T as [p|split l IHl r IHr]; intros depth domain.
  - apply sublist_nil_l.
  - cbn [reported leaves]. cbv zeta. rewrite fmap_app.
    apply sublist_app; apply explored_sublist; [apply IHl|apply IHr].
Qed.

(** ** The pointers of the arena *)

Lemma nnodes_pos T : 0 < nnodes T.
Proof. pose proof (nnodes_nleaves T). pose proof (nleaves_pos T). lia. Qed.

Lemma repr_nodes_ok nodes pts T : forall k off i,
  repr nodes pts k off T -> k <= i < k + nnodes T ->
  exists nd, cell nodes i = Some nd /\
    ((nd_left nd = NULL /\ nd_right nd = NULL /\ off <= nd_idx nd < off + nleaves T) \/
     (exists l r, nd_left nd = Some l /\ nd_right nd = Some r /\
        i < l /\ l < r /\ r < k + nnodes T)).
Proof.
  induction T as [p|split l IHl r IHr]; intros k off i Hrepr Hi.
  - destruct Hrepr as (nd & Hnd & Hl & Hr & Hidx & Hp).
    change (nnodes (KLeaf p)) with 1 in Hi. assert (i = k) as -> by lia.
    exists nd. split; [done|]. left. cbn [nleaves]. split; [done|]. split; [done|]. lia.
  - destruct Hrepr as (nd & Hnd & Hl & Hr & Hs & HL & HR).
    rewrite nnodes_branch in *. pose proof (nnodes_pos l). pose proof (nnodes_pos r).
    destruct (decide (i = k)) as [->|Hne].
    + exists nd. split; [done|]. right. exists (k + 1), (k + 1 + nnodes l).
      split; [done|]. split; [done|]. lia.
    + destruct (decide (i < k + 1 + nnodes l)) as [Hlt|Hge].
      * destruct (IHl _ _ i HL ltac:(lia)) as (nd' & Hnd' & [(? & ? & ?)|(a & b & ? & ? & ?)]).
        -- exists nd'. split; [done|]. left. cbn [nleaves].
           split; [done|]. split; [done|]. lia.
        -- exists nd'. split; [done|]. right. exists a, b.
           split; [done|]. split; [done|]. lia.
      * destruct (IHr _ _ i HR ltac:(lia)) as (nd' & Hnd' & [(? & ? & ?)|(a & b & ? & ? & ?)]).
        -- exists nd'. split; [done|]. left. cbn [nleaves].
           split; [done|]. split; [done|]. lia.
        -- exists nd'. split; [done|]. right. exists a, b.
           split; [done|]. split; [done|]. lia.
Qed.

(** ** The height of the tree *)

Lemma nleaves_le_pow2 T : nleaves T <= 2 ^ N.of_nat (height T - 1).
Proof.
  induction T as [p|split l IHl r IHr]; [done|].
  cbn [nleaves height]. pose proof (height_pos l). pose proof (height_pos r).
  replace (S (Nat.max (height l) (height r)) - 1)%nat
    with (S (Nat.max (height l - 1) (height r - 1))) by lia.
  rewrite Nat2N.inj_succ, N.pow_succ_r'.
  assert (2 ^ N.of_nat (height l - 1) <=
          2 ^ N.of_nat (Nat.max (height l - 1) (height r - 1))) by
    (apply N.pow_le_mono_r; lia).
  assert (2 ^ N.of_nat (height r - 1) <=
          2 ^ N.of_nat (Nat.max (height l - 1) (height r - 1))) by
    (apply N.pow_le_mono_r; lia).
  lia.
Qed.

Section BuildHeight.
Context {libc : Libc}.

Lemma build_subtree_height_le fuel : forall depth seg T (h : nat),
  build_subtree fuel depth seg = Some T ->
  N.of_nat (length seg) <= 2 ^ N.of_nat h -> (height T <= S h)%nat.
Proof.
  induction fuel as [|fuel IH]; intros depth seg T h; [done|].
  destruct seg as [|p [|q seg]]; [done|simpl; intros [= <-] _; simpl; lia|].
  rewrite build_subtree_branch by (simpl; lia). cbv zeta.
  set (sorted := qsort _ _). set (mid := ((_ - 1) / 2)%nat).
  assert (length sorted = length (p :: q :: seg)) as Hs by apply qsort_length.
  intros H Hlen. destruct (_ !! _) as [point|]; [|done]. simpl in H.
  destruct (build_subtree fuel _ (take _ _)) as [l|] eqn:El; [|done].
  destruct (build_subtree fuel _ (drop _ _)) as [r|] eqn:Er; [|done].
  injection H as <-. cbn [height].
  destruct h as [|h]; [cbn [length] in Hlen; simpl in Hlen; lia|].
  rewrite Nat2N.inj_succ, N.pow_succ_r' in Hlen.
  assert (height l <= S h)%nat.
  { apply (IH _ _ _ _ El). rewrite length_take. subst mid. rewrite Hs.
    cbn [length] in *. lia. }
  assert (height r <= S h)%nat.
  { apply (IH _ _ _ _ Er). rewrite length_drop. subst mid. rewrite Hs.
    cbn [length] in *. lia. }
  lia.
Qed.

(** The tree of [build_subtree] over [n] points has [ceil (log2 n) + 1]
    levels. *)
Lemma build_subtree_height fuel depth seg T :
  build_subtree fuel depth seg = Some T ->
  height T = S (N.to_nat (N.log2_up (N.of_nat (length seg)))).
Proof.
  intros HT. pose proof (build_subtree_nleaves _ _ _ _ HT) as Hn.
  pose proof (nleaves_pos T) as Hpos. pose proof (height_pos T) as Hh.
  apply Nat.le_antisymm.
  - apply (build_subtree_height_le _ _ _ _ _ HT). rewrite N2Nat.id.
    apply N.log2_log2_up_spec. lia.
  - pose proof (nleaves_le_pow2 T) as Hle. rewrite Hn in Hle.
    apply N.log2_up_le_pow2 in Hle; lia.
Qed.

End BuildHeight.

(** ** Sorting the entries *)

Lemma cmp_size_t_le a b : (cmp_size_t a b <= 0)%Z <-> a <= b.
Proof.
  unfold cmp_size_t, CMP.
  destruct (N.ltb_spec b a), (N.ltb_spec a b); lia.
Qed.

Lemma cmp_size_t_consistent l : cmp_consistent cmp_size_t l.
Proof.
  split.
  - intros a b _ _. rewrite !cmp_size_t_le. lia.
  - intros a b c _ _ _. rewrite !cmp_size_t_le. lia.
Qed.

Lemma StronglySorted_sublist {A} (R : relation A) l k :
  l `sublist_of` k -> StronglySorted R k -> StronglySorted R l.
Proof.
  intros Hsub Hk. revert l Hsub.
  induction Hk as [|a k Hk IH Ha]; intros l Hsub.
  - apply sublist_nil_r in Hsub as ->. constructor.
  - apply sublist_cons_r in Hsub as [Hsub|(l' & -> & Hsub)]; [now apply IH|].
    constructor; [now apply IH|].
    rewrite Forall_forall in Ha |- *. intros b Hb. apply Ha.
    eapply elem_of_sublist; eauto.
Qed.

Lemma StronglySorted_indices n : StronglySorted N.le (indices n).
Proof.
  unfold indices. apply (StronglySorted_fmap _ le); [intros; lia|].
  generalize (N.to_nat n). generalize 0%nat. intros a k. revert a.
  induction k as [|k IH]; intros a; [constructor|].
  cbn [seq]. constructor; [apply IH|].
  apply Forall_seq. intros; lia.
Qed.

(** Two ascending lists with the same entries are the same list. *)
Lemma sorted_unique (l1 l2 : list N) :
  StronglySorted N.le l1 -> StronglySorted N.le l2 -> l1 ≡ₚ l2 -> l1 = l2.
Proof. apply StronglySorted_unique_strong. intros; lia. Qed.

Section Sort.
Context {libc : Libc}.

Lemma kdtree_iterator_sort_spec iter :
  iter_wf iter ->
  iter_wf (kdtree_iterator_sort iter) /\
  contents (kdtree_iterator_sort iter) = qsort cmp_size_t (contents iter) /\
  contents (kdtree_iterator_sort iter) ≡ₚ contents iter /\
  StronglySorted N.le (contents (kdtree_iterator_sort iter)) /\
  (forall j, it_size iter <= j ->
     cell (it_data (kdtree_iterator_sort iter)) j = cell (it_data iter) j).
Proof.
  intros (Hlen & Hpos & Hsz & Hcur).
  assert (length (qsort cmp_size_t (slice (it_data iter) 0 (it_size iter)))
          = N.to_nat (it_size iter)) as Hq.
  { rewrite qsort_length, length_slice; lia. }
  assert (contents (kdtree_iterator_sort iter) = qsort cmp_size_t (contents iter)) as Hc.
  { unfold contents, kdtree_iterator_sort. cbn [it_data it_size].
    apply slice_splice; [lia|done]. }
  split; [|split; [done|split; [|split]]].
  - unfold iter_wf, kdtree_iterator_sort. cbn [it_data it_size it_capacity it_current].
    rewrite length_splice by (lia || done). lia.
  - rewrite Hc. apply qsort_perm.
  - rewrite Hc. eapply StronglySorted_impl_in; [|apply qsort_sorted, cmp_size_t_consistent].
    intros a b _ _. apply cmp_size_t_le.
  - intros j Hj. unfold kdtree_iterator_sort. cbn [it_data].
    apply cell_splice_out; [lia|done|lia].
Qed.

End Sort.

(** ** Boxes and comparisons *)

Lemma empty_box_outside search_space p :
  empty_box search_space -> _point_in_search_space p search_space = false.
Proof.
  intros [axis He]. destruct (_point_in_search_space p search_space) eqn:E; [|done].
  unfold _point_in_search_space, dge in E. rewrite !andb_true_iff in E.
  destruct E as [[[[[X1 X2] Y1] Y2] Z1] Z2].
  destruct axis.
  - pose proof (dle_trans _ _ _ X2 X1) as H. congruence.
  - pose proof (dle_trans _ _ _ Y2 Y1) as H. congruence.
  - pose proof (dle_trans _ _ _ Z2 Z1) as H. congruence.
Qed.

Lemma CMP_dlt_opp a b : CMP dlt a b = (- CMP dlt b a)%Z.
Proof.
  unfold CMP. destruct (dlt b a) eqn:E1.
  - now rewrite (dlt_asym _ _ E1).
  - now destruct (dlt a b).
Qed.

Lemma CMP_dlt_nan a b : dle a a = false -> CMP dlt a b = 0%Z /\ CMP dlt b a = 0%Z.
Proof.
  intros Ha. unfold CMP.
  assert (dlt a b = false) as ->.
  { destruct (dlt a b) eqn:E; [|done].
    assert (dle a a = true); [|congruence].
    unfold dlt, dle in *. rewrite FloatAxioms.ltb_spec in E. rewrite FloatAxioms.leb_spec.
    revert E. generalize (Prim2SF a), (Prim2SF b). intros u v. sf_split u; sf_split v; sf_order. }
  assert (dlt b a = false) as ->.
  { destruct (dlt b a) eqn:E; [|done].
    assert (dle a a = true); [|congruence].
    unfold dlt, dle in *. rewrite FloatAxioms.ltb_spec in E. rewrite FloatAxioms.leb_spec.
    revert E. generalize (Prim2SF a), (Prim2SF b). intros u v. sf_split u; sf_split v; sf_order. }
  done.
Qed.

(** ** X1 and X2: the iterator *)

Section FurtherIterator.
Context {libc : Libc}.

(** X1: [kdtree_iterator_sort] leaves the entries of the iterator in
    ascending order: the entries after the call are a rearrangement of the
    entries before it, each at most as large as those behind it; the size,
    the capacity, the cursor and the buffer behind the entries stay as they
    were. *)
Theorem kdtree_iterator_sort_ascending iter :
  iter_wf iter ->
  iter_wf (kdtree_iterator_sort iter) /\
  contents (kdtree_iterator_sort iter) ≡ₚ contents iter /\
  StronglySorted N.le (contents (kdtree_iterator_sort iter)) /\
  it_size (kdtree_iterator_sort iter) = it_size iter /\
  it_capacity (kdtree_iterator_sort iter) = it_capacity iter /\
  it_current (kdtree_iterator_sort iter) = it_current iter /\
  (forall j, it_size iter <= j ->
     cell (it_data (kdtree_iterator_sort iter)) j = cell (it_data iter) j).
Proof.
  intros Hwf.
  destruct (kdtree_iterator_sort_spec iter Hwf) as (Hwf' & _ & Hperm & Hsorted & Hrest).
  split; [done|]. split; [done|]. split; [done|]. split; [done|].
  split; [done|]. split; [done|]. done.
Qed.

(** X2: [_iterator_push] on an iterator adds the value behind the entries
    and moves neither the entries nor the cursor; it doubles the capacity
    when the buffer is full and keeps it otherwise, so the write stays
    inside the buffer. *)
Theorem _iterator_push_appends iter value :
  iter_wf iter ->
  exists iter', _iterator_push iter value = Some iter' /\ iter_wf iter' /\
    contents iter' = contents iter ++ [value] /\
    it_size iter' = it_size iter + 1 /\
    it_current iter' = it_current iter /\
    it_capacity iter' =
      (if it_size iter =? it_capacity iter then 2 * it_capacity iter
       else it_capacity iter).
Proof.
  intros Hwf.
  destruct (_iterator_push_capacity iter value Hwf)
    as (iter' & Hp & Hwf' & Hc & Hcur & Hs & Hcap).
  exists iter'. split; [done|]. split; [done|]. split; [done|]. split; [done|].
  split; done.
Qed.

End FurtherIterator.

(** ** X3 to X5: what a search leaves in the iterator *)

Section FurtherSearch.
Context {libc : Libc}.

(** A build, then a search: the tree of [build_subtree] in the arena, and
    the entries [reported] lists in the iterator. *)
Lemma build_then_search x y z n tree_ptr iter_ptr x_min x_max y_min y_max z_min z_max :
  1 < n -> arrays_hold x y z n -> handle_ok tree_ptr -> iter_handle_ok iter_ptr ->
  exists t T iter,
    kdtree_build x y z n tree_ptr = Some t /\
    build_subtree (N.to_nat n) 0 (point_set x y z n) = Some T /\
    tree_wf t /\ count t = n /\ root t = Some 0 /\
    repr (node_data t) (points t) 0 0 T /\ points t = leaves T /\ nleaves T = n /\
    pt_idx <$> leaves T ≡ₚ indices n /\
    kdtree_search_space (Some t) iter_ptr x_min x_max y_min y_max z_min z_max = Some iter /\
    iter_wf iter /\ it_current iter = 0 /\
    contents iter =
      reported 0 (search_space_of x_min x_max y_min y_max z_min z_max) initial_domain T.
Proof.
  intros Hn Harr Hh Hit.
  destruct (kdtree_build_spec x y z n tree_ptr Hn Harr Hh) as
    (t & T & Hb & HT & Hwf & Hcount & _ & Hroot & HnT & Hrepr & Hpts).
  pose proof Hwf as (_ & _ & Hmax). rewrite Hcount in Hmax.
  pose proof (nleaves_is_branch T ltac:(lia)) as Hbr.
  pose proof (nnodes_nleaves T) as Hsz.
  destruct (kdtree_search_space_spec t T iter_ptr x_min x_max y_min y_max z_min z_max
              Hrepr Hroot Hbr ltac:(lia) Hit) as (iter & Hs & Hwfi & Hcur & Hc).
  exists t, T, iter. repeat (split; [done|]).
  split; [|done].
  rewrite (build_subtree_leaves _ _ _ _ HT). now rewrite point_set_idx.
Qed.

(** X3: a search never reports an index twice or an index outside
    [0 .. n-1], whatever the coordinates are (infinities and NaNs
    included): the entries of the iterator are distinct, each below [n],
    and at most [n] in number; they are a sub-sequence of the indices of
    the point cache, read from left to right. *)
Theorem kdtree_search_space_reports_indices x y z n tree_ptr iter_ptr
    x_min x_max y_min y_max z_min z_max :
  1 < n -> arrays_hold x y z n -> handle_ok tree_ptr -> iter_handle_ok iter_ptr ->
  exists t iter,
    kdtree_build x y z n tree_ptr = Some t /\
    kdtree_search_space (Some t) iter_ptr x_min x_max y_min y_max z_min z_max = Some iter /\
    contents iter `sublist_of` (pt_idx <$> points t) /\
    NoDup (contents iter) /\
    (forall i, i ∈ contents iter -> i < n) /\
    it_size iter <= n.
Proof.
  intros Hn Harr Hh Hit.
  destruct (build_then_search x y z n tree_ptr iter_ptr x_min x_max y_min y_max z_min z_max
              Hn Harr Hh Hit)
    as (t & T & iter & Hb & HT & Hwf & Hcount & Hroot & Hrepr & Hpts & HnT & Hidx &
        Hs & Hwfi & Hcur & Hc).
  exists t, iter. split; [done|]. split; [done|].
  assert (contents iter `sublist_of` (pt_idx <$> leaves T)) as Hsub.
  { rewrite Hc. apply reported_sublist. }
  split; [now rewrite Hpts|]. split; [|split].
  - apply (sublist_NoDup _ (pt_idx <$> leaves T)); [|done].
    rewrite Hidx. apply NoDup_indices.
  - intros i Hi. apply elem_of_indices. rewrite <- Hidx.
    eapply elem_of_sublist; eauto.
  - apply sublist_length in Hsub. rewrite length_fmap in Hsub.
    rewrite <- (length_contents iter Hwfi), <- HnT, nleaves_length. lia.
Qed.

(** X4: reading the result of a search: [it_size] calls of
    [kdtree_iterator_get_next] return the entries in the order the search
    reported them, every call after them returns [KDTREE_END], and no
    entry is [KDTREE_END] itself (the count of points being a [size_t]
    that the arrays can hold, it lies below [SIZE_MAX]). *)
Theorem kdtree_search_then_iterate x y z n tree_ptr iter_ptr
    x_min x_max y_min y_max z_min z_max :
  1 < n -> n <= SIZE_MAX ->
  arrays_hold x y z n -> handle_ok tree_ptr -> iter_handle_ok iter_ptr ->
  exists t iter,
    kdtree_build x y z n tree_ptr = Some t /\
    kdtree_search_space (Some t) iter_ptr x_min x_max y_min y_max z_min z_max = Some iter /\
    get_next_n (N.to_nat (it_size iter)) iter =
      Some (contents iter, set_current iter (it_size iter)) /\
    (forall k, get_next_n k (set_current iter (it_size iter)) =
       Some (replicate k KDTREE_END, set_current iter (it_size iter))) /\
    KDTREE_END ∉ contents iter.
Proof.
  intros Hn Hmax Harr Hh Hit.
  destruct (build_then_search x y z n tree_ptr iter_ptr x_min x_max y_min y_max z_min z_max
              Hn Harr Hh Hit)
    as (t & T & iter & Hb & HT & Hwf & Hcount & Hroot & Hrepr & Hpts & HnT & Hidx &
        Hs & Hwfi & Hcur & Hc).
  exists t, iter. split; [done|]. split; [done|].
  pose proof Hwfi as (Hlen & Hpos & Hsz & _). split; [|split].
  - pose proof (get_next_n_slice iter (N.to_nat (it_size iter)) 0 Hlen Hsz ltac:(lia)) as G.
    replace (set_current iter 0) with iter in G
      by (destruct iter; unfold set_current; simpl in *; congruence).
    rewrite G. unfold contents. rewrite N.add_0_l, N2Nat.id. done.
  - intros k. now apply get_next_n_end.
  - intros Hin.
    assert (KDTREE_END ∈ indices n) as Hi.
    { rewrite <- Hidx. eapply elem_of_sublist; [exact Hin|].
      rewrite Hc. apply reported_sublist. }
    apply elem_of_indices in Hi. unfold KDTREE_END in Hi. lia.
Qed.

(** X5: a search reallocates the buffer of the iterator only when the
    results outgrow it.  With [cap0] the capacity the search starts from
    (that of the iterator it is handed, [KDTREE_ITERATOR_INITIAL_SIZE] for
    a new one), the capacity after the search is [cap0] doubled some
    number of times; it is [cap0] itself when the results fit, and where
    it has grown it is less than twice the number of results. *)
Theorem kdtree_search_space_capacity x y z n tree_ptr iter_ptr
    x_min x_max y_min y_max z_min z_max :
  1 < n -> arrays_hold x y z n -> handle_ok tree_ptr -> iter_handle_ok iter_ptr ->
  exists t iter,
    kdtree_build x y z n tree_ptr = Some t /\
    kdtree_search_space (Some t) iter_ptr x_min x_max y_min y_max z_min z_max = Some iter /\
    (exists k, it_capacity iter =
       match iter_ptr with
       | Some iter0 => it_capacity iter0
       | None => KDTREE_ITERATOR_INITIAL_SIZE
       end * 2 ^ k) /\
    (it_size iter <= match iter_ptr with
                     | Some iter0 => it_capacity iter0
                     | None => KDTREE_ITERATOR_INITIAL_SIZE
                     end ->
     it_capacity iter = match iter_ptr with
                        | Some iter0 => it_capacity iter0
                        | None => KDTREE_ITERATOR_INITIAL_SIZE
                        end) /\
    (match iter_ptr with
     | Some iter0 => it_capacity iter0
     | None => KDTREE_ITERATOR_INITIAL_SIZE
     end < it_capacity iter ->
     it_capacity iter < 2 * it_size iter).
Proof.
  intros Hn Harr Hh Hit.
  destruct (build_then_search x y z n tree_ptr iter_ptr x_min x_max y_min y_max z_min z_max
              Hn Harr Hh Hit)
    as (t & T & iter & Hb & HT & Hwf & Hcount & Hroot & Hrepr & Hpts & HnT & Hidx &
        Hs & Hwfi & Hcur & Hc).
  exists t, iter. split; [done|]. split; [done|].
  pose proof Hwf as (_ & _ & Hmax). rewrite Hcount in Hmax.
  pose proof (nleaves_is_branch T ltac:(lia)) as Hbr.
  pose proof (nnodes_nleaves T) as Hsz.
  rewrite (kdtree_search_space_pushes t T iter_ptr x_min x_max y_min y_max z_min z_max
             Hrepr Hroot Hbr ltac:(lia)) in Hs.
  set (iter0 := match iter_ptr with Some i => _iterator_reset i | None => _iterator_new end)
    in Hs.
  assert (iter_wf iter0 /\ it_size iter0 = 0 /\
          it_capacity iter0 = match iter_ptr with
                              | Some i => it_capacity i
                              | None => KDTREE_ITERATOR_INITIAL_SIZE
                              end) as (Hwf0 & Hs0 & Hc0).
  { subst iter0. destruct iter_ptr as [i|].
    - split; [now apply _iterator_reset_wf|done].
    - split; [apply _iterator_new_wf|done]. }
  destruct (push_all_spec
              (reported 0 (search_space_of x_min x_max y_min y_max z_min z_max)
                 initial_domain T) iter0 Hwf0)
    as (iter' & Hp & _ & _ & _ & Hsize & Hle & Hkeep & Hgrow & Hpow).
  rewrite Hs in Hp. injection Hp as <-.
  rewrite Hc0 in Hpow, Hkeep, Hgrow. split; [exact Hpow|]. split; [exact Hkeep|].
  intros Hlt. specialize (Hgrow Hlt). lia.
Qed.

End FurtherSearch.

(** ** Subtrees of the arena *)

(** A leaf of the tree the arena holds at a node is a point under it. *)
Lemma repr_under t T : forall node off p,
  repr (node_data t) (points t) node off T -> p ∈ leaves T -> under t node p.
Proof.
  induction T as [q|split l IHl r IHr]; intros node off p Hrepr Hp.
  - destruct (repr_node_leaf _ _ _ _ _ Hrepr) as (nd & Hnd & Hleaf & Hq).
    cbn [leaves] in Hp. apply list_elem_of_singleton in Hp as ->.
    eapply under_leaf; eauto.
  - destruct (repr_node_branch _ _ _ _ _ _ _ Hrepr)
      as (nd & Hnd & Hleaf & _ & Hl & Hr & HL & HR).
    cbn [leaves] in Hp. apply elem_of_app in Hp as [Hp|Hp].
    + eapply under_left; eauto.
    + eapply under_right; eauto.
Qed.

(** Every slot of a tree in the arena holds a tree of its own. *)
Lemma repr_subtree nodes pts T : forall k off i,
  repr nodes pts k off T -> k <= i < k + nnodes T ->
  exists off' T', repr nodes pts i off' T' /\ i + nnodes T' <= k + nnodes T /\
    leaves T' `sublist_of` leaves T.
Proof.
  induction T as [p|split l IHl r IHr]; intros k off i Hrepr Hi.
  - change (nnodes (KLeaf p)) with 1 in Hi. assert (i = k) as -> by lia.
    exists off, (KLeaf p). split; [done|]. split; [lia|done].
  - rewrite nnodes_branch in *. pose proof (nnodes_pos l). pose proof (nnodes_pos r).
    destruct (decide (i = k)) as [->|Hne].
    { exists off, (KBranch split l r). split; [done|]. rewrite nnodes_branch.
      split; [lia|done]. }
    destruct Hrepr as (nd & Hnd & Hl & Hr & Hs & HL & HR).
    destruct (decide (i < k + 1 + nnodes l)) as [Hlt|Hge].
    + destruct (IHl _ _ i HL ltac:(lia)) as (off' & T' & HT' & Hn' & Hsub).
      exists off', T'. split; [done|]. split; [lia|].
      cbn [leaves]. now apply sublist_inserts_r.
    + destruct (IHr _ _ i HR ltac:(lia)) as (off' & T' & HT' & Hn' & Hsub).
      exists off', T'. split; [done|]. split; [lia|].
      cbn [leaves]. now apply sublist_inserts_l.
Qed.

(** ** X6 to X11: the built tree *)

Section FurtherBuild.
Context {libc : Libc}.

(** A caching loop that ends has read its cells of the three arrays. *)
Lemma cache_loop_Some x y z k : forall i t t',
  cache_loop k x y z i t = Some t' ->
  forall j, i <= j < i + N.of_nat k ->
    is_Some (cell x j) /\ is_Some (cell y j) /\ is_Some (cell z j).
Proof.
  induction k as [|k IH]; intros i t t' Hl j Hj; [lia|].
  cbn [cache_loop] in Hl.
  destruct (cache_point x y z i t) as [t1|] eqn:Hp; [|done].
  cbn [mbind option_bind] in Hl.
  destruct (decide (j = i)) as [->|Hne].
  - unfold cache_point in Hp.
    destruct (cell x i); [|done]. destruct (cell y i); [|done].
    destruct (cell z i); [|done]. done.
  - apply (IH _ _ _ Hl). lia.
Qed.

(** X6: [kdtree_build], handed a tree handle, returns a tree exactly when
    it is given two points or more (the assertion [count > 1]) and each of
    the three arrays holds that many cells; the tree it returns has [n]
    points in its cache and [2n - 1] slots in its arena, all of them in
    use, and its root in slot 0: it is a handle the next call of
    [kdtree_build] accepts. *)
Theorem kdtree_build_succeeds_iff x y z n tree_ptr :
  handle_ok tree_ptr ->
  (is_Some (kdtree_build x y z n tree_ptr) <-> 1 < n /\ arrays_hold x y z n) /\
  (forall t, kdtree_build x y z n tree_ptr = Some t ->
     handle_ok (Some t) /\ count t = n /\ max_nodes t = 2 * n - 1 /\
     next_node t = max_nodes t /\ root t = Some 0).
Proof.
  intros Hh.
  assert (1 < n -> arrays_hold x y z n ->
          exists t, kdtree_build x y z n tree_ptr = Some t /\
            tree_wf t /\ count t = n /\ next_node t = max_nodes t /\ root t = Some 0)
    as Hok.
  { intros Hn Harr.
    destruct (kdtree_build_spec x y z n tree_ptr Hn Harr Hh) as
      (t & T & Hb & _ & Hwf & Hcount & Hnext & Hroot & _).
    exists t. done. }
  assert (forall t, kdtree_build x y z n tree_ptr = Some t ->
            1 < n /\ arrays_hold x y z n) as Hpre.
  { intros t Ht. unfold kdtree_build in Ht.
    destruct (N.ltb_spec 1 n) as [Hn|Hn]; [|done]. cbn [negb] in Ht.
    split; [done|].
    destruct (cache_points x y z n _) as [t1|] eqn:Hc; [|done].
    unfold cache_points in Hc.
    destruct (cache_loop_Some _ _ _ _ _ _ _ Hc (n - 1) ltac:(lia))
      as ([a Ha] & [b Hb] & [c Hc']).
    apply cell_Some_lt in Ha, Hb, Hc'. unfold arrays_hold. lia. }
  split; [split|].
  - intros [t Ht]. now apply (Hpre t).
  - intros [Hn Harr]. destruct (Hok Hn Harr) as (t & -> & _). by eexists.
  - intros t Ht. destruct (Hpre t Ht) as [Hn Harr].
    destruct (Hok Hn Harr) as (t' & Hb & Hwf & Hcount & Hnext & Hroot).
    assert (t' = t) as -> by congruence.
    split; [done|]. split; [done|]. split; [|done].
    destruct Hwf as (_ & _ & Hmax). lia.
Qed.

(** X7: the tree a build leaves behind does not depend on what the handle
    held before: from every two handles the point caches are the same, and
    every search reports the same entries in the same order, whatever the
    coordinates are; a handle whose tree has another count gives the very
    tree a build from [NULL] gives. *)
Theorem kdtree_build_forgets_handle x y z n tree_ptr tree_ptr' iter_ptr iter_ptr'
    x_min x_max y_min y_max z_min z_max :
  1 < n -> arrays_hold x y z n -> handle_ok tree_ptr -> handle_ok tree_ptr' ->
  iter_handle_ok iter_ptr -> iter_handle_ok iter_ptr' ->
  exists t t' iter iter',
    kdtree_build x y z n tree_ptr = Some t /\
    kdtree_build x y z n tree_ptr' = Some t' /\
    points t' = points t /\
    kdtree_search_space (Some t) iter_ptr x_min x_max y_min y_max z_min z_max
      = Some iter /\
    kdtree_search_space (Some t') iter_ptr' x_min x_max y_min y_max z_min z_max
      = Some iter' /\
    contents iter' = contents iter /\
    (forall t0, tree_ptr = Some t0 -> count t0 <> n ->
       kdtree_build x y z n tree_ptr = kdtree_build x y z n None).
Proof.
  intros Hn Harr Hh Hh' Hit Hit'.
  destruct (build_then_search x y z n tree_ptr iter_ptr x_min x_max y_min y_max z_min z_max
              Hn Harr Hh Hit)
    as (t & T & iter & Hb & HT & _ & _ & _ & _ & Hpts & _ & _ & Hs & _ & _ & Hc).
  destruct (build_then_search x y z n tree_ptr' iter_ptr' x_min x_max y_min y_max z_min z_max
              Hn Harr Hh' Hit')
    as (t' & T' & iter' & Hb' & HT' & _ & _ & _ & _ & Hpts' & _ & _ & Hs' & _ & _ & Hc').
  assert (T' = T) as -> by congruence.
  exists t, t', iter, iter'. repeat (split; [done || congruence|]).
  intros t0 -> Hne. unfold kdtree_build, kdtree_alloc.
  now destruct (N.eqb_spec (count t0) n).
Qed.

(** X8: the tree of a build over [n] points has [ceil (log2 n) + 1]
    levels, and the search descends no deeper: with a bound of that many
    nested calls [_search_kdtree] gives, on every box and iterator, the
    result it gives with the bound [kdtree_search_space] supplies. *)
Theorem kdtree_build_height x y z n tree_ptr :
  1 < n -> arrays_hold x y z n -> handle_ok tree_ptr ->
  exists t T,
    kdtree_build x y z n tree_ptr = Some t /\
    repr (node_data t) (points t) 0 0 T /\
    height T = S (N.to_nat (N.log2_up n)) /\
    (height T <= N.to_nat (max_nodes t))%nat /\
    forall search_space iter,
      _search_kdtree (height T) t (root t) 0 search_space initial_domain iter =
      _search_kdtree (N.to_nat (max_nodes t)) t (root t) 0 search_space initial_domain iter /\
      (iter_wf iter ->
       is_Some (_search_kdtree (height T) t (root t) 0 search_space initial_domain iter)).
Proof.
  intros Hn Harr Hh.
  destruct (kdtree_build_spec x y z n tree_ptr Hn Harr Hh) as
    (t & T & Hb & HT & Hwf & Hcount & _ & Hroot & HnT & Hrepr & _).
  pose proof Hwf as (_ & _ & Hmax). rewrite Hcount in Hmax.
  pose proof (nleaves_is_branch T ltac:(lia)) as Hbr.
  pose proof (nnodes_nleaves T) as Hsz.
  pose proof (height_le_nnodes T) as Hhn.
  exists t, T. split; [done|]. split; [done|]. split.
  { rewrite (build_subtree_height _ _ _ _ HT).
    rewrite <- (build_subtree_nleaves _ _ _ _ HT), HnT. done. }
  split; [lia|]. intros search_space iter. rewrite Hroot.
  rewrite !(_search_kdtree_pushes t search_space _ 0 0 0 initial_domain iter T Hrepr Hbr)
    by lia.
  split; [done|]. intros Hwfi.
  destruct (push_all_spec (reported 0 search_space initial_domain T) iter Hwfi)
    as (iter' & -> & _). by eexists.
Qed.

(** X9: where no coordinate is a NaN (infinities allowed), the tree of a
    build is in k-d order: at every branch of depth [d] the points under
    the left child lie at or below the split value on the axis [d mod 3]
    and those under the right child at or above it; its leaves are the
    points of the arrays. *)
Theorem kdtree_build_kd_order x y z n tree_ptr :
  1 < n -> arrays_hold x y z n -> handle_ok tree_ptr ->
  Forall ordered_point (point_set x y z n) ->
  exists t T,
    kdtree_build x y z n tree_ptr = Some t /\
    repr (node_data t) (points t) 0 0 T /\ root t = Some 0 /\
    leaves T ≡ₚ point_set x y z n /\
    kd_ok 0 T.
Proof.
  intros Hn Harr Hh Hord.
  destruct (kdtree_build_spec x y z n tree_ptr Hn Harr Hh) as
    (t & T & Hb & HT & _ & _ & _ & Hroot & _ & Hrepr & _).
  exists t, T. split; [done|]. split; [done|]. split; [done|].
  split; [apply (build_subtree_leaves _ _ _ _ HT)|].
  apply (build_subtree_kd_ok _ _ _ _ Hord HT).
Qed.

(** X10: every slot of the arena of a built tree holds either a leaf, whose
    two pointers are [NULL] and whose [idx] is a cell of the point cache,
    or a branch with two children in higher slots of the arena, the left
    one before the right one: following pointers never leaves the arena
    and never comes back to a slot. *)
Theorem kdtree_build_pointers x y z n tree_ptr :
  1 < n -> arrays_hold x y z n -> handle_ok tree_ptr ->
  exists t,
    kdtree_build x y z n tree_ptr = Some t /\
    forall i, i < max_nodes t ->
      exists nd, cell (node_data t) i = Some nd /\
        ((nd_left nd = NULL /\ nd_right nd = NULL /\ nd_idx nd < count t) \/
         (exists l r, nd_left nd = Some l /\ nd_right nd = Some r /\
            i < l /\ l < r /\ r < max_nodes t)).
Proof.
  intros Hn Harr Hh.
  destruct (kdtree_build_spec x y z n tree_ptr Hn Harr Hh) as
    (t & T & Hb & HT & Hwf & Hcount & _ & Hroot & HnT & Hrepr & _).
  pose proof Hwf as (_ & _ & Hmax). rewrite Hcount in Hmax.
  pose proof (nnodes_nleaves T) as Hsz.
  exists t. split; [done|]. intros i Hi.
  destruct (repr_nodes_ok _ _ _ 0 0 i Hrepr ltac:(lia))
    as (nd & Hnd & [(Hl & Hr & Hidx)|(l & r & Hl & Hr & H1 & H2 & H3)]);
    exists nd; (split; [done|]).
  - left. split; [done|]. split; [done|]. lia.
  - right. exists l, r. split; [done|]. split; [done|]. lia.
Qed.

(** X11: on a built tree [_report_all_leaves], called on any slot of the
    arena, adds to the iterator the indices of the points under that slot
    (the leaves its pointers reach), once each, and nothing else. *)
Theorem _report_all_leaves_reports_subtree x y z n tree_ptr :
  1 < n -> arrays_hold x y z n -> handle_ok tree_ptr ->
  exists t,
    kdtree_build x y z n tree_ptr = Some t /\
    forall node iter, node < max_nodes t -> iter_wf iter ->
      exists iter' vs,
        _report_all_leaves (N.to_nat (max_nodes t)) t (Some node) iter = Some iter' /\
        iter_wf iter' /\
        contents iter' = contents iter ++ vs /\
        NoDup vs /\
        forall i, i ∈ vs <-> exists p, under t node p /\ pt_idx p = i.
Proof.
  intros Hn Harr Hh.
  destruct (kdtree_build_spec x y z n tree_ptr Hn Harr Hh) as
    (t & T & Hb & HT & Hwf & Hcount & _ & Hroot & HnT & Hrepr & Hpts).
  pose proof (nnodes_nleaves T) as Hsz.
  pose proof Hwf as (_ & _ & Hmax). rewrite Hcount in Hmax.
  exists t. split; [done|]. intros node iter Hnode Hwfi.
  destruct (repr_subtree _ _ _ 0 0 node Hrepr ltac:(lia)) as (off' & T' & Hrepr' & Hnn & Hsub).
  pose proof (height_le_nnodes T') as Hhn.
  destruct (_report_all_leaves_spec t T' (N.to_nat (max_nodes t)) node off' iter Hrepr'
              ltac:(lia) Hwfi) as (iter' & Hr & Hwf' & Hc & _).
  exists iter', (pt_idx <$> leaves T'). split; [done|]. split; [done|]. split; [done|].
  split.
  - apply (sublist_NoDup _ (pt_idx <$> leaves T)); [|now apply fmap_sublist].
    rewrite (build_subtree_leaves _ _ _ _ HT), point_set_idx by done.
    apply NoDup_indices.
  - intros i. rewrite list_elem_of_fmap. split.
    + intros (p & -> & Hp). exists p. split; [|done]. eapply repr_under; eauto.
    + intros (p & Hu & <-). exists p. split; [done|]. eapply under_repr; eauto.
Qed.

End FurtherBuild.

(** ** X12 to X15: results of a search *)

Section FurtherResults.
Context {libc : Libc}.

(** Build, then search, on finite points: the entries are the indices of
    the points of the cache inside the box, in the order of the cache. *)
Lemma build_search_cache_order x y z n tree_ptr iter_ptr
    x_min x_max y_min y_max z_min z_max :
  1 < n -> arrays_hold x y z n ->
  Forall finite_point (point_set x y z n) ->
  handle_ok tree_ptr -> iter_handle_ok iter_ptr ->
  exists t iter,
    kdtree_build x y z n tree_ptr = Some t /\
    kdtree_search_space (Some t) iter_ptr x_min x_max y_min y_max z_min z_max
      = Some iter /\
    iter_wf iter /\ it_current iter = 0 /\
    points t ≡ₚ point_set x y z n /\
    contents iter =
      inside (search_space_of x_min x_max y_min y_max z_min z_max) (points t).
Proof.
  intros Hn Harr Hfin Hh Hit.
  destruct (kdtree_build_spec x y z n tree_ptr Hn Harr Hh) as
    (t & T & Hb & HT & (_ & _ & Hmax) & Hcount & _ & Hroot & HnT & Hrepr & Hpts).
  rewrite Hcount in Hmax.
  destruct (built_tree_search x y z n T t iter_ptr x_min x_max y_min y_max z_min z_max
              Hn Harr Hfin HT HnT Hroot Hmax Hrepr Hit) as (iter & Hs & Hwf & Hcur & Hc).
  exists t, iter. split; [done|]. split; [done|]. split; [done|]. split; [done|].
  rewrite Hpts. split; [|done]. apply (build_subtree_leaves _ _ _ _ HT).
Qed.

Lemma StronglySorted_inside_point_set x y z n search_space :
  arrays_hold x y z n ->
  StronglySorted N.le (inside search_space (point_set x y z n)).
Proof.
  intros Harr. apply (StronglySorted_sublist _ _ (pt_idx <$> point_set x y z n)).
  - apply fmap_sublist, sublist_filter.
  - rewrite point_set_idx by done. apply StronglySorted_indices.
Qed.

(** X12: on points with finite coordinates the entries of a search are in
    the order of the point cache, and after [kdtree_iterator_sort] they are
    the list of the indices [i], in ascending order, of the points
    [(x[i], y[i], z[i])] inside the box: the sorted result is one list,
    the same for every C library and every previous state of the handles. *)
Theorem kdtree_search_sorted_result x y z n tree_ptr iter_ptr
    x_min x_max y_min y_max z_min z_max :
  1 < n -> arrays_hold x y z n ->
  Forall finite_point (point_set x y z n) ->
  handle_ok tree_ptr -> iter_handle_ok iter_ptr ->
  exists t iter,
    kdtree_build x y z n tree_ptr = Some t /\
    kdtree_search_space (Some t) iter_ptr x_min x_max y_min y_max z_min z_max
      = Some iter /\
    contents iter =
      inside (search_space_of x_min x_max y_min y_max z_min z_max) (points t) /\
    contents (kdtree_iterator_sort iter) =
      inside (search_space_of x_min x_max y_min y_max z_min z_max) (point_set x y z n) /\
    it_current (kdtree_iterator_sort iter) = 0.
Proof.
  intros Hn Harr Hfin Hh Hit.
  destruct (build_search_cache_order x y z n tree_ptr iter_ptr
              x_min x_max y_min y_max z_min z_max Hn Harr Hfin Hh Hit)
    as (t & iter & Hb & Hs & Hwf & Hcur & Hperm & Hc).
  exists t, iter. split; [done|]. split; [done|]. split; [done|]. split; [|done].
  destruct (kdtree_iterator_sort_spec iter Hwf) as (_ & _ & Hp & Hsorted & _).
  apply sorted_unique; [done|now apply StronglySorted_inside_point_set|].
  rewrite Hp, Hc. now apply inside_Permutation.
Qed.

(** X13: a box that holds every point reports every point: on points with
    finite coordinates, if each point lies within the box on the three
    axes, the iterator holds the [n] indices [0 .. n-1], each once; the box
    that spans [-DBL_MAX, DBL_MAX] on the three axes is such a box. *)
Theorem kdtree_search_space_covering_box x y z n tree_ptr iter_ptr
    x_min x_max y_min y_max z_min z_max :
  1 < n -> arrays_hold x y z n ->
  Forall finite_point (point_set x y z n) ->
  handle_ok tree_ptr -> iter_handle_ok iter_ptr ->
  Forall (fun p => _point_in_search_space p
                     (search_space_of x_min x_max y_min y_max z_min z_max) = true)
    (point_set x y z n) ->
  exists t iter iter',
    kdtree_build x y z n tree_ptr = Some t /\
    kdtree_search_space (Some t) iter_ptr x_min x_max y_min y_max z_min z_max
      = Some iter /\
    it_size iter = n /\ contents iter ≡ₚ indices n /\
    kdtree_search_space (Some t) iter_ptr
      (- DBL_MAX) DBL_MAX (- DBL_MAX) DBL_MAX (- DBL_MAX) DBL_MAX = Some iter' /\
    it_size iter' = n /\ contents iter' ≡ₚ indices n.
Proof.
  intros Hn Harr Hfin Hh Hit Hall.
  assert (forall a b c d e f,
            Forall (fun p => _point_in_search_space p (search_space_of a b c d e f) = true)
              (point_set x y z n) ->
            exists t iter,
              kdtree_build x y z n tree_ptr = Some t /\
              kdtree_search_space (Some t) iter_ptr a b c d e f = Some iter /\
              it_size iter = n /\ contents iter ≡ₚ indices n) as Hcover.
  { intros a b c d e f Hin.
    destruct (build_search_cache_order x y z n tree_ptr iter_ptr a b c d e f
                Hn Harr Hfin Hh Hit)
      as (t & iter & Hb & Hs & Hwf & Hcur & Hperm & Hc).
    exists t, iter. split; [done|]. split; [done|].
    assert (contents iter ≡ₚ indices n) as Hci.
    { rewrite Hc, (inside_Permutation _ _ _ Hperm), inside_all by done.
      now rewrite point_set_idx. }
    split; [|done].
    rewrite <- (length_contents iter Hwf), Hci, length_indices. lia. }
  destruct (Hcover _ _ _ _ _ _ Hall) as (t & iter & Hb & Hs & Hsz & Hc).
  destruct (Hcover (- DBL_MAX)%float DBL_MAX (- DBL_MAX)%float DBL_MAX
              (- DBL_MAX)%float DBL_MAX) as (t' & iter' & Hb' & Hs' & Hsz' & Hc').
  { eapply Forall_impl; [exact Hfin|]. intros p (Hx & Hy & Hz).
    unfold finite_double in Hx, Hy, Hz. apply andb_true_iff in Hx, Hy, Hz.
    unfold _point_in_search_space, dge. cbn [search_space_of dim dim_X dim_Y dim_Z b_min b_max].
    rewrite !andb_true_iff. tauto. }
  assert (t' = t) as -> by congruence.
  exists t, iter, iter'. done.
Qed.

(** X14: a box with a NaN among its bounds, or with a lower bound above
    its upper bound on some axis, holds no point, and the search of such a
    box over points with finite coordinates leaves the iterator empty: the
    first [kdtree_iterator_get_next] returns [KDTREE_END]. *)
Theorem kdtree_search_space_empty_box x y z n tree_ptr iter_ptr
    x_min x_max y_min y_max z_min z_max :
  1 < n -> arrays_hold x y z n ->
  Forall finite_point (point_set x y z n) ->
  handle_ok tree_ptr -> iter_handle_ok iter_ptr ->
  empty_box (search_space_of x_min x_max y_min y_max z_min z_max) ->
  (forall p, _point_in_search_space p
               (search_space_of x_min x_max y_min y_max z_min z_max) = false) /\
  exists t iter,
    kdtree_build x y z n tree_ptr = Some t /\
    kdtree_search_space (Some t) iter_ptr x_min x_max y_min y_max z_min z_max
      = Some iter /\
    it_size iter = 0 /\ contents iter = [] /\
    kdtree_iterator_get_next iter = Some (KDTREE_END, iter).
Proof.
  intros Hn Harr Hfin Hh Hit Hempty.
  split; [intros p; now apply empty_box_outside|].
  destruct (build_search_cache_order x y z n tree_ptr iter_ptr
              x_min x_max y_min y_max z_min z_max Hn Harr Hfin Hh Hit)
    as (t & iter & Hb & Hs & Hwf & Hcur & Hperm & Hc).
  exists t, iter. split; [done|]. split; [done|].
  assert (contents iter = []) as Hnil.
  { rewrite Hc. apply inside_none, Forall_forall. intros p _.
    now apply empty_box_outside. }
  assert (it_size iter = 0) as Hsz.
  { rewrite <- (length_contents iter Hwf), Hnil. done. }
  split; [done|]. split; [done|].
  unfold kdtree_iterator_get_next. rewrite Hcur, Hsz. done.
Qed.

(** X15: on a built tree [kdtree_search] returns an iterator exactly when
    the apothem is at least 0: a negative apothem and a NaN stop at the
    assertion; so does every search through a [NULL] tree handle, as
    [kdtree_delete] leaves it, while a search with the [NULL] iterator
    handle that [kdtree_iterator_delete] leaves allocates a new iterator. *)
Theorem kdtree_search_succeeds_iff x y z n tree_ptr iter_ptr :
  1 < n -> arrays_hold x y z n -> handle_ok tree_ptr -> iter_handle_ok iter_ptr ->
  exists t,
    kdtree_build x y z n tree_ptr = Some t /\
    (forall cx cy cz apothem,
       is_Some (kdtree_search (Some t) iter_ptr cx cy cz apothem) <->
       dge apothem 0 = true) /\
    (forall cx cy cz apothem,
       kdtree_search (kdtree_delete (Some t)) iter_ptr cx cy cz apothem = None) /\
    (forall cx cy cz apothem, dge apothem 0 = true ->
       is_Some (kdtree_search (Some t) (kdtree_iterator_delete iter_ptr)
                  cx cy cz apothem)).
Proof.
  intros Hn Harr Hh Hit.
  destruct (kdtree_build_spec x y z n tree_ptr Hn Harr Hh) as
    (t & T & Hb & HT & (_ & _ & Hmax) & Hcount & _ & Hroot & HnT & Hrepr & _).
  rewrite Hcount in Hmax.
  pose proof (nleaves_is_branch T ltac:(lia)) as Hbr.
  pose proof (nnodes_nleaves T) as Hsz.
  exists t. split; [done|]. split; [|split].
  - intros cx cy cz apothem. unfold kdtree_search.
    destruct (dge apothem 0) eqn:E.
    + split; [done|]. intros _.
      destruct (kdtree_search_space_spec t T iter_ptr
                  (cx - apothem) (cx + apothem) (cy - apothem) (cy + apothem)
                  (cz - apothem) (cz + apothem) Hrepr Hroot Hbr ltac:(lia) Hit)
        as (iter & -> & _). by eexists.
    + split; [intros [? ?]; done|done].
  - intros cx cy cz apothem. unfold kdtree_search, kdtree_delete.
    now destruct (dge apothem 0).
  - intros cx cy cz apothem E. unfold kdtree_search, kdtree_iterator_delete. rewrite E.
    destruct (kdtree_search_space_spec t T None
                (cx - apothem) (cx + apothem) (cy - apothem) (cy + apothem)
                (cz - apothem) (cz + apothem) Hrepr Hroot Hbr ltac:(lia) I)
      as (iter & -> & _). by eexists.
Qed.

End FurtherResults.

(** ** X16 and X17: the tests on boxes and the comparison routines *)

(** X16: a domain that the search space encloses intersects it, whatever
    the bounds are: the test of [_explore_branch] for an intersection,
    which comes first, turns away no branch that the test for enclosure
    would report whole. *)
Theorem enclosed_domain_intersects search_space domain :
  _completely_enclosed search_space domain = true ->
  _search_area_intersects search_space domain = true.
Proof.
  unfold _completely_enclosed, _search_area_intersects. intros He.
  rewrite !andb_true_iff in He. unfold dge in He.
  destruct He as [[[[[[[[[[[X1 _] _] X4] Y1] _] _] Y4] Z1] _] _] Z4].
  assert (forall a b, dle a b = true -> dgt a b = false) as U
    by (intros a b; apply dle_not_gt).
  rewrite (U _ _ X4), (dle_not_gt _ _ X1), (U _ _ Y4), (dle_not_gt _ _ Y1),
    (U _ _ Z4), (dle_not_gt _ _ Z1). done.
Qed.

(** X17: the comparison routines [cmp_x], [cmp_y], [cmp_z] return -1, 0 or
    1 and swap sign with their arguments; between points without a NaN
    they are at most 0 exactly when the first coordinate is at most the
    second; a NaN coordinate compares equal to every value, so that three
    points whose middle one has a NaN on the axis are ordered
    inconsistently as soon as the outer two differ. *)
Theorem cmp_routines_order axis a b :
  func_select axis a b = (- func_select axis b a)%Z /\
  (-1 <= func_select axis a b <= 1)%Z /\
  (ordered_point a -> ordered_point b ->
     ((func_select axis a b <= 0)%Z <-> dle (coord axis a) (coord axis b) = true)) /\
  (dle (coord axis a) (coord axis a) = false ->
     func_select axis a b = 0%Z /\ func_select axis b a = 0%Z) /\
  (forall c, dle (coord axis a) (coord axis a) = false ->
     dlt (coord axis b) (coord axis c) = true ->
     ~ cmp_consistent (func_select axis) [c; a; b]).
Proof.
  rewrite !func_select_coord. split; [apply CMP_dlt_opp|]. split.
  { unfold CMP. destruct (dlt _ _); [lia|]. destruct (dlt _ _); lia. }
  split; [intros Ha Hb; apply CMP_dlt_le; now apply ordered_point_coord|].
  split; [apply CMP_dlt_nan|].
  intros c Hnan Hlt [_ Htrans].
  specialize (Htrans c a b ltac:(in_list) ltac:(in_list) ltac:(in_list)).
  rewrite !func_select_coord in Htrans.
  destruct (CMP_dlt_nan _ (coord axis c) Hnan) as [H1 H2].
  destruct (CMP_dlt_nan _ (coord axis b) Hnan) as [H3 H4].
  rewrite H2, H3 in Htrans. specialize (Htrans ltac:(lia) ltac:(lia)).
  unfold CMP in Htrans. rewrite Hlt in Htrans. lia.
Qed.

(** ** X18: the leaf test of [_DEBUG_MODE] *)

Section DebugModeFacts.
Context {libc : Libc}.

Lemma _report_all_leaves_debug_eq t fuel : forall node iter,
  leaf_tests_agree t ->
  _report_all_leaves_debug fuel t node iter = _report_all_leaves fuel t node iter.
Proof.
  induction fuel as [|fuel IH]; intros node iter Hag; [done|].
  cbn [_report_all_leaves_debug _report_all_leaves].
  destruct node as [p|]; [|done]. cbn [mbind option_bind].
  destruct (cell (node_data t) p) as [nd|] eqn:Hnd; [|done]. cbn [mbind option_bind].
  rewrite (Hag _ _ Hnd). destruct (_is_leaf_node nd); [done|].
  rewrite IH by done.
  destruct (_report_all_leaves fuel t (nd_left nd) iter); [|done].
  cbn [mbind option_bind]. now apply IH.
Qed.

Lemma _explore_branch_debug_eq t search search' node depth search_space domain iter :
  leaf_tests_agree t ->
  (forall node depth domain iter,
     search' t node depth search_space domain iter =
     search t node depth search_space domain iter) ->
  _explore_branch_debug search' t node depth search_space domain iter =
  _explore_branch search t node depth search_space domain iter.
Proof.
  intros Hag Hs. unfold _explore_branch_debug, _explore_branch.
  destruct node as [p|]; [|done]. cbn [mbind option_bind].
  destruct (cell (node_data t) p) as [nd|] eqn:Hnd; [|done]. cbn [mbind option_bind].
  rewrite (Hag _ _ Hnd). destruct (_is_leaf_node nd); [done|].
  destruct (_search_area_intersects search_space domain); [|done].
  destruct (_completely_enclosed search_space domain); [|apply Hs].
  now apply _report_all_leaves_debug_eq.
Qed.

Lemma _search_kdtree_debug_eq t search_space fuel : forall node depth domain iter,
  leaf_tests_agree t ->
  _search_kdtree_debug fuel t node depth search_space domain iter =
  _search_kdtree fuel t node depth search_space domain iter.
Proof.
  induction fuel as [|fuel IH]; intros node depth domain iter Hag; [done|].
  cbn [_search_kdtree_debug _search_kdtree]. cbv zeta.
  destruct node as [p|]; [|done]. cbn [mbind option_bind].
  destruct (cell (node_data t) p) as [nd|] eqn:Hnd; [|done]. cbn [mbind option_bind].
  rewrite (_explore_branch_debug_eq t (_search_kdtree fuel)) by (done || intros; now apply IH).
  destruct (_explore_branch _ _ _ _ _ _ _); [|done]. cbn [mbind option_bind].
  apply _explore_branch_debug_eq; [done|]. intros. now apply IH.
Qed.

Lemma repr_leaf_tests_agree t T :
  repr (node_data t) (points t) 0 0 T ->
  N.of_nat (length (node_data t)) = nnodes T ->
  leaf_tests_agree t.
Proof.
  intros Hrepr Hlen i nd Hnd. pose proof (cell_Some_lt _ _ _ Hnd) as Hi.
  destruct (repr_nodes_ok _ _ _ 0 0 i Hrepr ltac:(lia))
    as (nd' & Hnd' & [(Hl & Hr & _)|(l & r & Hl & Hr & _)]);
    assert (nd' = nd) as -> by congruence;
    unfold _is_leaf_node_debug, _is_leaf_node; rewrite Hl; try rewrite Hr; done.
Qed.

(** X18: on a built tree the leaf test of [_DEBUG_MODE], which looks at the
    left pointer only, agrees with [_is_leaf_node] on every node of the
    arena, and a search gives the same result under both: the iterator the
    routines of the search leave is the same whichever test they use. *)
Theorem debug_mode_search_agrees x y z n tree_ptr :
  1 < n -> arrays_hold x y z n -> handle_ok tree_ptr ->
  exists t,
    kdtree_build x y z n tree_ptr = Some t /\
    (forall i nd, cell (node_data t) i = Some nd ->
       _is_leaf_node_debug nd = _is_leaf_node nd) /\
    forall iter_ptr x_min x_max y_min y_max z_min z_max,
      kdtree_search_space_debug (Some t) iter_ptr x_min x_max y_min y_max z_min z_max =
      kdtree_search_space (Some t) iter_ptr x_min x_max y_min y_max z_min z_max.
Proof.
  intros Hn Harr Hh.
  destruct (kdtree_build_spec x y z n tree_ptr Hn Harr Hh) as
    (t & T & Hb & HT & Hwf & Hcount & _ & Hroot & HnT & Hrepr & _).
  pose proof Hwf as (_ & Hlen & Hmax). rewrite Hcount in Hmax.
  pose proof (nnodes_nleaves T) as Hsz.
  assert (leaf_tests_agree t) as Hag by (apply (repr_leaf_tests_agree t T); [done|lia]).
  exists t. split; [done|]. split; [exact Hag|].
  intros iter_ptr x_min x_max y_min y_max z_min z_max.
  unfold kdtree_search_space_debug, kdtree_search_space. cbn [mbind option_bind].
  destruct (root t) as [r|]; [|done]. cbn [mbind option_bind].
  destruct (cell (node_data t) r) as [nd|] eqn:Hnd; [|done]. cbn [mbind option_bind].
  rewrite (Hag _ _ Hnd). destruct (_is_leaf_node nd); [done|].
  now apply _search_kdtree_debug_eq.
Qed.

End DebugModeFacts.

(** ** The further properties on the example inputs *)

Lemma full_iter_wf : iter_wf full_iter.
Proof. unfold iter_wf. simpl. lia. Qed.

Lemma far_arrays_hold : arrays_hold far_x zero4 zero4 4.
Proof. unfold arrays_hold. simpl. lia. Qed.

Lemma far_points_ordered : Forall ordered_point (point_set far_x zero4 zero4 4).
Proof. vm_compute. repeat constructor. Qed.

Lemma test_points_in_unit_box :
  Forall (fun p => _point_in_search_space p (search_space_of 0 1 0 1 0 1) = true)
    (point_set test_x test_y test_z 11).
Proof. vm_compute. repeat constructor. Qed.

Lemma kdtree_iterator_sort_ascending_witness :
  iter_wf test_iter /\
  contents (kdtree_iterator_sort test_iter) ≡ₚ [3; 0; 7] /\
  StronglySorted N.le (contents (kdtree_iterator_sort test_iter)) /\
  it_current (kdtree_iterator_sort test_iter) = 1.
Proof.
  split; [exact test_iter_wf|].
  destruct (kdtree_iterator_sort_ascending test_iter test_iter_wf)
    as (_ & Hp & Hs & _ & _ & Hc & _).
  split; [exact Hp|]. split; [exact Hs|exact Hc].
Defined.

Lemma _iterator_push_appends_witness :
  iter_wf full_iter /\
  exists iter', _iterator_push full_iter 9 = Some iter' /\
    contents iter' = [4; 2; 9] /\ it_size iter' = 3 /\ it_capacity iter' = 4.
Proof.
  split; [exact full_iter_wf|].
  destruct (_iterator_push_appends full_iter 9 full_iter_wf)
    as (iter' & Hp & _ & Hc & Hs & _ & Hcap).
  exists iter'. split; [exact Hp|]. split; [exact Hc|]. split; [exact Hs|exact Hcap].
Defined.

Lemma kdtree_search_space_reports_indices_witness :
  1 < 4 /\ arrays_hold far_x zero4 zero4 4 /\ handle_ok None /\ iter_handle_ok None /\
  exists t iter,
    kdtree_build far_x zero4 zero4 4 None = Some t /\
    kdtree_search_space (Some t) None
      (- DBL_MAX) DBL_MAX (- DBL_MAX) DBL_MAX (- DBL_MAX) DBL_MAX = Some iter /\
    NoDup (contents iter) /\ (forall i, i ∈ contents iter -> i < 4) /\ it_size iter <= 4.
Proof.
  split; [lia|]. split; [exact far_arrays_hold|]. split; [exact I|]. split; [exact I|].
  destruct (kdtree_search_space_reports_indices far_x zero4 zero4 4 None None
              (- DBL_MAX) DBL_MAX (- DBL_MAX) DBL_MAX (- DBL_MAX) DBL_MAX)
    as (t & iter & Hb & Hs & _ & Hnd & Hlt & Hsz);
    [lia|exact far_arrays_hold|exact I|exact I|].
  exists t, iter. repeat split; assumption.
Defined.

Lemma kdtree_search_then_iterate_witness :
  1 < 11 /\ 11 <= SIZE_MAX /\ arrays_hold test_x test_y test_z 11 /\
  handle_ok None /\ iter_handle_ok (Some test_iter) /\
  exists t iter,
    kdtree_build test_x test_y test_z 11 None = Some t /\
    kdtree_search_space (Some t) (Some test_iter) 0 1 0.5 1 0 1 = Some iter /\
    get_next_n (N.to_nat (it_size iter)) iter =
      Some (contents iter, set_current iter (it_size iter)) /\
    KDTREE_END ∉ contents iter.
Proof.
  split; [lia|]. split; [unfold SIZE_MAX; lia|]. split; [exact test_arrays_hold|].
  split; [exact I|]. split; [exact test_iter_wf|].
  destruct (kdtree_search_then_iterate test_x test_y test_z 11 None (Some test_iter)
              0 1 0.5 1 0 1)
    as (t & iter & Hb & Hs & Hg & _ & He);
    [lia|unfold SIZE_MAX; lia|exact test_arrays_hold|exact I|exact test_iter_wf|].
  exists t, iter. repeat split; assumption.
Defined.

Lemma kdtree_search_space_capacity_witness :
  1 < 11 /\ arrays_hold test_x test_y test_z 11 /\
  handle_ok None /\ iter_handle_ok (Some test_iter) /\
  exists t iter,
    kdtree_build test_x test_y test_z 11 None = Some t /\
    kdtree_search_space (Some t) (Some test_iter) 0 1 0 1 0 1 = Some iter /\
    (exists k, it_capacity iter = 5 * 2 ^ k) /\
    (it_size iter <= 5 -> it_capacity iter = 5) /\
    (5 < it_capacity iter -> it_capacity iter < 2 * it_size iter).
Proof.
  split; [lia|]. split; [exact test_arrays_hold|]. split; [exact I|].
  split; [exact test_iter_wf|].
  destruct (kdtree_search_space_capacity test_x test_y test_z 11 None (Some test_iter)
              0 1 0 1 0 1)
    as (t & iter & Hb & Hs & Hpow & Hkeep & Hgrow);
    [lia|exact test_arrays_hold|exact I|exact test_iter_wf|].
  exists t, iter. repeat split; assumption.
Defined.

Lemma kdtree_build_succeeds_iff_witness :
  handle_ok None /\
  (is_Some (kdtree_build test_x test_y test_z 11 None) <->
   1 < 11 /\ arrays_hold test_x test_y test_z 11) /\
  (is_Some (kdtree_build test_x test_y test_z 12 None) <->
   1 < 12 /\ arrays_hold test_x test_y test_z 12).
Proof.
  split; [exact I|]. split.
  - exact (proj1 (kdtree_build_succeeds_iff test_x test_y test_z 11 None I)).
  - exact (proj1 (kdtree_build_succeeds_iff test_x test_y test_z 12 None I)).
Defined.

Lemma kdtree_build_forgets_handle_witness :
  1 < 4 /\ arrays_hold zero4 near_x zero4 4 /\ handle_ok None /\
  handle_ok (Some near_tree) /\ iter_handle_ok None /\ iter_handle_ok (Some test_iter) /\
  exists t t' iter iter',
    kdtree_build zero4 near_x zero4 4 None = Some t /\
    kdtree_build zero4 near_x zero4 4 (Some near_tree) = Some t' /\
    points t' = points t /\
    kdtree_search_space (Some t) None 0 0 1 2 0 0 = Some iter /\
    kdtree_search_space (Some t') (Some test_iter) 0 0 1 2 0 0 = Some iter' /\
    contents iter' = contents iter.
Proof.
  split; [lia|]. split; [exact near_arrays_hold|]. split; [exact I|].
  split; [exact (proj1 near_tree_wf)|]. split; [exact I|]. split; [exact test_iter_wf|].
  destruct (kdtree_build_forgets_handle zero4 near_x zero4 4 None (Some near_tree)
              None (Some test_iter) 0 0 1 2 0 0)
    as (t & t' & iter & iter' & Hb & Hb' & Hp & Hs & Hs' & Hc & _);
    [lia|exact near_arrays_hold|exact I|exact (proj1 near_tree_wf)|exact I
    |exact test_iter_wf|].
  exists t, t', iter, iter'. repeat split; assumption.
Defined.

Lemma kdtree_build_height_witness :
  1 < 11 /\ arrays_hold test_x test_y test_z 11 /\ handle_ok None /\
  exists t T,
    kdtree_build test_x test_y test_z 11 None = Some t /\
    repr (node_data t) (points t) 0 0 T /\ height T = 5%nat.
Proof.
  split; [lia|]. split; [exact test_arrays_hold|]. split; [exact I|].
  destruct (kdtree_build_height test_x test_y test_z 11 None)
    as (t & T & Hb & Hr & Hh & _); [lia|exact test_arrays_hold|exact I|].
  exists t, T. split; [exact Hb|]. split; [exact Hr|exact Hh].
Defined.

Lemma kdtree_build_kd_order_witness :
  1 < 4 /\ arrays_hold far_x zero4 zero4 4 /\ handle_ok None /\
  Forall ordered_point (point_set far_x zero4 zero4 4) /\
  exists t T,
    kdtree_build far_x zero4 zero4 4 None = Some t /\
    repr (node_data t) (points t) 0 0 T /\ kd_ok 0 T.
Proof.
  split; [lia|]. split; [exact far_arrays_hold|]. split; [exact I|].
  split; [exact far_points_ordered|].
  destruct (kdtree_build_kd_order far_x zero4 zero4 4 None)
    as (t & T & Hb & Hr & _ & _ & Hk);
    [lia|exact far_arrays_hold|exact I|exact far_points_ordered|].
  exists t, T. split; [exact Hb|]. split; [exact Hr|exact Hk].
Defined.

Lemma kdtree_build_pointers_witness :
  1 < 11 /\ arrays_hold test_x test_y test_z 11 /\ handle_ok None /\
  exists t,
    kdtree_build test_x test_y test_z 11 None = Some t /\
    forall i, i < max_nodes t ->
      exists nd, cell (node_data t) i = Some nd /\
        ((nd_left nd = NULL /\ nd_right nd = NULL /\ nd_idx nd < count t) \/
         (exists l r, nd_left nd = Some l /\ nd_right nd = Some r /\
            i < l /\ l < r /\ r < max_nodes t)).
Proof.
  split; [lia|]. split; [exact test_arrays_hold|]. split; [exact I|].
  apply (kdtree_build_pointers test_x test_y test_z 11 None);
    [lia|exact test_arrays_hold|exact I].
Defined.

Lemma _report_all_leaves_reports_subtree_witness :
  1 < 11 /\ arrays_hold test_x test_y test_z 11 /\ handle_ok None /\
  exists t,
    kdtree_build test_x test_y test_z 11 None = Some t /\
    forall node iter, node < max_nodes t -> iter_wf iter ->
      exists iter' vs,
        _report_all_leaves (N.to_nat (max_nodes t)) t (Some node) iter = Some iter' /\
        iter_wf iter' /\
        contents iter' = contents iter ++ vs /\
        NoDup vs /\
        forall i, i ∈ vs <-> exists p, under t node p /\ pt_idx p = i.
Proof.
  split; [lia|]. split; [exact test_arrays_hold|]. split; [exact I|].
  apply (_report_all_leaves_reports_subtree test_x test_y test_z 11 None);
    [lia|exact test_arrays_hold|exact I].
Defined.

Lemma kdtree_search_sorted_result_witness :
  1 < 11 /\ arrays_hold test_x test_y test_z 11 /\
  Forall finite_point (point_set test_x test_y test_z 11) /\
  handle_ok None /\ iter_handle_ok None /\
  exists t iter,
    kdtree_build test_x test_y test_z 11 None = Some t /\
    kdtree_search_space (Some t) None 0 1 0.5 1 0 1 = Some iter /\
    contents (kdtree_iterator_sort iter) = [0; 1; 2; 5; 6; 9; 10].
Proof.
  split; [lia|]. split; [exact test_arrays_hold|]. split; [exact test_points_finite|].
  split; [exact I|]. split; [exact I|].
  destruct (kdtree_search_sorted_result test_x test_y test_z 11 None None 0 1 0.5 1 0 1)
    as (t & iter & Hb & Hs & _ & Hc & _);
    [lia|exact test_arrays_hold|exact test_points_finite|exact I|exact I|].
  exists t, iter. split; [exact Hb|]. split; [exact Hs|exact Hc].
Defined.

Lemma kdtree_search_space_covering_box_witness :
  1 < 11 /\ arrays_hold test_x test_y test_z 11 /\
  Forall finite_point (point_set test_x test_y test_z 11) /\
  handle_ok None /\ iter_handle_ok None /\
  Forall (fun p => _point_in_search_space p (search_space_of 0 1 0 1 0 1) = true)
    (point_set test_x test_y test_z 11) /\
  exists t iter,
    kdtree_build test_x test_y test_z 11 None = Some t /\
    kdtree_search_space (Some t) None 0 1 0 1 0 1 = Some iter /\
    it_size iter = 11 /\ contents iter ≡ₚ indices 11.
Proof.
  split; [lia|]. split; [exact test_arrays_hold|]. split; [exact test_points_finite|].
  split; [exact I|]. split; [exact I|]. split; [exact test_points_in_unit_box|].
  destruct (kdtree_search_space_covering_box test_x test_y test_z 11 None None 0 1 0 1 0 1)
    as (t & iter & _ & Hb & Hs & Hsz & Hc & _);
    [lia|exact test_arrays_hold|exact test_points_finite|exact I|exact I
    |exact test_points_in_unit_box|].
  exists t, iter. repeat split; assumption.
Defined.

Lemma kdtree_search_space_empty_box_witness :
  1 < 11 /\ arrays_hold test_x test_y test_z 11 /\
  Forall finite_point (point_set test_x test_y test_z 11) /\
  handle_ok None /\ iter_handle_ok None /\
  empty_box (search_space_of 1 0 0 1 0 1) /\
  exists t iter,
    kdtree_build test_x test_y test_z 11 None = Some t /\
    kdtree_search_space (Some t) None 1 0 0 1 0 1 = Some iter /\
    it_size iter = 0 /\
    kdtree_iterator_get_next iter = Some (KDTREE_END, iter).
Proof.
  assert (empty_box (search_space_of 1 0 0 1 0 1)) as He by (exists DIM_X; reflexivity).
  split; [lia|]. split; [exact test_arrays_hold|]. split; [exact test_points_finite|].
  split; [exact I|]. split; [exact I|]. split; [exact He|].
  destruct (kdtree_search_space_empty_box test_x test_y test_z 11 None None 1 0 0 1 0 1)
    as (_ & t & iter & Hb & Hs & Hsz & _ & Hn);
    [lia|exact test_arrays_hold|exact test_points_finite|exact I|exact I|exact He|].
  exists t, iter. repeat split; assumption.
Defined.

Lemma kdtree_search_succeeds_iff_witness :
  1 < 11 /\ arrays_hold test_x test_y test_z 11 /\ handle_ok None /\
  iter_handle_ok None /\
  exists t,
    kdtree_build test_x test_y test_z 11 None = Some t /\
    is_Some (kdtree_search (Some t) None 0.5 0.5 0.5 0.5) /\
    ~ is_Some (kdtree_search (Some t) None 0.5 0.5 0.5 (-1)).
Proof.
  split; [lia|]. split; [exact test_arrays_hold|]. split; [exact I|]. split; [exact I|].
  destruct (kdtree_search_succeeds_iff test_x test_y test_z 11 None None)
    as (t & Hb & Hiff & _ & _); [lia|exact test_arrays_hold|exact I|exact I|].
  exists t. split; [exact Hb|]. split.
  - apply Hiff. reflexivity.
  - intros H. apply Hiff in H. discriminate H.
Defined.

Lemma enclosed_domain_intersects_witness :
  _completely_enclosed initial_domain (search_space_of 0 1 0 1 0 1) = true /\
  _search_area_intersects initial_domain (search_space_of 0 1 0 1 0 1) = true.
Proof.
  split; [reflexivity|].
  apply (enclosed_domain_intersects initial_domain (search_space_of 0 1 0 1 0 1)).
  reflexivity.
Defined.

Lemma debug_mode_search_agrees_witness :
  1 < 11 /\ arrays_hold test_x test_y test_z 11 /\ handle_ok None /\
  exists t,
    kdtree_build test_x test_y test_z 11 None = Some t /\
    kdtree_search_space_debug (Some t) None 0 1 0.5 1 0 1 =
    kdtree_search_space (Some t) None 0 1 0.5 1 0 1.
Proof.
  split; [lia|]. split; [exact test_arrays_hold|]. split; [exact I|].
  destruct (debug_mode_search_agrees test_x test_y test_z 11 None)
    as (t & Hb & _ & Hs); [lia|exact test_arrays_hold|exact I|].
  exists t. split; [exact Hb|]. apply Hs.
Defined.

(** ** X21: rebuilding in place *)

Section Rebuild.
Context {libc : Libc}.

(** X21: a build on a handle whose recorded count equals the new count
    keeps the tree record with its point cache and arena (no new
    allocation), resets the arena cursor to 0 and writes
    [(x[i], y[i], z[i])] with original index [i] to slot [i] of the point
    cache for every [i < count] before the builder runs; the sizes of the
    cache and of the arena stay as they were, and nothing of the previous
    build is left: whatever the coordinates are, the point cache is that
    of a build from [NULL] and every later search leaves the entries that
    the search of that build leaves. *)
Theorem kdtree_rebuild_in_place x y z n t0 :
  1 < n -> arrays_hold x y z n ->
  tree_wf t0 -> count t0 = n ->
  kdtree_alloc n (Some t0) = t0 /\
  exists t1 t2 t',
    cache_points x y z n (set_next_node t0 0) = Some t1 /\
    next_node t1 = 0 /\ node_data t1 = node_data t0 /\
    (forall i, i < n -> cell (points t1) i = point_at x y z i) /\
    _build_kdtree (N.to_nat n) 0 (n - 1) 0 t1 = Some (0, t2) /\
    kdtree_build x y z n (Some t0) = Some (set_root t2 (Some 0)) /\
    count t2 = count t0 /\ max_nodes t2 = max_nodes t0 /\
    length (points t2) = length (points t0) /\
    length (node_data t2) = length (node_data t0) /\
    kdtree_build x y z n None = Some t' /\
    points t2 = points t' /\
    forall iter_ptr iter_ptr' x_min x_max y_min y_max z_min z_max,
      iter_handle_ok iter_ptr -> iter_handle_ok iter_ptr' ->
      exists iter iter',
        kdtree_search_space (Some (set_root t2 (Some 0))) iter_ptr
          x_min x_max y_min y_max z_min z_max = Some iter /\
        kdtree_search_space (Some t') iter_ptr'
          x_min x_max y_min y_max z_min z_max = Some iter' /\
        contents iter = contents iter'.
Proof.
  intros Hn Harr Hwf0 Hcount. pose proof Hwf0 as (Hw1 & Hw2 & Hw3).
  assert (kdtree_alloc n (Some t0) = t0) as Halloc.
  { unfold kdtree_alloc. now apply N.eqb_eq in Hcount as ->. }
  split; [done|].
  destruct (cache_points_spec x y z n (set_next_node t0 0) Harr) as
    (t1 & Hcache & Hc1 & Hm1 & Hn1 & Hr1 & Hd1 & Hp1); [simpl; lia|].
  simpl in Hc1, Hm1, Hn1, Hr1, Hd1.
  destruct (_build_kdtree_refines (N.to_nat n) 0 (n - 1) 0 t1) as
    (t2 & T & Hb & HT & Hc2 & Hm2 & Hr2 & Hn2 & Hl2 & Hnl2 & _);
    [lia|rewrite Hp1, length_point_set by done; lia|lia
    |rewrite Hn1, Hm1; lia|rewrite Hm1, Hd1; lia|].
  rewrite Hn1 in Hb.
  assert (kdtree_build x y z n (Some t0) = Some (set_root t2 (Some 0))) as Hbuild.
  { unfold kdtree_build. replace (1 <? n) with true by (symmetry; now apply N.ltb_lt).
    cbn [negb]. rewrite Halloc, Hcache. cbn [mbind option_bind]. now rewrite Hb. }
  destruct (kdtree_build_spec x y z n (Some t0) Hn Harr Hwf0) as
    (u & U & Hu & HU & _ & _ & _ & _ & _ & _ & Hpts).
  destruct (kdtree_build_spec x y z n None Hn Harr I) as
    (t' & U' & Hu' & HU' & _ & _ & _ & _ & _ & _ & Hpts').
  assert (U' = U) as -> by congruence.
  assert (u = set_root t2 (Some 0)) as -> by congruence.
  exists t1, t2, t'.
  split; [done|]. split; [done|]. split; [done|]. split.
  { intros i Hi. rewrite Hp1. now apply cell_point_set. }
  split; [done|]. split; [done|].
  split; [congruence|]. split; [congruence|]. split.
  { rewrite Hl2, Hp1, length_point_set by done. lia. }
  split; [congruence|]. split; [done|]. split.
  { simpl in Hpts. congruence. }
  intros iter_ptr iter_ptr' x_min x_max y_min y_max z_min z_max Hit Hit'.
  destruct (build_then_search x y z n (Some t0) iter_ptr
              x_min x_max y_min y_max z_min z_max Hn Harr Hwf0 Hit)
    as (v & V & iter & Hv & HV & _ & _ & _ & _ & _ & _ & _ & Hs & _ & _ & Hc).
  destruct (build_then_search x y z n None iter_ptr'
              x_min x_max y_min y_max z_min z_max Hn Harr I Hit')
    as (v' & V' & iter' & Hv' & HV' & _ & _ & _ & _ & _ & _ & _ & Hs' & _ & _ & Hc').
  assert (v = set_root t2 (Some 0)) as -> by congruence.
  assert (v' = t') as -> by congruence.
  assert (V' = V) as -> by congruence.
  exists iter, iter'. split; [done|]. split; [done|]. congruence.
Qed.

End Rebuild.

Lemma kdtree_rebuild_in_place_witness :
  1 < 4 /\ arrays_hold far_x zero4 zero4 4 /\
  tree_wf near_tree /\ count near_tree = 4 /\
  kdtree_alloc 4 (Some near_tree) = near_tree /\
  exists t,
    kdtree_build far_x zero4 zero4 4 (Some near_tree) = Some t /\
    length (points t) = length (points near_tree) /\
    length (node_data t) = length (node_data near_tree).
Proof.
  split; [lia|]. split; [exact far_arrays_hold|].
  split; [exact (proj1 near_tree_wf)|]. split; [exact (proj2 near_tree_wf)|].
  destruct (kdtree_rebuild_in_place far_x zero4 zero4 4 near_tree)
    as (Ha & t1 & t2 & t' & _ & _ & _ & _ & _ & Hb & _ & _ & Hp & Hd & _);
    [lia|exact far_arrays_hold|exact (proj1 near_tree_wf)|exact (proj2 near_tree_wf)|].
  split; [exact Ha|]. eexists. split; [exact Hb|]. split; [exact Hp|exact Hd].
Defined.

(** * The build in memory

    C10 and X22: [InMemory.kdtree_build] against [kdtree_build]. *)

Section Memory.
Context {libc : Libc}.

Lemma bind_Some {A B} (m : M A) (k : A -> M B) h a h1 :
  m h = Some (a, h1) -> (m ≫= k) h = k a h1.
Proof. intros H. unfold mbind, M_bind. now rewrite H. Qed.

Lemma cell_insert_eq {A} (l : list A) b v :
  b < N.of_nat (length l) -> cell (<[N.to_nat b := v]> l) b = Some v.
Proof. intros H. unfold cell. apply list_lookup_insert_eq. lia. Qed.

Lemma cell_insert_ne {A} (l : list A) b b' v :
  b' <> b -> cell (<[N.to_nat b := v]> l) b' = cell l b'.
Proof. intros H. unfold cell. apply list_lookup_insert_ne. lia. Qed.

Lemma heap_store_spec h b o o0 :
  cell h b = Some (Some o0) ->
  heap_store b o h = Some (tt, <[N.to_nat b := Some o]> h).
Proof. intros H. unfold heap_store. now rewrite H. Qed.

Lemma others_kept_refl a pb nb h : others_kept a pb nb h h.
Proof. by split. Qed.

Lemma others_kept_trans a pb nb h1 h2 h3 :
  others_kept a pb nb h1 h2 -> others_kept a pb nb h2 h3 -> others_kept a pb nb h1 h3.
Proof.
  intros [L1 K1] [L2 K2]. split; [congruence|].
  intros b Ha Hp Hn. rewrite K2, K1 by done. done.
Qed.

Lemma others_kept_insert a pb nb h b v :
  b = a \/ b = pb \/ b = nb -> others_kept a pb nb h (<[N.to_nat b := v]> h).
Proof.
  intros Hb. split; [apply length_insert|].
  intros b' Ha Hp Hn. apply cell_insert_ne. destruct Hb as [E|[E|E]]; congruence.
Qed.

Lemma others_kept_doubles a pb nb h h' t :
  tree_in h a pb nb t -> others_kept a pb nb h h' -> doubles_kept h h'.
Proof.
  intros (Ha & Hp & Hn) [_ K] b l Hb. rewrite K; [done|..]; intros E; subst; congruence.
Qed.

Lemma tree_in_distinct h a pb nb t :
  tree_in h a pb nb t -> a <> pb /\ a <> nb /\ pb <> nb.
Proof. intros (Ha & Hp & Hn). repeat split; intros E; subst; congruence. Qed.

Lemma tree_in_store_tree h a pb nb t t' :
  tree_in h a pb nb t -> points t' = points t -> node_data t' = node_data t ->
  tree_in (<[N.to_nat a := Some (OTree (obj_of t' pb nb))]> h) a pb nb t'.
Proof.
  intros Hin Hpts Hnd. destruct (tree_in_distinct _ _ _ _ _ Hin) as (H1 & H2 & H3).
  destruct Hin as (Ha & Hp & Hn). split; [|split].
  - apply cell_insert_eq. eapply cell_Some_lt, Ha.
  - rewrite cell_insert_ne by congruence. congruence.
  - rewrite cell_insert_ne by congruence. congruence.
Qed.

Lemma tree_in_store_points h a pb nb t l :
  tree_in h a pb nb t ->
  tree_in (<[N.to_nat pb := Some (OPoints l)]> h) a pb nb (set_points t l).
Proof.
  intros Hin. destruct (tree_in_distinct _ _ _ _ _ Hin) as (H1 & H2 & H3).
  destruct Hin as (Ha & Hp & Hn). split; [|split].
  - rewrite cell_insert_ne by congruence. exact Ha.
  - apply cell_insert_eq. eapply cell_Some_lt, Hp.
  - rewrite cell_insert_ne by congruence. exact Hn.
Qed.

Lemma tree_in_store_nodes h a pb nb t l :
  tree_in h a pb nb t ->
  tree_in (<[N.to_nat nb := Some (ONodes l)]> h) a pb nb (set_node_data t l).
Proof.
  intros Hin. destruct (tree_in_distinct _ _ _ _ _ Hin) as (H1 & H2 & H3).
  destruct Hin as (Ha & Hp & Hn). split; [|split].
  - rewrite cell_insert_ne by congruence. exact Ha.
  - rewrite cell_insert_ne by congruence. exact Hp.
  - apply cell_insert_eq. eapply cell_Some_lt, Hn.
Qed.

Lemma load_tree_spec h a pb nb t :
  tree_in h a pb nb t -> load_tree a h = Some (obj_of t pb nb, h).
Proof. intros (Ha & _). unfold load_tree, heap_load, mbind, M_bind. now rewrite Ha. Qed.

Lemma load_points_spec h a pb nb t :
  tree_in h a pb nb t -> load_points pb h = Some (points t, h).
Proof. intros (_ & Hp & _). unfold load_points, heap_load, mbind, M_bind. now rewrite Hp. Qed.

Lemma load_nodes_spec h a pb nb t :
  tree_in h a pb nb t -> load_nodes nb h = Some (node_data t, h).
Proof. intros (_ & _ & Hn). unfold load_nodes, heap_load, mbind, M_bind. now rewrite Hn. Qed.

(** Sequencing. *)
Lemma runs_ret {A} h a pb nb (r : A) t :
  tree_in h a pb nb t -> runs (mret r) h a pb nb r t.
Proof. intros H. exists h. split; [done|]. split; [done|apply others_kept_refl]. Qed.

Lemma runs_bind {A B} (m : M A) (k : A -> M B) h a pb nb r t1 r' t2 :
  runs m h a pb nb r t1 ->
  (forall h1, tree_in h1 a pb nb t1 -> others_kept a pb nb h h1 ->
     runs (k r) h1 a pb nb r' t2) ->
  runs (m ≫= k) h a pb nb r' t2.
Proof.
  intros (h1 & Hm & Hin1 & K1) Hk. destruct (Hk h1 Hin1 K1) as (h2 & Hk2 & Hin2 & K2).
  exists h2. split; [|split; [done|eapply others_kept_trans; eauto]].
  now rewrite (bind_Some _ _ _ _ _ Hm).
Qed.

Lemma reads_bind {A B} (m : M A) (k : A -> M B) h a pb nb r r' t2 :
  m h = Some (r, h) -> runs (k r) h a pb nb r' t2 -> runs (m ≫= k) h a pb nb r' t2.
Proof.
  intros Hm (h2 & Hk2 & Hin2 & K2). exists h2. split; [|done].
  now rewrite (bind_Some _ _ _ _ _ Hm).
Qed.

(** The writes. *)
Lemma tree_write_runs h a pb nb t t' f :
  tree_in h a pb nb t ->
  f (obj_of t pb nb) = obj_of t' pb nb ->
  points t' = points t -> node_data t' = node_data t ->
  runs (InMemory.tree_write a f) h a pb nb tt t'.
Proof.
  intros Hin Hf Hp Hn. unfold InMemory.tree_write.
  eapply reads_bind; [now apply (load_tree_spec h a pb nb t)|]. rewrite Hf.
  eexists. split; [eapply heap_store_spec, Hin|].
  split; [now apply (tree_in_store_tree h a pb nb t)|]. apply others_kept_insert. tauto.
Qed.

Lemma point_write_runs h a pb nb t i f l :
  tree_in h a pb nb t -> store (points t) i f = Some l ->
  runs (InMemory.point_write a i f) h a pb nb tt (set_points t l).
Proof.
  intros Hin Hst. unfold InMemory.point_write.
  eapply reads_bind; [now apply (load_tree_spec h a pb nb t)|]. cbn [k_points obj_of].
  eapply reads_bind; [now apply (load_points_spec h a pb nb t)|].
  eapply reads_bind; [unfold lift; now rewrite Hst|].
  eexists. split; [eapply heap_store_spec, Hin|].
  split; [now apply tree_in_store_points|]. apply others_kept_insert. tauto.
Qed.

Lemma point_read_spec h a pb nb t i p :
  tree_in h a pb nb t -> cell (points t) i = Some p ->
  InMemory.point_read a i h = Some (p, h).
Proof.
  intros Hin Hp. unfold InMemory.point_read.
  rewrite (bind_Some _ _ _ _ _ (load_tree_spec h a pb nb t Hin)). cbn [k_points obj_of].
  rewrite (bind_Some _ _ _ _ _ (load_points_spec h a pb nb t Hin)).
  unfold lift. now rewrite Hp.
Qed.

Lemma node_write_runs h a pb nb t node f t' :
  tree_in h a pb nb t -> node_store t node f = Some t' ->
  runs (InMemory.node_write a node f) h a pb nb tt t'.
Proof.
  intros Hin Hst. unfold node_store in Hst.
  destruct (store (node_data t) node f) as [l|] eqn:Hl; [|done].
  cbn in Hst. injection Hst as <-. unfold InMemory.node_write.
  eapply reads_bind; [now apply (load_tree_spec h a pb nb t)|]. cbn [k_node_data obj_of].
  eapply reads_bind; [now apply (load_nodes_spec h a pb nb t)|].
  eapply reads_bind; [unfold lift; now rewrite Hl|].
  eexists. split; [eapply heap_store_spec, Hin|].
  split; [now apply tree_in_store_nodes|]. apply others_kept_insert. tauto.
Qed.

Lemma _next_node_runs h a pb nb t r t' :
  tree_in h a pb nb t -> _next_node t = Some (r, t') ->
  runs (InMemory._next_node a) h a pb nb r t'.
Proof.
  intros Hin Hn. unfold _next_node in Hn.
  destruct (next_node t <? max_nodes t) eqn:E; [|done]. injection Hn as <- <-.
  unfold InMemory._next_node.
  eapply reads_bind; [now apply (load_tree_spec h a pb nb t)|].
  cbn [k_next_node k_max_nodes obj_of]. rewrite E.
  eapply reads_bind; [done|].
  eapply runs_bind.
  - eexists. split; [eapply heap_store_spec, Hin|].
    split; [|apply others_kept_insert; tauto].
    apply (tree_in_store_tree h a pb nb t (set_next_node t (next_node t + 1))); done.
  - intros h1 Hin1 _. now apply runs_ret.
Qed.

Lemma _get_branch_node_runs h a pb nb t split r t' :
  tree_in h a pb nb t -> _get_branch_node t split = Some (r, t') ->
  runs (InMemory._get_branch_node a split) h a pb nb r t'.
Proof.
  intros Hin Hg. unfold _get_branch_node in Hg.
  destruct (_next_node t) as [[node t1]|] eqn:Hn; [|done]. cbn in Hg.
  destruct (node_store t1 node _) as [t2|] eqn:Hs; [|done]. cbn in Hg.
  injection Hg as <- <-. unfold InMemory._get_branch_node.
  eapply runs_bind; [apply (_next_node_runs h a pb nb t); eassumption|].
  intros h1 Hin1 _.
  eapply runs_bind; [apply (node_write_runs h1 a pb nb t1); eassumption|].
  intros h2 Hin2 _. now apply runs_ret.
Qed.

Lemma _get_leaf_node_runs h a pb nb t offset r t' :
  tree_in h a pb nb t -> _get_leaf_node t offset = Some (r, t') ->
  runs (InMemory._get_leaf_node a offset) h a pb nb r t'.
Proof.
  intros Hin Hg. unfold _get_leaf_node in Hg.
  destruct (_next_node t) as [[node t1]|] eqn:Hn; [|done]. cbn in Hg.
  destruct (node_store t1 node _) as [t2|] eqn:Hs; [|done]. cbn in Hg.
  injection Hg as <- <-. unfold InMemory._get_leaf_node.
  unfold node_store in Hs. unfold store in Hs.
  destruct (cell (node_data t1) node) as [nd|] eqn:Hnd; [|done].
  cbn in Hs. injection Hs as <-.
  assert (node < N.of_nat (length (node_data t1))) as Hlt by (eapply cell_Some_lt, Hnd).
  eapply runs_bind; [apply (_next_node_runs h a pb nb t); eassumption|].
  intros h1 Hin1 _.
  eapply runs_bind.
  { eapply node_write_runs; [exact Hin1|].
    unfold node_store, store. rewrite Hnd. reflexivity. }
  intros h2 Hin2 _.
  eapply runs_bind.
  { eapply node_write_runs; [exact Hin2|].
    unfold node_store, store. cbn [node_data set_node_data].
    rewrite cell_insert_eq by done. reflexivity. }
  intros h3 Hin3 _.
  eapply runs_bind.
  { eapply node_write_runs; [exact Hin3|].
    unfold node_store, store. cbn [node_data set_node_data].
    rewrite cell_insert_eq by (rewrite length_insert; done). reflexivity. }
  intros h4 Hin4 _. exists h4. split; [done|]. split; [|apply others_kept_refl].
  revert Hin4. unfold set_node_data. cbn. now rewrite !list_insert_insert_eq.
Qed.

Lemma sort_range_runs h a pb nb t cmp idx_from n pts :
  tree_in h a pb nb t -> sort_range cmp idx_from n (points t) = Some pts ->
  runs (InMemory.sort_range a cmp idx_from n) h a pb nb tt (set_points t pts).
Proof.
  intros Hin Hs. unfold sort_range in Hs.
  destruct (idx_from + n <=? N.of_nat (length (points t))) eqn:E; [|done].
  injection Hs as <-. unfold InMemory.sort_range.
  eapply reads_bind; [apply (load_tree_spec h a pb nb t); eassumption|]. cbn [k_points obj_of].
  eapply reads_bind; [apply (load_points_spec h a pb nb t); eassumption|]. rewrite E.
  eapply reads_bind; [done|].
  eexists. split; [eapply heap_store_spec, Hin|].
  split; [now apply tree_in_store_points|]. apply others_kept_insert. tauto.
Qed.

(** The builder in memory does what [_build_kdtree] does on the tree. *)
Lemma _build_kdtree_runs fuel : forall idx_from idx_to depth h a pb nb t r t',
  tree_in h a pb nb t -> _build_kdtree fuel idx_from idx_to depth t = Some (r, t') ->
  runs (InMemory._build_kdtree fuel idx_from idx_to depth a) h a pb nb r t'.
Proof.
  induction fuel as [|fuel IH]; intros idx_from idx_to depth h a pb nb t r t' Hin Hb; [done|].
  cbn [_build_kdtree InMemory._build_kdtree] in *. cbv zeta in *.
  destruct (idx_to - idx_from + 1 =? 1); [apply (_get_leaf_node_runs h a pb nb t); eassumption|].
  destruct (sort_range _ idx_from _ (points t)) as [pts|] eqn:Hs; [|done].
  cbn [mbind option_bind] in Hb.
  destruct (cell (points (set_points t pts)) _) as [point|] eqn:Hp; [|done].
  cbn [mbind option_bind] in Hb.
  destruct (_get_branch_node (set_points t pts) _) as [[node t1]|] eqn:Hg; [|done].
  cbn [mbind option_bind] in Hb.
  destruct (_build_kdtree fuel idx_from _ (depth + 1) t1) as [[l t2]|] eqn:Hl; [|done].
  cbn [mbind option_bind] in Hb.
  destruct (node_store t2 node _) as [t3|] eqn:Hsl; [|done].
  cbn [mbind option_bind] in Hb.
  destruct (_build_kdtree fuel _ idx_to (depth + 1) t3) as [[r0 t4]|] eqn:Hr; [|done].
  cbn [mbind option_bind] in Hb.
  destruct (node_store t4 node _) as [t5|] eqn:Hsr; [|done].
  cbn [mbind option_bind] in Hb. injection Hb as <- <-.
  eapply runs_bind; [apply (sort_range_runs h a pb nb t); eassumption|].
  intros h1 Hin1 _.
  eapply reads_bind; [apply (point_read_spec h1 a pb nb (set_points t pts)); eassumption|].
  eapply runs_bind; [apply (_get_branch_node_runs h1 a pb nb (set_points t pts)); eassumption|].
  intros h2 Hin2 _.
  eapply runs_bind; [apply (IH _ _ _ h2 a pb nb t1); eassumption|].
  intros h3 Hin3 _.
  eapply runs_bind; [apply (node_write_runs h3 a pb nb t2); eassumption|].
  intros h4 Hin4 _.
  eapply runs_bind; [apply (IH _ _ _ h4 a pb nb t3); eassumption|].
  intros h5 Hin5 _.
  eapply runs_bind; [apply (node_write_runs h5 a pb nb t4); eassumption|].
  intros h6 Hin6 _. now apply runs_ret.
Qed.

Lemma read_double_spec h x lx i v :
  cell h x = Some (Some (ODoubles lx)) -> cell lx i = Some v ->
  InMemory.read_double x i h = Some (v, h).
Proof.
  intros Hx Hv. unfold InMemory.read_double, load_doubles, heap_load, lift, mbind, M_bind.
  rewrite Hx. cbn. now rewrite Hv.
Qed.

Lemma cache_point_runs h a pb nb t x y z lx ly lz i t' :
  tree_in h a pb nb t ->
  cell h x = Some (Some (ODoubles lx)) -> cell h y = Some (Some (ODoubles ly)) ->
  cell h z = Some (Some (ODoubles lz)) ->
  cache_point lx ly lz i t = Some t' ->
  runs (InMemory.cache_point x y z i a) h a pb nb tt t'.
Proof.
  intros Hin Hx Hy Hz Hc. unfold cache_point in Hc.
  destruct (cell lx i) as [xi|] eqn:Hxi; [|done]. cbn [mbind option_bind] in Hc.
  destruct (cell ly i) as [yi|] eqn:Hyi; [|done]. cbn [mbind option_bind] in Hc.
  destruct (cell lz i) as [zi|] eqn:Hzi; [|done]. cbn [mbind option_bind] in Hc.
  unfold store in Hc. destruct (cell (points t) i) as [p0|] eqn:Hp0; [|done].
  cbn [mbind option_bind] in Hc. injection Hc as <-.
  assert (i < N.of_nat (length (points t))) as Hlt by (eapply cell_Some_lt, Hp0).
  unfold InMemory.cache_point.
  eapply runs_bind.
  { eapply point_write_runs; [exact Hin|]. unfold store. rewrite Hp0. reflexivity. }
  intros h1 Hin1 K1.
  pose proof (others_kept_doubles _ _ _ _ _ _ Hin K1) as D1.
  eapply reads_bind; [apply (read_double_spec h1 x lx); [apply D1; exact Hx|exact Hxi]|].
  eapply runs_bind.
  { eapply point_write_runs; [exact Hin1|]. unfold store. cbn [points set_points].
    rewrite cell_insert_eq by done. reflexivity. }
  intros h2 Hin2 K2.
  pose proof (others_kept_doubles _ _ _ _ _ _ Hin1 K2) as D2.
  eapply reads_bind;
    [apply (read_double_spec h2 y ly); [apply D2; apply D1; exact Hy|exact Hyi]|].
  eapply runs_bind.
  { eapply point_write_runs; [exact Hin2|]. unfold store. cbn [points set_points].
    rewrite cell_insert_eq by (rewrite !length_insert; done). reflexivity. }
  intros h3 Hin3 K3.
  pose proof (others_kept_doubles _ _ _ _ _ _ Hin2 K3) as D3.
  eapply reads_bind;
    [apply (read_double_spec h3 z lz); [apply D3; apply D2; apply D1; exact Hz|exact Hzi]|].
  eassert (runs (InMemory.point_write a i (fun p => set_pt_z p zi)) h3 a pb nb tt _)
    as (h4 & Hw & Hin4 & K4).
  { eapply point_write_runs; [exact Hin3|]. unfold store. cbn [points set_points].
    rewrite cell_insert_eq by (rewrite !length_insert; done). reflexivity. }
  exists h4. split; [exact Hw|]. split; [|exact K4].
  revert Hin4. unfold set_points. cbn. now rewrite !list_insert_insert_eq.
Qed.

Lemma cache_loop_runs k : forall h a pb nb t x y z lx ly lz i t',
  tree_in h a pb nb t ->
  cell h x = Some (Some (ODoubles lx)) -> cell h y = Some (Some (ODoubles ly)) ->
  cell h z = Some (Some (ODoubles lz)) ->
  cache_loop k lx ly lz i t = Some t' ->
  runs (InMemory.cache_loop k x y z i a) h a pb nb tt t'.
Proof.
  induction k as [|k IH]; intros h a pb nb t x y z lx ly lz i t' Hin Hx Hy Hz Hc.
  - cbn in Hc. injection Hc as <-. now apply runs_ret.
  - cbn [cache_loop InMemory.cache_loop] in *.
    destruct (cache_point lx ly lz i t) as [t1|] eqn:Hp; [|done].
    cbn [mbind option_bind] in Hc.
    eapply runs_bind; [apply (cache_point_runs h a pb nb t x y z lx ly lz); eassumption|].
    intros h1 Hin1 K1.
    pose proof (others_kept_doubles _ _ _ _ _ _ Hin K1) as D1.
    apply (IH h1 a pb nb t1 x y z lx ly lz); auto.
Qed.

Lemma cell_app_l {A} (l l' : list A) b :
  b < N.of_nat (length l) -> cell (l ++ l') b = cell l b.
Proof. intros H. unfold cell. apply lookup_app_l. lia. Qed.

Lemma cell_app_len {A} (l : list A) v : cell (l ++ [v]) (N.of_nat (length l)) = Some v.
Proof. unfold cell. rewrite Nat2N.id. now apply list_lookup_middle. Qed.

Lemma tree_write_spec h a o f :
  cell h a = Some (Some (OTree o)) ->
  InMemory.tree_write a f h = Some (tt, <[N.to_nat a := Some (OTree (f o))]> h).
Proof.
  intros Ha. unfold InMemory.tree_write.
  rewrite (bind_Some _ _ h o h).
  - unfold heap_store. now rewrite Ha.
  - unfold load_tree, heap_load, mbind, M_bind. now rewrite Ha.
Qed.

(** The part of [kdtree_build] behind the allocation. *)
Lemma kdtree_build_tail_runs h a pb nb t x y z lx ly lz n t1 node t2 :
  tree_in h a pb nb t ->
  cell h x = Some (Some (ODoubles lx)) -> cell h y = Some (Some (ODoubles ly)) ->
  cell h z = Some (Some (ODoubles lz)) ->
  cache_points lx ly lz n (set_next_node t 0) = Some t1 ->
  _build_kdtree (N.to_nat n) 0 (n - 1) 0 t1 = Some (node, t2) ->
  runs (_ ← InMemory.tree_write a (fun o => set_k_next_node o 0);
        _ ← InMemory.cache_loop (N.to_nat n) x y z 0 a;
        node ← InMemory._build_kdtree (N.to_nat n) 0 (n - 1) 0 a;
        _ ← InMemory.tree_write a (fun o => set_k_root o (Some node));
        mret (Some a)) h a pb nb (Some a) (set_root t2 (Some node)).
Proof.
  intros Hin Hx Hy Hz Hc Hb.
  eapply runs_bind.
  { apply (tree_write_runs h a pb nb t (set_next_node t 0)); done. }
  intros h1 Hin1 K1. pose proof (others_kept_doubles _ _ _ _ _ _ Hin K1) as D1.
  eapply runs_bind.
  { apply (cache_loop_runs _ h1 a pb nb (set_next_node t 0) x y z lx ly lz 0 t1); auto. }
  intros h2 Hin2 K2.
  eapply runs_bind; [apply (_build_kdtree_runs _ _ _ _ h2 a pb nb t1); eassumption|].
  intros h3 Hin3 K3.
  eapply runs_bind.
  { apply (tree_write_runs h3 a pb nb t2 (set_root t2 (Some node))); done. }
  intros h4 Hin4 K4. now apply runs_ret.
Qed.

(** The allocation of a new tree object: three new blocks behind the
    blocks there are. *)
Lemma kdtree_allocate_spec h n :
  exists h1,
    (tree ← malloc (OTree InMemory.fresh_kdtree);
     _ ← InMemory.tree_write tree (fun o => set_k_count o n);
     _ ← InMemory.tree_write tree (fun o => set_k_max_nodes o (((n - 1) * 2) + 1));
     points ← malloc (OPoints (malloc_points n));
     _ ← InMemory.tree_write tree (fun o => set_k_points o points);
     o ← load_tree tree;
     node_data ← malloc (ONodes (malloc_nodes (k_max_nodes o)));
     _ ← InMemory.tree_write tree (fun o => set_k_node_data o node_data);
     mret tree) h = Some (N.of_nat (length h), h1) /\
    tree_in h1 (N.of_nat (length h)) (N.of_nat (length h) + 1) (N.of_nat (length h) + 2)
      (kdtree_new n) /\
    forall b, b < N.of_nat (length h) -> cell h1 b = cell h b.
Proof.
  set (a := N.of_nat (length h)).
  set (o1 := set_k_max_nodes (set_k_count InMemory.fresh_kdtree n) (((n - 1) * 2) + 1)).
  set (o2 := set_k_points o1 (a + 1)).
  set (o3 := set_k_node_data o2 (a + 2)).
  set (P := Some (OPoints (malloc_points n))).
  set (Nd := Some (ONodes (malloc_nodes (((n - 1) * 2) + 1)))).
  exists (h ++ [Some (OTree o3); P; Nd]).
  assert (forall (l : heap) v w, <[N.to_nat a := w]> (h ++ v :: l) = h ++ w :: l) as Hins.
  { intros l v w. subst a. rewrite Nat2N.id.
    replace (length h) with (length h + 0)%nat by lia.
    now rewrite insert_app_r. }
  assert (forall (l : heap) v, cell (h ++ v :: l) a = Some v) as Hat.
  { intros l v. subst a. unfold cell. rewrite Nat2N.id. now apply list_lookup_middle. }
  split; [|split].
  - rewrite (bind_Some _ _ h a (h ++ [Some (OTree InMemory.fresh_kdtree)])) by done.
    erewrite bind_Some by (apply tree_write_spec, Hat). rewrite Hins.
    erewrite bind_Some by (apply tree_write_spec, Hat). rewrite Hins.
    rewrite (bind_Some _ _ _ (a + 1) (h ++ [Some (OTree o1); P])).
    2:{ unfold malloc. rewrite length_app. cbn [length]. rewrite <- app_assoc.
        subst a. do 3 f_equal. lia. }
    erewrite bind_Some by (apply tree_write_spec, Hat). rewrite Hins.
    rewrite (bind_Some _ _ _ o2 (h ++ [Some (OTree o2); P])).
    2:{ unfold load_tree, heap_load, mbind, M_bind. now rewrite Hat. }
    rewrite (bind_Some _ _ _ (a + 2) (h ++ [Some (OTree o2); P; Nd])).
    2:{ unfold malloc. rewrite length_app. cbn [length]. rewrite <- app_assoc.
        subst a. cbn [app]. do 3 f_equal. lia. }
    erewrite bind_Some by (apply tree_write_spec, Hat). rewrite Hins. done.
  - split; [|split].
    + rewrite Hat. done.
    + unfold cell. subst a. rewrite lookup_app_r by lia.
      replace (N.to_nat (N.of_nat (length h) + 1) - length h)%nat with 1%nat by lia. done.
    + unfold cell. subst a. rewrite lookup_app_r by lia.
      replace (N.to_nat (N.of_nat (length h) + 2) - length h)%nat with 2%nat by lia. done.
  - intros b Hb. now apply cell_app_l.
Qed.

Lemma kdtree_delete_spec h a pb nb t :
  tree_in h a pb nb t ->
  exists h0,
    InMemory.kdtree_delete (Some a) h = Some (None, h0) /\
    length h0 = length h /\ doubles_kept h h0.
Proof.
  intros Hin. destruct (tree_in_distinct _ _ _ _ _ Hin) as (H1 & H2 & H3).
  pose proof Hin as (Ha & Hp & Hn).
  exists (<[N.to_nat a := None]> (<[N.to_nat nb := None]> (<[N.to_nat pb := None]> h))).
  split; [|split].
  - unfold InMemory.kdtree_delete.
    rewrite (bind_Some _ _ _ _ _ (load_tree_spec h a pb nb t Hin)).
    cbn [k_points k_node_data obj_of].
    rewrite (bind_Some _ _ h tt (<[N.to_nat pb := None]> h))
      by (unfold free; now rewrite Hp).
    rewrite (bind_Some _ _ _ tt (<[N.to_nat nb := None]> (<[N.to_nat pb := None]> h)))
      by (unfold free; rewrite cell_insert_ne by congruence; now rewrite Hn).
    rewrite (bind_Some _ _ _ tt
               (<[N.to_nat a := None]>
                  (<[N.to_nat nb := None]> (<[N.to_nat pb := None]> h))))
      by (unfold free; rewrite !cell_insert_ne by congruence; now rewrite Ha).
    done.
  - now rewrite !length_insert.
  - intros b l Hb. rewrite !cell_insert_ne; [done|..]; intros E; subst; congruence.
Qed.

End Memory.

Section MemoryFrame.
Context {libc : Libc}.

(** C10: run on a memory in which the blocks [x], [y] and [z] hold the
    caller's arrays, a call of [kdtree_build] with [n >= 2] returns, and
    the three arrays hold after the call what they held before it, cell
    for cell, as does every other array of doubles: every store of the
    call goes to the record of the tree, to its point cache or to its
    arena, the blocks that [kdtree_delete] frees are those of the previous
    tree, and the sorting is done in the point cache, which ends as a
    rearrangement of the points of the arrays.  The tree the call leaves
    in memory is the one the build of the tree handle gives. *)
Theorem kdtree_build_keeps_arrays h x y z lx ly lz n tree_ptr tp :
  1 < n ->
  cell h x = Some (Some (ODoubles lx)) ->
  cell h y = Some (Some (ODoubles ly)) ->
  cell h z = Some (Some (ODoubles lz)) ->
  arrays_hold lx ly lz n ->
  handle_in h tree_ptr tp -> handle_ok tp ->
  exists h' a pb nb t,
    InMemory.kdtree_build x y z n tree_ptr h = Some (Some a, h') /\
    cell h' x = Some (Some (ODoubles lx)) /\
    cell h' y = Some (Some (ODoubles ly)) /\
    cell h' z = Some (Some (ODoubles lz)) /\
    doubles_kept h h' /\
    tree_in h' a pb nb t /\
    kdtree_build lx ly lz n tp = Some t /\
    points t ≡ₚ point_set lx ly lz n.
Proof.
  intros Hn Hx Hy Hz Harr Hh Hok.
  destruct (kdtree_build_spec lx ly lz n tp Hn Harr Hok) as
    (t & T & Hb & HT & _ & _ & _ & _ & _ & _ & Hpts).
  assert (points t ≡ₚ point_set lx ly lz n) as Hperm
    by (rewrite Hpts; apply (build_subtree_leaves _ _ _ _ HT)).
  pose proof Hb as Hb0. unfold kdtree_build in Hb0.
  apply N.ltb_lt in Hn. rewrite Hn in Hb0. cbn [negb] in Hb0.
  destruct (cache_points lx ly lz n _) as [t1|] eqn:Hc; [|done].
  cbn [mbind option_bind] in Hb0.
  destruct (_build_kdtree (N.to_nat n) 0 (n - 1) 0 t1) as [[node t2]|] eqn:Hbk; [|done].
  cbn [mbind option_bind] in Hb0. injection Hb0 as Ht.
  (* the part behind the allocation, from a memory that holds the tree *)
  assert (forall h1 a pb nb,
            tree_in h1 a pb nb (kdtree_alloc n tp) -> doubles_kept h h1 ->
            exists h',
              (_ ← InMemory.tree_write a (fun o => set_k_next_node o 0);
               _ ← InMemory.cache_loop (N.to_nat n) x y z 0 a;
               node ← InMemory._build_kdtree (N.to_nat n) 0 (n - 1) 0 a;
               _ ← InMemory.tree_write a (fun o => set_k_root o (Some node));
               mret (Some a)) h1 = Some (Some a, h') /\
              tree_in h' a pb nb t /\ doubles_kept h h') as Htail.
  { intros h1 a pb nb Hin1 D1.
    destruct (kdtree_build_tail_runs h1 a pb nb _ x y z lx ly lz n t1 node t2 Hin1
                (D1 _ _ Hx) (D1 _ _ Hy) (D1 _ _ Hz) Hc Hbk) as (h' & Hrun & Hin' & K).
    exists h'. rewrite Ht in Hin'. split; [done|]. split; [done|].
    intros b l Hbl. eapply (others_kept_doubles _ _ _ _ _ _ Hin1 K), D1, Hbl. }
  assert (forall a pb nb h',
            tree_in h' a pb nb t -> doubles_kept h h' ->
            InMemory.kdtree_build x y z n tree_ptr h = Some (Some a, h') ->
            exists h' a pb nb t,
              InMemory.kdtree_build x y z n tree_ptr h = Some (Some a, h') /\
              cell h' x = Some (Some (ODoubles lx)) /\
              cell h' y = Some (Some (ODoubles ly)) /\
              cell h' z = Some (Some (ODoubles lz)) /\
              doubles_kept h h' /\
              tree_in h' a pb nb t /\
              kdtree_build lx ly lz n tp = Some t /\
              points t ≡ₚ point_set lx ly lz n) as Hend.
  { intros a pb nb h' Hin' D' Hrun. exists h', a, pb, nb, t.
    split; [done|]. split; [now apply D'|]. split; [now apply D'|].
    split; [now apply D'|]. done. }
  destruct tree_ptr as [a0|], tp as [t0|]; try done.
  - destruct Hh as (pb0 & nb0 & Hin0).
    destruct (N.eqb_spec (count t0) n) as [E|E].
    + (* the object is kept *)
      destruct (Htail h a0 pb0 nb0) as (h' & Hrun & Hin' & D').
      { unfold kdtree_alloc. apply N.eqb_eq in E. now rewrite E. }
      { now intros b l. }
      apply (Hend a0 pb0 nb0 h'); [done|done|].
      unfold InMemory.kdtree_build. rewrite Hn.
      rewrite (bind_Some _ _ h tt h) by done.
      rewrite (bind_Some _ _ h (count t0 =? n) h).
      2:{ now rewrite (bind_Some _ _ _ _ _ (load_tree_spec h a0 pb0 nb0 t0 Hin0)). }
      apply N.eqb_eq in E. rewrite E.
      rewrite (bind_Some _ _ h a0 h) by done. exact Hrun.
    + (* the object is deleted and a new one allocated *)
      destruct (kdtree_delete_spec h a0 pb0 nb0 t0 Hin0) as (h0 & Hdel & Hlen & D0).
      destruct (kdtree_allocate_spec h0 n) as (h1 & Hall & Hin1 & Hlow).
      destruct (Htail h1 (N.of_nat (length h0)) (N.of_nat (length h0) + 1)
                  (N.of_nat (length h0) + 2)) as (h' & Hrun & Hin' & D').
      { unfold kdtree_alloc. apply N.eqb_neq in E. rewrite E. exact Hin1. }
      { intros b l Hbl. rewrite Hlow; [now apply D0|].
        rewrite Hlen. eapply cell_Some_lt, Hbl. }
      eapply Hend; [exact Hin'|exact D'|].
      unfold InMemory.kdtree_build. rewrite Hn.
      rewrite (bind_Some _ _ h tt h) by done.
      rewrite (bind_Some _ _ h (count t0 =? n) h).
      2:{ now rewrite (bind_Some _ _ _ _ _ (load_tree_spec h a0 pb0 nb0 t0 Hin0)). }
      apply N.eqb_neq in E. rewrite E.
      rewrite (bind_Some _ _ h (N.of_nat (length h0)) h1); [exact Hrun|].
      rewrite (bind_Some _ _ _ _ _ Hdel). exact Hall.
  - (* a new object is allocated *)
    destruct (kdtree_allocate_spec h n) as (h1 & Hall & Hin1 & Hlow).
    destruct (Htail h1 (N.of_nat (length h)) (N.of_nat (length h) + 1)
                (N.of_nat (length h) + 2)) as (h' & Hrun & Hin' & D').
    { exact Hin1. }
    { intros b l Hbl. rewrite Hlow; [done|]. eapply cell_Some_lt, Hbl. }
    eapply Hend; [exact Hin'|exact D'|].
    unfold InMemory.kdtree_build. rewrite Hn.
    rewrite (bind_Some _ _ h tt h) by done.
    rewrite (bind_Some _ _ h false h) by done.
    rewrite (bind_Some _ _ h (N.of_nat (length h)) h1); [exact Hrun|].
    rewrite (bind_Some _ _ h None h) by done. exact Hall.
Qed.

(** X22: a build through a handle whose tree has the count of the call
    rebuilds the tree in place: the call returns the address it was
    handed, the record, the point cache and the arena are the blocks they
    were, the memory has as many blocks as before (nothing is allocated and
    nothing freed) and no block but these three has changed; the tree these
    blocks hold afterwards has the point cache of a build from [NULL] and
    every search of it reports what the search of that build reports,
    whatever the coordinates are and whatever the previous build left in
    the blocks. *)
Theorem kdtree_build_in_place h x y z lx ly lz n a pb nb t0 :
  1 < n ->
  cell h x = Some (Some (ODoubles lx)) ->
  cell h y = Some (Some (ODoubles ly)) ->
  cell h z = Some (Some (ODoubles lz)) ->
  arrays_hold lx ly lz n ->
  tree_in h a pb nb t0 -> tree_wf t0 -> count t0 = n ->
  exists h' t t',
    InMemory.kdtree_build x y z n (Some a) h = Some (Some a, h') /\
    tree_in h' a pb nb t /\
    length h' = length h /\
    (forall b, b <> a -> b <> pb -> b <> nb -> cell h' b = cell h b) /\
    kdtree_build lx ly lz n (Some t0) = Some t /\
    kdtree_build lx ly lz n None = Some t' /\
    points t = points t' /\
    forall iter_ptr iter_ptr' x_min x_max y_min y_max z_min z_max,
      iter_handle_ok iter_ptr -> iter_handle_ok iter_ptr' ->
      exists iter iter',
        kdtree_search_space (Some t) iter_ptr x_min x_max y_min y_max z_min z_max
          = Some iter /\
        kdtree_search_space (Some t') iter_ptr' x_min x_max y_min y_max z_min z_max
          = Some iter' /\
        contents iter = contents iter'.
Proof.
  intros Hn Hx Hy Hz Harr Hin0 Hwf0 Hcount.
  destruct (kdtree_build_spec lx ly lz n (Some t0) Hn Harr Hwf0) as
    (t & T & Hb & HT & _ & _ & _ & _ & _ & _ & Hpts).
  destruct (kdtree_build_spec lx ly lz n None Hn Harr I) as
    (t' & T' & Hb' & HT' & _ & _ & _ & _ & _ & _ & Hpts').
  assert (T' = T) as -> by congruence.
  pose proof Hb as Hb0. unfold kdtree_build in Hb0.
  pose proof Hn as Hlt. apply N.ltb_lt in Hlt. rewrite Hlt in Hb0. cbn [negb] in Hb0.
  assert (kdtree_alloc n (Some t0) = t0) as Halloc
    by (unfold kdtree_alloc; apply N.eqb_eq in Hcount; now rewrite Hcount).
  rewrite Halloc in Hb0.
  destruct (cache_points lx ly lz n _) as [t1|] eqn:Hc; [|done].
  cbn [mbind option_bind] in Hb0.
  destruct (_build_kdtree (N.to_nat n) 0 (n - 1) 0 t1) as [[node t2]|] eqn:Hbk; [|done].
  cbn [mbind option_bind] in Hb0. injection Hb0 as Ht.
  destruct (kdtree_build_tail_runs h a pb nb t0 x y z lx ly lz n t1 node t2
              Hin0 Hx Hy Hz Hc Hbk) as (h' & Hrun & Hin' & Hlen & Hkept).
  rewrite Ht in Hin'.
  exists h', t, t'. split.
  { unfold InMemory.kdtree_build. rewrite Hlt.
    rewrite (bind_Some _ _ h tt h) by done.
    rewrite (bind_Some _ _ h (count t0 =? n) h).
    2:{ now rewrite (bind_Some _ _ _ _ _ (load_tree_spec h a pb nb t0 Hin0)). }
    apply N.eqb_eq in Hcount. rewrite Hcount.
    rewrite (bind_Some _ _ h a h) by done. exact Hrun. }
  split; [done|]. split; [done|]. split; [done|]. split; [done|]. split; [done|].
  split; [congruence|].
  intros iter_ptr iter_ptr' x_min x_max y_min y_max z_min z_max Hit Hit'.
  destruct (build_then_search lx ly lz n (Some t0) iter_ptr
              x_min x_max y_min y_max z_min z_max Hn Harr Hwf0 Hit)
    as (u & U & iter & Hu & HU & _ & _ & _ & _ & _ & _ & _ & Hs & _ & _ & Hc1).
  destruct (build_then_search lx ly lz n None iter_ptr'
              x_min x_max y_min y_max z_min z_max Hn Harr I Hit')
    as (u' & U' & iter' & Hu' & HU' & _ & _ & _ & _ & _ & _ & _ & Hs' & _ & _ & Hc1').
  assert (u = t) as -> by congruence. assert (u' = t') as -> by congruence.
  assert (U' = U) as -> by congruence.
  exists iter, iter'. split; [done|]. split; [done|]. congruence.
Qed.

End MemoryFrame.

(** ** The build in memory on the example inputs *)

Lemma kdtree_build_keeps_arrays_witness :
  1 < 11 /\
  cell test_heap 0 = Some (Some (ODoubles test_x)) /\
  cell test_heap 1 = Some (Some (ODoubles test_y)) /\
  cell test_heap 2 = Some (Some (ODoubles test_z)) /\
  arrays_hold test_x test_y test_z 11 /\
  handle_in test_heap None None /\ handle_ok None /\
  exists h' a,
    InMemory.kdtree_build 0 1 2 11 None test_heap = Some (Some a, h') /\
    cell h' 0 = Some (Some (ODoubles test_x)) /\
    cell h' 1 = Some (Some (ODoubles test_y)) /\
    cell h' 2 = Some (Some (ODoubles test_z)).
Proof.
  split; [lia|]. split; [reflexivity|]. split; [reflexivity|]. split; [reflexivity|].
  split; [exact test_arrays_hold|]. split; [exact I|]. split; [exact I|].
  destruct (kdtree_build_keeps_arrays test_heap 0 1 2 test_x test_y test_z 11 None None)
    as (h' & a & pb & nb & t & Hb & Hx & Hy & Hz & _);
    [lia|reflexivity|reflexivity|reflexivity|exact test_arrays_hold|exact I|exact I|].
  exists h', a. split; [exact Hb|]. split; [exact Hx|]. split; [exact Hy|exact Hz].
Defined.

Lemma near_heap_tree : tree_in near_heap 2 3 4 near_tree.
Proof. split; [|split]; reflexivity. Qed.

Lemma kdtree_build_in_place_witness :
  1 < 4 /\
  cell near_heap 0 = Some (Some (ODoubles zero4)) /\
  cell near_heap 1 = Some (Some (ODoubles near_x)) /\
  arrays_hold zero4 near_x zero4 4 /\
  tree_in near_heap 2 3 4 near_tree /\ tree_wf near_tree /\ count near_tree = 4 /\
  exists h' t,
    InMemory.kdtree_build 0 1 0 4 (Some 2) near_heap = Some (Some 2, h') /\
    tree_in h' 2 3 4 t /\ length h' = length near_heap /\
    cell h' 0 = cell near_heap 0 /\ cell h' 1 = cell near_heap 1.
Proof.
  split; [lia|]. split; [reflexivity|]. split; [reflexivity|].
  split; [exact near_arrays_hold|]. split; [exact near_heap_tree|].
  split; [exact (proj1 near_tree_wf)|]. split; [exact (proj2 near_tree_wf)|].
  destruct (kdtree_build_in_place near_heap 0 1 0 zero4 near_x zero4 4 2 3 4 near_tree)
    as (h' & t & t' & Hb & Hin & Hlen & Hk & _);
    [lia|reflexivity|reflexivity|reflexivity|exact near_arrays_hold|exact near_heap_tree
    |exact (proj1 near_tree_wf)|exact (proj2 near_tree_wf)|].
  exists h', t. split; [exact Hb|]. split; [exact Hin|]. split; [exact Hlen|].
  split; apply Hk; discriminate.
Defined.
